(** * VideoSplitter core: a shallow embedding of the planner, the prober,
      the process runner and the size-compliance enforcer.

    The Python sources embedded here are

    - [core/utils.py]      ([GB_IN_BYTES], [gb_to_bytes], [run_command]),
    - [core/split_plan.py] ([make_plan]),
    - [core/ffprobe.py]    ([_parse_float], [_parse_int], [probe]),
    - [core/splitter.py]   ([_check_cancel], [_calculate_bitrate],
                            [_encode_with_target_bitrate], [_encode_with_crf],
                            [reencode_oversize]).

    Python [float] is IEEE-754 binary64; it is modelled by [spec_float] with
    precision 53 and maximal exponent 1024, whose operations round to nearest
    even exactly as the hardware does.  Python [int] is [Z].  Exceptions are
    values of [exn]; a computation that may raise returns a [result]. *)

From Stdlib Require Import ZArith Lia Bool.
From Corelib Require Import SpecFloat.
From Stdlib Require Import Ascii String.
From Stdlib.Strings Require Import Byte.
From stdpp Require Import gmap strings list pretty.

Open Scope Z_scope.
Set Warnings "-register-all".

(* ===================================================================== *)
(** * Python exceptions and results *)
(* ===================================================================== *)

(** The exception classes the four modules raise or let through. *)
Inductive exn : Type :=
  | ValueError (msg : string)
  | TypeError
  | OverflowError
  | AttributeError
  | RuntimeError (msg : string)
  | FileNotFoundError (msg : string)
  | CalledProcessError (returncode : Z) (cmd : list string)
  | OperationCancelled (msg : string)
  | AssertionError.

Inductive result (A : Type) : Type :=
  | Ok (a : A)
  | Raise (e : exn).
Arguments Ok {A} a.
Arguments Raise {A} e.

Definition rbind {A B : Type} (r : result A) (k : A -> result B) : result B :=
  match r with
  | Ok a => k a
  | Raise e => Raise e
  end.

Declare Scope py_scope.
Delimit Scope py_scope with py.
Notation "'let!' x ':=' r 'in' k" := (rbind r (fun x => k))
  (at level 10, x name, r at level 100, k at level 200) : py_scope.
Open Scope py_scope.

(* ===================================================================== *)
(** * Binary64 floats *)
(* ===================================================================== *)

Module F64.

Definition prec : Z := 53.
Definition emax : Z := 1024.

Definition float : Type := spec_float.

(** Every Python float is a valid binary64 datum. *)
Definition valid (x : float) : bool := valid_binary prec emax x.

Definition mul : float -> float -> float := SFmul prec emax.
Definition div : float -> float -> float := SFdiv prec emax.
Definition sub : float -> float -> float := SFsub prec emax.

(** [x < y], [x <= y], [x > y], [x >= y]: false as soon as one side is NaN. *)
Definition ltb (x y : float) : bool := SFltb x y.
Definition leb (x y : float) : bool := SFleb x y.
Definition gtb (x y : float) : bool := SFltb y x.
Definition geb (x y : float) : bool := SFleb y x.

(** Nearest binary64 of an integer (ties to even); an integer of magnitude
    [2^1024 - 2^970] or more rounds to an infinity. *)
Definition of_Z (z : Z) : float := binary_normalize prec emax z 0 false.

Definition zero : float := S754_zero false.
Definition one : float := of_Z 1.

Definition is_nan (x : float) : bool :=
  match x with S754_nan => true | _ => false end.

(** The integer [m * 2^e] rounded towards minus infinity. *)
Definition floor_scaled (m e : Z) : Z := Z.shiftl m e.

End F64.

Abbreviation float := F64.float.

(** [float(z)] for a Python int [z], as in the implicit conversion of
    [int / float], [float * int] and [float / int]. *)
Definition py_float_of_int (z : Z) : result float :=
  match F64.of_Z z with
  | S754_infinity _ => Raise OverflowError
  | f => Ok f
  end.

(** [math.ceil(x)] for a float [x]. *)
Definition math_ceil (x : float) : result Z :=
  match x with
  | S754_zero _ => Ok 0
  | S754_infinity _ => Raise OverflowError
  | S754_nan => Raise (ValueError "cannot convert float NaN to integer")
  | S754_finite false m e => Ok (- F64.floor_scaled (Z.neg m) e)
  | S754_finite true m e => Ok (- F64.floor_scaled (Z.pos m) e)
  end.

(** [int(x)] for a float [x]: truncation towards zero. *)
Definition py_int_of_float (x : float) : result Z :=
  match x with
  | S754_zero _ => Ok 0
  | S754_infinity _ => Raise OverflowError
  | S754_nan => Raise (ValueError "cannot convert float NaN to integer")
  | S754_finite false m e => Ok (F64.floor_scaled (Z.pos m) e)
  | S754_finite true m e => Ok (- F64.floor_scaled (Z.pos m) e)
  end.

(** The builtin [max(a, b)] on two floats: [b] replaces [a] only when
    [b > a] holds. *)
Definition py_max_float (a b : float) : float :=
  if F64.gtb b a then b else a.

(** A float that is a positive number or plus infinity. *)
Definition positive_datum (x : float) : Prop :=
  x = S754_infinity false \/ exists m e, x = S754_finite false m e.

(** [m1 * 2^e1 < m2 * 2^e2], decided exactly: both sides are brought to the
    smaller of the two exponents. *)
Definition dyadic_ltb (m1 e1 m2 e2 : Z) : bool :=
  let c := Z.min e1 e2 in
  m1 * 2 ^ (e1 - c) <? m2 * 2 ^ (e2 - c).

(** The largest integer a finite binary64 can hold: [(2^53 - 1) * 2^971]. *)
Definition MAX_FINITE : Z := (2 ^ 53 - 1) * 2 ^ 971.

(* ===================================================================== *)
(** * core/utils.py: constants *)
(* ===================================================================== *)

Definition GB_IN_BYTES : Z := 1024 ^ 3.
Definition AUDIO_BITRATE : Z := 128000.
Definition MIN_VIDEO_BITRATE : Z := 200000.

(** [gb_to_bytes(value) = int(value * GB_IN_BYTES)]. *)
Definition gb_to_bytes (value : float) : result Z :=
  let! g := py_float_of_int GB_IN_BYTES in
  py_int_of_float (F64.mul value g).

(* ===================================================================== *)
(** * core/split_plan.py *)
(* ===================================================================== *)

Record plan : Type := Plan { parts : Z; segment_time : float }.

(** The literal [60.0]. *)
Definition f60 : float := F64.of_Z 60.

Definition make_plan (duration_sec : float) (size_bytes : Z)
    (max_gb max_min : float) : result plan :=
  if F64.leb duration_sec F64.zero then
    Raise (ValueError "Video duration must be positive.")
  else if size_bytes <=? 0 then
    Raise (ValueError "Video size must be positive.")
  else if F64.leb max_gb F64.zero then
    Raise (ValueError "Maximum size (GB) must be greater than zero.")
  else if F64.leb max_min F64.zero then
    Raise (ValueError "Maximum duration (minutes) must be greater than zero.")
  else
    let! g := py_float_of_int GB_IN_BYTES in
    let max_bytes := F64.mul max_gb g in
    let max_seconds := F64.mul max_min f60 in
    let! size_parts :=
      (if F64.gtb max_bytes F64.zero then
         let! s := py_float_of_int size_bytes in
         math_ceil (F64.div s max_bytes)
       else Ok 1) in
    let! time_parts :=
      (if F64.gtb max_seconds F64.zero then
         math_ceil (F64.div duration_sec max_seconds)
       else Ok 1) in
    let parts := Z.max (Z.max size_parts time_parts) 1 in
    let! p := py_float_of_int parts in
    let segment_time := py_max_float (F64.div duration_sec p) F64.one in
    Ok (Plan parts segment_time).

(** The plan in the words of the specification: [sizeParts = ceil(sizeBytes /
    (maxGB * 2^30))], [timeParts = ceil(durationSec / (maxMinutes * 60))],
    [parts = max(sizeParts, timeParts, 1)] and [segmentSeconds =
    max(durationSec / parts, 1.0)], every operation being Python's own. *)
Definition spec_plan (duration_sec : float) (size_bytes : Z)
    (max_gb max_min : float) : result plan :=
  let! s := py_float_of_int size_bytes in
  let! size_parts := math_ceil (F64.div s (F64.mul max_gb (F64.of_Z (2 ^ 30)))) in
  let! time_parts := math_ceil (F64.div duration_sec (F64.mul max_min f60)) in
  let parts := Z.max (Z.max size_parts time_parts) 1 in
  let! p := py_float_of_int parts in
  Ok (Plan parts (py_max_float (F64.div duration_sec p) F64.one)).

(** The test [parts * segment_time >= duration_sec], as Python evaluates it. *)
Definition covers (pl : plan) (duration_sec : float) : result bool :=
  let! p := py_float_of_int (parts pl) in
  Ok (F64.geb (F64.mul p (segment_time pl)) duration_sec).

(* ===================================================================== *)
(** * Text, bytes and codecs *)
(* ===================================================================== *)

(** A Python [str] read from a process is a list of Unicode code points;
    [bytes] is a list of bytes. *)
Definition text : Type := list N.
Definition bytes : Type := list byte.

(** The code points of an ASCII literal of the source. *)
Definition lit (s : string) : text :=
  List.map N_of_ascii (list_ascii_of_string s).

Definition REPLACEMENT : N := 65533%N.

(** What [bytes.decode(encoding, errors=...)] does for one encoding:
    [decode_strict] is [errors="strict"] ([None] stands for
    [UnicodeDecodeError]) and [decode_replace] is [errors="replace"], which
    never fails. *)
Record codec : Type := Codec {
  decode_strict : bytes -> option text;
  decode_replace : bytes -> text;
}.

(** The [ascii] codec. *)
Definition ascii_strict (b : bytes) : option text :=
  if forallb (fun c => (Byte.to_N c <? 128)%N) b
  then Some (List.map Byte.to_N b) else None.

Definition ascii_replace (b : bytes) : text :=
  List.map (fun c => if (Byte.to_N c <? 128)%N then Byte.to_N c else REPLACEMENT) b.

Definition ascii_codec : codec := Codec ascii_strict ascii_replace.

(** [str.isspace] on one code point: the characters [str.rstrip()] removes. *)
Definition is_space (c : N) : bool :=
  ((9 <=? c) && (c <=? 13) || (28 <=? c) && (c <=? 32) || (c =? 133) || (c =? 160)
   || (c =? 5760) || (8192 <=? c) && (c <=? 8202) || (c =? 8232) || (c =? 8233)
   || (c =? 8239) || (c =? 8287) || (c =? 12288))%N.

Fixpoint drop_spaces (t : text) : text :=
  match t with
  | c :: t' => if is_space c then drop_spaces t' else t
  | [] => []
  end.

Definition rstrip (t : text) : text :=
  rev (drop_spaces (rev t)).

(** The line boundaries of [str.splitlines()], a CR LF pair apart. *)
Definition is_linebreak (c : N) : bool :=
  ((10 <=? c) && (c <=? 13) || (28 <=? c) && (c <=? 30) || (c =? 133)
   || (c =? 8232) || (c =? 8233))%N.

(** [str.splitlines()]: [cur] is the line being read, last character first. *)
Fixpoint splitlines_from (cur : text) (t : text) : list text :=
  match t with
  | [] => match cur with [] => [] | _ => [rev cur] end
  | c :: t' =>
      if (c =? 13)%N then
        match t' with
        | c' :: t'' =>
            if (c' =? 10)%N then rev cur :: splitlines_from [] t''
            else rev cur :: splitlines_from [] t'
        | [] => [rev cur]
        end
      else if is_linebreak c then rev cur :: splitlines_from [] t'
      else splitlines_from (c :: cur) t'
  end.

Definition splitlines (t : text) : list text := splitlines_from [] t.

(** Iterating a text-mode pipe opened with universal newlines: CR LF and CR
    are read as LF, and every line keeps its final LF. *)
Fixpoint readlines_from (cur : text) (t : text) : list text :=
  match t with
  | [] => match cur with [] => [] | _ => [rev cur] end
  | c :: t' =>
      if (c =? 13)%N then
        match t' with
        | c' :: t'' =>
            if (c' =? 10)%N then rev (10%N :: cur) :: readlines_from [] t''
            else rev (10%N :: cur) :: readlines_from [] t'
        | [] => [rev (10%N :: cur)]
        end
      else if (c =? 10)%N then rev (10%N :: cur) :: readlines_from [] t'
      else readlines_from (c :: cur) t'
  end.

Definition readlines (t : text) : list text := readlines_from [] t.

(* ===================================================================== *)
(** * Paths and files *)
(* ===================================================================== *)

(** A [Path] is its normalised string; the separator is the slash. *)
Definition path : Type := string.

(** A file on disk: its size in bytes and the identity of its content. *)
Record file : Type := File { f_size : Z; f_data : N }.

Abbreviation fsys := (gmap string file).

(** [split_last sep s] cuts [s] around its last [sep]. *)
Fixpoint split_last (sep : ascii) (s : string) : option (string * string) :=
  match s with
  | EmptyString => None
  | String c s' =>
      match split_last sep s' with
      | Some (b, a) => Some (String c b, a)
      | None => if Ascii.eqb c sep then Some (EmptyString, s') else None
      end
  end.

Definition is_empty (s : string) : bool :=
  match s with EmptyString => true | _ => false end.

(** The directory part (final slash kept) and [PurePath.name]. *)
Definition path_parent (p : path) : string :=
  match split_last "/" p with
  | Some (b, _) => b +:+ "/"
  | None => EmptyString
  end.

Definition path_name (p : path) : string :=
  match split_last "/" p with
  | Some (_, a) => a
  | None => p
  end.

(** [PurePath.stem]: the name without its suffix; a suffix starts at the
    last dot of the name, unless that dot is its first or last character. *)
Definition name_stem (name : string) : string :=
  match split_last "." name with
  | Some (b, a) => if is_empty b || is_empty a then name else b
  | None => name
  end.

(** [PurePath.with_suffix(suffix)]. *)
Definition with_suffix (p : path) (suffix : string) : result path :=
  if is_empty (path_name p) then Raise (ValueError "path has an empty name")
  else Ok (path_parent p +:+ name_stem (path_name p) +:+ suffix).

(* ===================================================================== *)
(** * The run state and its monad *)
(* ===================================================================== *)

Inductive level : Type := DEBUG | INFO | WARNING | ERROR.

(** A log record: a line of process output, or a message of the program
    (its format string; the formatted arguments are not kept). *)
Inductive log_record : Type :=
  | LogLine (lv : level) (line : text)
  | LogMsg (lv : level) (fmt : string).

(** What the runner does to a child process. *)
Inductive proc_event : Type :=
  | PRun (args : list string)        (* subprocess.run: started and waited for *)
  | PSpawn (args : list string)      (* subprocess.Popen *)
  | PTerminate                       (* proc.terminate() *)
  | PWaitTimeout (seconds : Z)       (* proc.wait(timeout=seconds) *)
  | PKill                            (* proc.kill() *)
  | PWait                            (* proc.wait() *)
  | PExit.                           (* leaving the [with] block *)

Record state : Type := State {
  st_fs : fsys;                      (* the output directory *)
  st_log : list log_record;          (* oldest first *)
  st_progress : list (Z * Z);        (* progress events, oldest first *)
  st_polls : nat;                    (* calls of [is_set] so far *)
  st_procs : list proc_event;        (* oldest first *)
}.

Definition M (A : Type) : Type := state -> result A * state.

Definition ret {A : Type} (a : A) : M A := fun st => (Ok a, st).
Definition raise {A : Type} (e : exn) : M A := fun st => (Raise e, st).

Definition bind {A B : Type} (m : M A) (k : A -> M B) : M B :=
  fun st =>
    match m st with
    | (Ok a, st') => k a st'
    | (Raise e, st') => (Raise e, st')
    end.

Definition lift {A : Type} (r : result A) : M A := fun st => (r, st).

(** [try: m except <classes selected by h>: handler]. *)
Definition try_except {A : Type} (m : M A) (h : exn -> option (M A)) : M A :=
  fun st =>
    match m st with
    | (Ok a, st') => (Ok a, st')
    | (Raise e, st') =>
        match h e with
        | Some handler => handler st'
        | None => (Raise e, st')
        end
    end.

Notation "'let*' x ':=' m 'in' k" := (bind m (fun x => k))
  (at level 10, x name, m at level 100, k at level 200) : py_scope.
Notation "m ';;' k" := (bind m (fun _ => k))
  (at level 100, k at level 200, right associativity) : py_scope.

Definition get_fs : M fsys := fun st => (Ok (st_fs st), st).

Definition set_fs (fs : fsys) : M unit :=
  fun st => (Ok tt, State fs (st_log st) (st_progress st) (st_polls st) (st_procs st)).

Definition log (r : log_record) : M unit :=
  fun st => (Ok tt, State (st_fs st) (st_log st ++ [r]) (st_progress st)
                          (st_polls st) (st_procs st)).

Definition emit_progress (current total : Z) : M unit :=
  fun st => (Ok tt, State (st_fs st) (st_log st) (st_progress st ++ [(current, total)])
                          (st_polls st) (st_procs st)).

Definition proc (e : proc_event) : M unit :=
  fun st => (Ok tt, State (st_fs st) (st_log st) (st_progress st)
                          (st_polls st) (st_procs st ++ [e])).

Fixpoint for_each {A : Type} (f : A -> M unit) (l : list A) : M unit :=
  match l with
  | [] => ret tt
  | a :: l' => f a ;; for_each f l'
  end.

(** [Path.exists()], [Path.stat().st_size], [Path.unlink()] and
    [Path.replace(target)]. *)
Definition path_exists (p : path) : M bool :=
  let* fs := get_fs in
  ret (match fs !! p with Some _ => true | None => false end).

Definition stat_size (p : path) : M Z :=
  let* fs := get_fs in
  match fs !! p with
  | Some f => ret (f_size f)
  | None => raise (FileNotFoundError p)
  end.

Definition path_unlink (p : path) (missing_ok : bool) : M unit :=
  let* fs := get_fs in
  match fs !! p with
  | Some _ => set_fs (delete p fs)
  | None => if missing_ok then ret tt else raise (FileNotFoundError p)
  end.

Definition path_replace (src dst : path) : M unit :=
  let* fs := get_fs in
  match fs !! src with
  | Some f => set_fs (<[dst := f]> (delete src fs))
  | None => raise (FileNotFoundError src)
  end.

(* ===================================================================== *)
(** * The cancellation signal *)
(* ===================================================================== *)

(** A [threading.Event] that another thread may set once and never clears
    during a run.  [set_at] counts calls of [is_set]: the first [set_at]
    calls return [False], every later call returns [True]; [None] is an event
    that stays clear. *)
Record Event : Type := MkEvent { set_at : option nat }.

Definition is_set (ev : Event) : M bool :=
  fun st =>
    (Ok (match set_at ev with
         | Some t => (t <=? st_polls st)%nat
         | None => false
         end),
     State (st_fs st) (st_log st) (st_progress st) (S (st_polls st)) (st_procs st)).

(** [cancel_event and cancel_event.is_set()]. *)
Definition cancel_requested (cancel_event : option Event) : M bool :=
  match cancel_event with
  | Some ev => is_set ev
  | None => ret false
  end.

(** The signal is not visible to the next [k] calls of [is_set] made from
    poll count [polls] on: it is set later, or never, or there is no event. *)
Definition unobserved (cancel_event : option Event) (polls k : nat) : Prop :=
  match cancel_event with
  | Some ev =>
      match set_at ev with
      | Some t => (polls + k <= t)%nat
      | None => True
      end
  | None => True
  end.

(** How many calls of [is_set] the checking of [k] points makes. *)
Definition polls_made (cancel_event : option Event) (k : nat) : nat :=
  match cancel_event with
  | Some _ => k
  | None => 0%nat
  end.

(** An event that stays clear for the whole run, or no event at all. *)
Definition never_set (cancel_event : option Event) : Prop :=
  match cancel_event with
  | Some ev => set_at ev = None
  | None => True
  end.

(* ===================================================================== *)
(** * Python values read from JSON *)
(* ===================================================================== *)

Inductive pyval : Type :=
  | PNone
  | PBool (b : bool)
  | PInt (z : Z)
  | PFloat (f : float)
  | PStr (s : text)
  | PList (l : list pyval)
  | PDict (d : list (text * pyval)).

(** [d.get(key)] on the items of a dict; [None] when the key is absent. *)
Fixpoint dict_lookup (d : list (text * pyval)) (key : text) : option pyval :=
  match d with
  | [] => None
  | (k, v) :: d' => if decide (k = key) then Some v else dict_lookup d' key
  end.

(** [obj.get(key, default)]: any object but a dict has no [get]. *)
Definition py_get (obj : pyval) (key : string) (dflt : pyval) : result pyval :=
  match obj with
  | PDict d => Ok (default dflt (dict_lookup d (lit key)))
  | _ => Raise AttributeError
  end.

(* ===================================================================== *)
(** * The environment of a run *)
(* ===================================================================== *)

(** What [subprocess.run(args, capture_output=True)] returns. *)
Record completed : Type := Completed {
  c_stdout : bytes;
  c_stderr : bytes;
  c_returncode : Z;
}.

(** A child started with [subprocess.Popen(args, stdout=PIPE,
    stderr=STDOUT)], as far as the runner and its callers can observe it:
    - [p_output]: the bytes it writes to the merged pipe while it is let run;
    - [p_returncode]: its exit status when it is let run to the end;
    - [p_file]: the file it then leaves at its output operand, the last
      argument of the command line ([None]: it leaves none there);
    - [p_file_killed n]: the file found there when it was told to terminate
      after [n] lines had been read;
    - [p_exits_in_grace n]: whether, told to terminate then, it is gone
      before the grace period ends. *)
Record process : Type := Process {
  p_output : bytes;
  p_returncode : Z;
  p_file : option file;
  p_file_killed : nat -> option file;
  p_exits_in_grace : nat -> bool;
}.

(** The external collaborators of the core: the two binaries (their
    behaviour may depend on the command line and on the files present), the
    locale's preferred encoding, [json.loads], [float] on a [str], and
    [get_ffmpeg_paths]. *)
Record world : Type := World {
  w_run : list string -> fsys -> completed;
  w_popen : list string -> fsys -> process;
  w_locale : codec;
  w_json_loads : text -> option pyval;
  w_float_of_str : text -> option float;
  w_ffmpeg_paths : result (path * path);
}.

(* ===================================================================== *)
(** * core/utils.py: run_command *)
(* ===================================================================== *)

(** [shlex.quote].  A string holds the UTF-8 bytes of the Python text.  The
    safe characters are those of the pattern [\w@%+=:,./-] in ASCII mode:
    the ASCII letters and digits, the underscore and those nine signs; a
    byte of a character outside ASCII is therefore unsafe.  The empty string
    is written as two single quotes; a string of safe characters stands as
    it is; any other is put between single quotes, each single quote inside
    it being closed, written between double quotes and opened again. *)
Definition DOUBLE_QUOTE : ascii := "034"%char.
Definition NEWLINE : ascii := "010"%char.

Definition is_safe_char (c : ascii) : bool :=
  let n := N_of_ascii c in
  ((48 <=? n) && (n <=? 57))%N
  || ((65 <=? n) && (n <=? 90))%N
  || ((97 <=? n) && (n <=? 122))%N
  || existsb (Ascii.eqb c) ["_"; "@"; "%"; "+"; "="; ":"; ","; "."; "/"; "-"]%char.

Fixpoint all_safe (s : string) : bool :=
  match s with
  | EmptyString => true
  | String c s' => is_safe_char c && all_safe s'
  end.

(** [s.replace] of every single quote by the five characters single quote,
    double quote, single quote, double quote, single quote. *)
Fixpoint escape_single_quotes (s : string) : string :=
  match s with
  | EmptyString => EmptyString
  | String c s' =>
      if Ascii.eqb c "'"%char then
        String "'" (String DOUBLE_QUOTE (String "'" (String DOUBLE_QUOTE
          (String "'" (escape_single_quotes s')))))
      else String c (escape_single_quotes s')
  end.

Definition shlex_quote (s : string) : string :=
  if is_empty s then "''"
  else if all_safe s then s
  else "'" +:+ escape_single_quotes s +:+ "'".

(** [format_command(args)]: the quoted arguments joined by single spaces. *)
Definition format_command (args : list string) : string :=
  String.concat " " (List.map shlex_quote args).

(** The grace period of [proc.wait(timeout=5)]. *)
Definition GRACE_SECONDS : Z := 5.

(** The output operand of a command line. *)
Definition output_operand (args : list string) : option path := last args.

(** The files once a child has left [f] at its output operand. *)
Definition file_left (args : list string) (f : option file) (fs : fsys) : fsys :=
  match output_operand args, f with
  | Some dst, Some f => <[dst := f]> fs
  | _, _ => fs
  end.

Definition leave_file (args : list string) (f : option file) : M unit :=
  let* fs := get_fs in set_fs (file_left args f fs).

(** The body of [for line in proc.stdout]: [n] lines were read before
    [lines]. *)
Fixpoint stream_lines (p : process) (args : list string)
    (cancel_event : option Event) (stream_level : level)
    (n : nat) (lines : list text) : M unit :=
  match lines with
  | [] => ret tt
  | line :: rest =>
      log (LogLine stream_level (rstrip line)) ;;
      let* cancelled := cancel_requested cancel_event in
      if cancelled then
        log (LogMsg WARNING "Cancellation requested; terminating process.") ;;
        proc PTerminate ;;
        proc (PWaitTimeout GRACE_SECONDS) ;;
        (if p_exits_in_grace p (S n) then ret tt else proc PKill) ;;
        leave_file args (p_file_killed p (S n)) ;;
        proc PExit ;;
        raise (OperationCancelled "Process was cancelled by user.")
      else stream_lines p args cancel_event stream_level (S n) rest
  end.

(** The records the streaming loop writes for the lines it read. *)
Definition line_logs (stream_level : level) (lines : list text) : list log_record :=
  List.map (fun line => LogLine stream_level (rstrip line)) lines.

(** The lines the streaming loop draws from the child started with [args]:
    its merged output decoded with [errors="replace"]. *)
Definition streamed_lines (w : world) (args : list string)
    (text_encoding : option codec) (fs : fsys) : list text :=
  readlines (decode_replace (default (w_locale w) text_encoding)
               (p_output (w_popen w args fs))).

Definition run_command (w : world) (args : list string)
    (capture_output : bool) (cancel_event : option Event)
    (stream_level : level) (text_encoding : option codec) : M (option text) :=
  log (LogMsg DEBUG "Running command: %s") ;;
  if capture_output then
    let* fs := get_fs in
    let c := w_run w args fs in
    proc (PRun args) ;;
    let* stdout_text :=
      match text_encoding with
      | Some enc =>
          match decode_strict enc (c_stdout c) with
          | Some t => ret t
          | None =>
              raise (RuntimeError ("Failed to decode stdout from command: "
                                   +:+ format_command args))
          end
      | None => ret (decode_replace (w_locale w) (c_stdout c))
      end in
    let stderr_text :=
      decode_replace (default (w_locale w) text_encoding) (c_stderr c) in
    for_each (fun line => log (LogLine stream_level line)) (splitlines stdout_text) ;;
    for_each (fun line => log (LogLine ERROR line)) (splitlines stderr_text) ;;
    if negb (c_returncode c =? 0) then raise (CalledProcessError (c_returncode c) args)
    else ret (Some stdout_text)
  else
    let* fs := get_fs in
    let p := w_popen w args fs in
    proc (PSpawn args) ;;
    let enc := default (w_locale w) text_encoding in
    stream_lines p args cancel_event stream_level 0
      (readlines (decode_replace enc (p_output p))) ;;
    proc PWait ;;
    leave_file args (p_file p) ;;
    proc PExit ;;
    if negb (p_returncode p =? 0) then raise (CalledProcessError (p_returncode p) args)
    else ret None.

(* ===================================================================== *)
(** * core/ffprobe.py *)
(* ===================================================================== *)

(** [float(value)]. *)
Definition py_float (w : world) (value : pyval) : result float :=
  match value with
  | PNone => Raise TypeError
  | PBool b => Ok (if b then F64.one else F64.zero)
  | PInt z => py_float_of_int z
  | PFloat f => Ok f
  | PStr s =>
      match w_float_of_str w s with
      | Some f => Ok f
      | None => Raise (ValueError "could not convert string to float")
      end
  | PList _ => Raise TypeError
  | PDict _ => Raise TypeError
  end.

(** [except (TypeError, ValueError)]. *)
Definition is_type_or_value_error (e : exn) : bool :=
  match e with
  | TypeError => true
  | ValueError _ => true
  | _ => false
  end.

Definition _parse_float (w : world) (value : pyval) : result float :=
  match py_float w value with
  | Ok f => Ok f
  | Raise e => if is_type_or_value_error e then Ok F64.zero else Raise e
  end.

Definition _parse_int (w : world) (value : pyval) : result Z :=
  match (let! f := py_float w value in py_int_of_float f) with
  | Ok z => Ok z
  | Raise e => if is_type_or_value_error e then Ok 0 else Raise e
  end.

(** The dict [probe] returns. *)
Record metadata : Type := Metadata {
  md_duration : float;
  md_size_bytes : Z;
  md_bit_rate : Z;
  md_format : pyval;
  md_streams : pyval;
}.

(** The items a [for] loop draws from a value. *)
Definition py_iter (v : pyval) : result (list pyval) :=
  match v with
  | PList l => Ok l
  | PDict d => Ok (List.map (fun kv => PStr (fst kv)) d)
  | PStr s => Ok (List.map (fun c => PStr [c]) s)
  | _ => Raise TypeError
  end.

(** The loop over [streams]; [duration] is the value assigned last. *)
Fixpoint scan_streams (w : world) (duration : float) (l : list pyval) : result float :=
  match l with
  | [] => Ok duration
  | stream :: rest =>
      let! v := py_get stream "duration" PNone in
      let! d := _parse_float w v in
      if F64.gtb d F64.zero then Ok d else scan_streams w d rest
  end.

(** [probe] from the parsed JSON on. *)
Definition probe_extract (w : world) (info : pyval) : result metadata :=
  let! fmt := py_get info "format" (PDict []) in
  let! streams := py_get info "streams" (PList []) in
  let! v := py_get fmt "duration" PNone in
  let! duration := _parse_float w v in
  let! v := py_get fmt "size" PNone in
  let! size_bytes := _parse_int w v in
  let! v := py_get fmt "bit_rate" PNone in
  let! bit_rate := _parse_int w v in
  let! bit_rate :=
    (if (bit_rate <=? 0) && F64.gtb duration F64.zero && (0 <? size_bytes) then
       let! n := py_float_of_int (size_bytes * 8) in
       py_int_of_float (F64.div n duration)
     else Ok bit_rate) in
  let! duration :=
    (if F64.leb duration F64.zero then
       let! l := py_iter streams in
       scan_streams w duration l
     else Ok duration) in
  Ok (Metadata duration size_bytes bit_rate fmt streams).

(** [_parse_float(obj.get(key))] and [_parse_int(obj.get(key))]. *)
Definition field_float (w : world) (obj : pyval) (key : string) : result float :=
  let! v := py_get obj key PNone in _parse_float w v.

Definition field_int (w : world) (obj : pyval) (key : string) : result Z :=
  let! v := py_get obj key PNone in _parse_int w v.

(** A value that is no number: [None] (also what [get] gives for a missing
    key), a list, a dict, or a string [float] rejects. *)
Definition non_numeric (w : world) (v : pyval) : Prop :=
  match v with
  | PNone => True
  | PList _ => True
  | PDict _ => True
  | PStr s => w_float_of_str w s = None
  | _ => False
  end.

Definition probe (w : world) (input_path : path) : M metadata :=
  let* found := path_exists input_path in
  if negb found then raise (FileNotFoundError ("Input file not found: " +:+ input_path))
  else
    let* paths := lift (w_ffmpeg_paths w) in
    let cmd := [snd paths; "-v"; "error"; "-print_format"; "json";
                "-show_format"; "-show_streams"; input_path]%string in
    let* output := run_command w cmd true None DEBUG None in
    match output with
    | None => raise AssertionError
    | Some output =>
        match w_json_loads w output with
        | None => raise (RuntimeError "ffprobe returned invalid JSON.")
        | Some info =>
            let* result := lift (probe_extract w info) in
            log (LogMsg DEBUG "ffprobe metadata: duration=%.3fs, size=%d bytes, bitrate=%d bps") ;;
            ret result
        end
    end.

(* ===================================================================== *)
(** * core/splitter.py *)
(* ===================================================================== *)

(** The callback [app.py] passes: it queues a progress event. *)
Inductive ProgressCallback : Type := QueueProgress.

Definition _check_cancel (cancel_event : option Event) : M unit :=
  let* cancelled := cancel_requested cancel_event in
  if cancelled then raise (OperationCancelled "Operation cancelled.") else ret tt.

(** The literals [0.95] and [1.1]: the binary64 nearest to each. *)
Definition f0_95 : float := F64.div (F64.of_Z 95) (F64.of_Z 100).
Definition f1_1 : float := F64.div (F64.of_Z 11) (F64.of_Z 10).

Definition _calculate_bitrate (duration max_gb : float) : result Z :=
  if F64.leb duration F64.zero then
    Raise (ValueError "Segment duration must be positive.")
  else
    let! b := gb_to_bytes max_gb in
    let! bf := py_float_of_int b in
    let target_bytes := F64.mul bf f0_95 in
    let target_bits := py_max_float (F64.mul target_bytes (F64.of_Z 8)) F64.one in
    let! audio := py_float_of_int AUDIO_BITRATE in
    let video_bits := F64.sub (F64.div target_bits duration) audio in
    let! v := py_int_of_float video_bits in
    Ok (Z.max v MIN_VIDEO_BITRATE).

(** The command line of the bitrate-targeted encode; computing the
    [-maxrate] operand converts an int to a float and back. *)
Definition bitrate_args (ffmpeg_path source destination : path)
    (video_bitrate : Z) : result (list string) :=
  let bitrate_k := Z.max (video_bitrate / 1000) 1 in
  let! f := py_float_of_int bitrate_k in
  let! maxrate_k := py_int_of_float (F64.mul f f1_1) in
  let bufsize_k := bitrate_k * 2 in
  Ok [ffmpeg_path; "-y"; "-i"; source; "-map"; "0"; "-c:v"; "libx264";
      "-preset"; "medium";
      "-b:v"; pretty bitrate_k +:+ "k";
      "-maxrate"; pretty maxrate_k +:+ "k";
      "-bufsize"; pretty bufsize_k +:+ "k";
      "-c:a"; "aac"; "-b:a"; "128k"; "-movflags"; "+faststart";
      destination]%string.

Definition _encode_with_target_bitrate (w : world)
    (source destination ffmpeg_path : path) (video_bitrate : Z)
    (cancel_event : option Event) : M unit :=
  let* cmd := lift (bitrate_args ffmpeg_path source destination video_bitrate) in
  let* _ := run_command w cmd false cancel_event INFO None in
  ret tt.

(** The command line of a constant-quality encode. *)
Definition crf_args (ffmpeg_path source destination : path) (crf : Z) : list string :=
  [ffmpeg_path; "-y"; "-i"; source; "-map"; "0"; "-c:v"; "libx264";
   "-preset"; "medium"; "-crf"; pretty crf;
   "-c:a"; "aac"; "-b:a"; "128k"; "-movflags"; "+faststart";
   destination]%string.

Definition _encode_with_crf (w : world)
    (source destination ffmpeg_path : path) (crf : Z)
    (cancel_event : option Event) : M unit :=
  let cmd := crf_args ffmpeg_path source destination crf in
  let* _ := run_command w cmd false cancel_event INFO None in
  ret tt.

(** [final_files.append(file_path)], then the progress callback when there
    is one: how every branch of the loop body ends. *)
Definition keep_part (progress_callback : option ProgressCallback)
    (index total : Z) (file_path : path) (final_files : list path) : M (list path) :=
  match progress_callback with
  | Some QueueProgress => emit_progress index total
  | None => ret tt
  end ;;
  ret (final_files ++ [file_path]).

(** [for crf in (23, 26, 28)], on the rungs still to try. *)
Fixpoint crf_ladder (w : world) (file_path tmp_file ffmpeg_path : path)
    (max_bytes : Z) (cancel_event : option Event) (rungs : list Z) : M unit :=
  match rungs with
  | [] => ret tt
  | crf :: rest =>
      _check_cancel cancel_event ;;
      _encode_with_crf w file_path tmp_file ffmpeg_path crf cancel_event ;;
      let* found := path_exists tmp_file in
      if negb found then
        crf_ladder w file_path tmp_file ffmpeg_path max_bytes cancel_event rest
      else
        let* new_size := stat_size tmp_file in
        if new_size <=? max_bytes then
          log (LogMsg INFO "CRF %d produced acceptable size for %s (%s).")
        else
          log (LogMsg WARNING "CRF %d still too large (%s).") ;;
          path_unlink tmp_file true ;;
          crf_ladder w file_path tmp_file ffmpeg_path max_bytes cancel_event rest
  end.

Definition CRF_RUNGS : list Z := [23; 26; 28].

(** [except utils.OperationCancelled: if tmp_file.exists(): tmp_file.unlink();
    raise]. *)
Definition on_cancel_remove (tmp_file : path) (e : exn) : option (M unit) :=
  match e with
  | OperationCancelled _ =>
      Some (let* found := path_exists tmp_file in
            (if found then path_unlink tmp_file false else ret tt) ;;
            raise e)
  | _ => None
  end.

(** The body of the loop of [reencode_oversize] for one part. *)
Definition reencode_part (w : world) (max_gb : float) (max_bytes : Z)
    (ffmpeg_path : path) (cancel_event : option Event)
    (progress_callback : option ProgressCallback) (total index : Z)
    (file_path : path) (final_files : list path) : M (list path) :=
  let keep := keep_part progress_callback index total file_path final_files in
  _check_cancel cancel_event ;;
  let* size := stat_size file_path in
  if size <=? max_bytes then
    log (LogMsg INFO "Part %s within limits (%s).") ;;
    keep
  else
    log (LogMsg WARNING "Part %s exceeds limit (%s > %.2f GB). Re-encoding...") ;;
    let* meta := probe w file_path in
    let duration := md_duration meta in
    if F64.leb duration F64.zero then
      log (LogMsg ERROR "Unable to determine duration for %s; skipping.") ;;
      keep
    else
      let* tmp_file := lift (with_suffix file_path ".tmp.mp4") in
      let* stale := path_exists tmp_file in
      (if stale then path_unlink tmp_file false else ret tt) ;;
      match _calculate_bitrate duration max_gb with
      | Raise (ValueError msg) => log (LogMsg ERROR msg) ;; keep
      | Raise e => raise e
      | Ok target_bitrate =>
          try_except
            (_encode_with_target_bitrate w file_path tmp_file ffmpeg_path
               target_bitrate cancel_event)
            (on_cancel_remove tmp_file) ;;
          let* found := path_exists tmp_file in
          if negb found then
            log (LogMsg ERROR "FFmpeg failed to create %s") ;;
            keep
          else
            let* new_size := stat_size tmp_file in
            (if max_bytes <? new_size then
               log (LogMsg WARNING "Re-encoded file still too large (%s). Trying CRF fallback.") ;;
               path_unlink tmp_file true ;;
               crf_ladder w file_path tmp_file ffmpeg_path max_bytes cancel_event CRF_RUNGS
             else ret tt) ;;
            let* found := path_exists tmp_file in
            (if found then
               path_replace tmp_file file_path ;;
               let* _ := stat_size file_path in
               log (LogMsg INFO "Re-encoded %s -> %s.")
             else
               log (LogMsg WARNING "Falling back to original oversize part %s.")) ;;
            keep
      end.

(** [for index, file_path in enumerate(files_list, start=1)]. *)
Fixpoint reencode_loop (w : world) (max_gb : float) (max_bytes : Z)
    (ffmpeg_path : path) (cancel_event : option Event)
    (progress_callback : option ProgressCallback) (total index : Z)
    (files : list path) (final_files : list path) : M (list path) :=
  match files with
  | [] => ret final_files
  | file_path :: rest =>
      let* final_files :=
        reencode_part w max_gb max_bytes ffmpeg_path cancel_event
          progress_callback total index file_path final_files in
      reencode_loop w max_gb max_bytes ffmpeg_path cancel_event
        progress_callback total (index + 1) rest final_files
  end.

Definition reencode_oversize (w : world) (files : list path) (max_gb : float)
    (ffmpeg_path : path) (cancel_event : option Event)
    (progress_callback : option ProgressCallback) : M (list path) :=
  let* max_bytes := lift (gb_to_bytes max_gb) in
  let total := Z.of_nat (length files) in
  reencode_loop w max_gb max_bytes ffmpeg_path cancel_event progress_callback
    total 1 files [].

(** [extract_audio]: the audio track is encoded to a temporary file beside
    the output, which then replaces the output.  [mkdir] stands for
    [ensure_directory] on the parent of the output: directories are no part
    of the files modelled here, so that it can only return or raise. *)
Definition audio_args (ffmpeg_path input_path tmp_output : path)
    (audio_bitrate : string) : list string :=
  [ffmpeg_path; "-y"; "-i"; input_path; "-vn"; "-acodec"; "libmp3lame";
   "-b:a"; audio_bitrate; "-f"; "mp3"; tmp_output]%string.

Definition extract_audio (mkdir : path -> result unit) (w : world)
    (input_path output_path ffmpeg_path : path) (audio_bitrate : string)
    (cancel_event : option Event) : M path :=
  _check_cancel cancel_event ;;
  lift (mkdir (path_parent output_path)) ;;
  let* tmp_output := lift (with_suffix output_path ".tmp.mp3") in
  path_unlink tmp_output true ;;
  let cmd := audio_args ffmpeg_path input_path tmp_output audio_bitrate in
  let* _ := run_command w cmd false cancel_event INFO None in
  let* found := path_exists tmp_output in
  if negb found then raise (RuntimeError "音声ファイルの生成に失敗しました。")
  else
    path_replace tmp_output output_path ;;
    log (LogMsg INFO "Extracted audio to %s") ;;
    ret output_path.

(* ===================================================================== *)
(** * core/ffmpeg_locator.py *)
(* ===================================================================== *)

(** What the locator reads from the interpreter and the operating system:
    [sys._MEIPASS] when the attribute exists, whether [sys.frozen] is set,
    the resolved directory of [sys.executable], the resolved directory two
    levels above the module, the working directory, [Path.exists],
    [Path.resolve], [shutil.which], the joining of a directory and a name by
    [/], and [Path.parent]. *)
Record locator_env : Type := LocatorEnv {
  le_meipass : option path;
  le_frozen : bool;
  le_executable_dir : path;
  le_module_root : path;
  le_cwd : path;
  le_exists : path -> bool;
  le_resolve : path -> path;
  le_which : string -> option string;
  le_join : path -> string -> path;
  le_parent : path -> path;
}.

(** The directories [_candidate_directories] yields, in order. *)
Definition _candidate_directories (env : locator_env) : list path :=
  match le_meipass env with Some d => [d] | None => [] end
  ++ [if le_frozen env then le_executable_dir env else le_module_root env]
  ++ [le_cwd env;
      le_join env (le_join env (le_join env (le_module_root env) "third_party") "ffmpeg")
        "win-x64"].

(** The loop of [get_ffmpeg_paths] over the directories still to try:
    [candidates] holds the pairs tried so far.  It ends with the pair
    returned, or with all the pairs tried. *)
Fixpoint search_candidates (env : locator_env) (dirs : list path)
    (candidates : list (path * path)) : (path * path) + list (path * path) :=
  match dirs with
  | [] => inr candidates
  | base_dir :: rest =>
      let ffmpeg_path := le_join env base_dir "ffmpeg.exe" in
      let ffprobe_path := le_join env base_dir "ffprobe.exe" in
      if le_exists env ffmpeg_path && le_exists env ffprobe_path then
        inl (le_resolve env ffmpeg_path, le_resolve env ffprobe_path)
      else search_candidates env rest (candidates ++ [(ffmpeg_path, ffprobe_path)])
  end.

(** The truth value of what [shutil.which] returns. *)
Definition found_on_path (r : option string) : bool :=
  match r with
  | Some s => negb (is_empty s)
  | None => false
  end.

(** The lines of the error message: one for the parent of each [ffmpeg.exe]
    tried, joined by newlines. *)
Definition search_details (env : locator_env) (candidates : list (path * path)) : string :=
  String.concat (String NEWLINE EmptyString)
    (List.map (fun c => "- " +:+ le_parent env (fst c)) candidates).

Definition NOT_LOCATED : string :=
  "ffmpeg.exe and ffprobe.exe could not be located. "
  +:+ "Ensure the binaries are bundled with the application or "
  +:+ "available on PATH. Searched:" +:+ String NEWLINE EmptyString.

Definition get_ffmpeg_paths (env : locator_env) : result (path * path) :=
  match search_candidates env (_candidate_directories env) [] with
  | inl found => Ok found
  | inr candidates =>
      let ffmpeg_from_path := le_which env "ffmpeg" in
      let ffprobe_from_path := le_which env "ffprobe" in
      if found_on_path ffmpeg_from_path && found_on_path ffprobe_from_path then
        Ok (le_resolve env (default EmptyString ffmpeg_from_path),
            le_resolve env (default EmptyString ffprobe_from_path))
      else
        Raise (FileNotFoundError (NOT_LOCATED +:+ search_details env candidates))
  end.

(** A directory that holds both binaries. *)
Definition bundled (env : locator_env) (base_dir : path) : bool :=
  le_exists env (le_join env base_dir "ffmpeg.exe")
  && le_exists env (le_join env base_dir "ffprobe.exe").

(** The pair of paths the loop tries in a directory. *)
Definition tried (env : locator_env) (base_dir : path) : path * path :=
  (le_join env base_dir "ffmpeg.exe", le_join env base_dir "ffprobe.exe").

(* ===================================================================== *)
(** * Runs seen through the files and the progress events *)
(* ===================================================================== *)

(** [run_spec fs pr m r fs' pr']: started on files [fs] with progress events
    [pr], whatever the log, the poll count and the process history, [m] ends
    with [r] on files [fs'] with progress events [pr']. *)
Definition run_spec {A : Type} (fs : fsys) (pr : list (Z * Z)) (m : M A)
    (r : result A) (fs' : fsys) (pr' : list (Z * Z)) : Prop :=
  forall st : state,
    st_fs st = fs -> st_progress st = pr ->
    exists st' : state, m st = (r, st') /\ st_fs st' = fs' /\ st_progress st' = pr'.

(** A rung of the ladder that fails on files [fs]: its encode runs to its
    end with status 0, and the file it leaves, if any, exceeds the limit. *)
Definition rung_fails (w : world) (file_path tmp_file ffmpeg_path : path)
    (max_bytes : Z) (fs : fsys) (crf : Z) : Prop :=
  p_returncode (w_popen w (crf_args ffmpeg_path file_path tmp_file crf) fs) = 0
  /\ forall f : file,
       p_file (w_popen w (crf_args ffmpeg_path file_path tmp_file crf) fs) = Some f ->
       max_bytes < f_size f.

(* ===================================================================== *)
(** * Every run, through the files and the progress events *)
(* ===================================================================== *)

(** [triple R m Q E]: started on files and progress events that satisfy [R],
    whatever the rest of the state, [m] ends on files and events that
    satisfy [Q a] when it returns [a] and [E e] when it raises [e]. *)
Definition triple {A : Type} (R : fsys -> list (Z * Z) -> Prop) (m : M A)
    (Q : A -> fsys -> list (Z * Z) -> Prop)
    (E : exn -> fsys -> list (Z * Z) -> Prop) : Prop :=
  forall st : state,
    R (st_fs st) (st_progress st) ->
    match m st with
    | (Ok a, st') => Q a (st_fs st') (st_progress st')
    | (Raise e, st') => E e (st_fs st') (st_progress st')
    end.

(** The files once [x], if any, was written at [dst]. *)
Definition wrote (dst : path) (x : option file) (fs : fsys) : fsys :=
  match x with
  | Some f => <[dst := f]> fs
  | None => fs
  end.

(** A computation that leaves the files and the progress events alone. *)
Definition unchanged {A : Type} (m : M A) : Prop :=
  forall st : state,
    st_fs (snd (m st)) = st_fs st /\ st_progress (snd (m st)) = st_progress st.

(** The part at [file_path] is not lost: it holds the file [f] it held
    before, or a file within the limit. *)
Definition part_kept (max_bytes : Z) (file_path : path) (f : file) (fs : fsys) : Prop :=
  exists f' : file, fs !! file_path = Some f' /\ (f' = f \/ f_size f' <= max_bytes).

(** The progress events of the parts numbered [first], ..., [first + n - 1]
    out of [total]. *)
Definition progress_events (progress_callback : option ProgressCallback)
    (total first : Z) (n : nat) : list (Z * Z) :=
  match progress_callback with
  | Some QueueProgress => List.map (fun i => (i, total)) (seqZ first (Z.of_nat n))
  | None => []
  end.

(* ===================================================================== *)
(** * Runs seen through the files, the events and the polls *)
(* ===================================================================== *)

(** [run_at fs pr n m r fs' pr' n']: started on files [fs] with progress
    events [pr] after [n] polls of the cancellation event, whatever the log
    and the process history, [m] ends with [r] on files [fs'] with progress
    events [pr'] after [n'] polls. *)
Definition run_at {A : Type} (fs : fsys) (pr : list (Z * Z)) (n : nat) (m : M A)
    (r : result A) (fs' : fsys) (pr' : list (Z * Z)) (n' : nat) : Prop :=
  forall st : state,
    st_fs st = fs -> st_progress st = pr -> st_polls st = n ->
    exists st' : state,
      m st = (r, st') /\ st_fs st' = fs' /\ st_progress st' = pr' /\ st_polls st' = n'.

(* ===================================================================== *)
(** * The prober, seen from outside *)
(* ===================================================================== *)

(** The command line [probe] builds. *)
Definition probe_cmd (ffprobe_path input_path : path) : list string :=
  [ffprobe_path; "-v"; "error"; "-print_format"; "json";
   "-show_format"; "-show_streams"; input_path]%string.

(** The state once the prober has been run on [cmd] in captured mode: its
    standard output is logged at DEBUG and its standard error at ERROR, both
    decoded in the locale's encoding with replacement. *)
Definition probed (w : world) (cmd : list string) (st : state) : state :=
  State (st_fs st)
        (st_log st ++ [LogMsg DEBUG "Running command: %s"]
           ++ List.map (LogLine DEBUG)
                (splitlines (decode_replace (w_locale w) (c_stdout (w_run w cmd (st_fs st)))))
           ++ List.map (LogLine ERROR)
                (splitlines (decode_replace (w_locale w) (c_stderr (w_run w cmd (st_fs st))))))
        (st_progress st) (st_polls st) (st_procs st ++ [PRun cmd]).

(* ===================================================================== *)
(** * Example environments *)
(* ===================================================================== *)

Definition empty_state : state := State ∅ [] [] 0 [].

(** The prober prints the single byte [0xff]; the locale's encoding is
    ASCII. *)
Definition undecodable_world : world :=
  World (fun _ _ => Completed [Byte.xff] [] 0)
        (fun _ _ => Process [] 0 None (fun _ => None) (fun _ => true))
        ascii_codec
        (fun _ => None)
        (fun _ => None)
        (Ok ("ffmpeg", "ffprobe")%string).

(** A prober whose JSON carries numbers, and [N/A] where a value is unknown;
    [float] rejects every string it is given here. *)
Definition json_world (info : pyval) : world :=
  World (fun _ _ => Completed [] [] 0)
        (fun _ _ => Process [] 0 None (fun _ => None) (fun _ => true))
        ascii_codec
        (fun _ => Some info)
        (fun _ => None)
        (Ok ("ffmpeg", "ffprobe")%string).

Definition info_no_bitrate : pyval :=
  PDict [(lit "format", PDict [(lit "duration", PFloat (F64.of_Z 10));
                               (lit "size", PInt 1000000);
                               (lit "bit_rate", PStr (lit "N/A"))]);
         (lit "streams", PList [])].

Definition info_stream_duration : pyval :=
  PDict [(lit "format", PDict [(lit "duration", PStr (lit "N/A"));
                               (lit "size", PInt 1000000)]);
         (lit "streams",
          PList [PDict [(lit "codec_type", PStr (lit "data"))];
                 PDict [(lit "duration", PStr (lit "N/A"))];
                 PDict [(lit "duration", PFloat (F64.of_Z 12))];
                 PDict [(lit "duration", PFloat (F64.of_Z 13))]])].

(** An enforcement run on one or two parts of 2 GiB under a limit of 1 GB.
    The prober reports 600 seconds; every encode prints nothing, exits with
    [rc] and leaves [out] at its output operand. *)
Definition GiB : Z := 2 ^ 30.

Definition info_600s : pyval :=
  PDict [(lit "format", PDict [(lit "duration", PFloat (F64.of_Z 600))])].

Definition encoder_world (rc : Z) (out : option file) : world :=
  World (fun _ _ => Completed [] [] 0)
        (fun _ _ => Process [] rc out (fun _ => None) (fun _ => true))
        ascii_codec
        (fun _ => Some info_600s)
        (fun _ => None)
        (Ok ("ffmpeg", "ffprobe")%string).

Definition part0 : path := "out/v_part_00.mp4".
Definition part1 : path := "out/v_part_01.mp4".
Definition tmp0 : path := "out/v_part_00.tmp.mp4".

Definition original0 : file := File (2 * GiB) 1.
Definition original1 : file := File (2 * GiB) 2.
Definition encoded : file := File (3 * GiB / 2) 3.

Definition parts_state : state :=
  State (<[part0 := original0]> (<[part1 := original1]> ∅)) [] [] 0 [].

(** An encoder that prints three lines, [a], [b] and [c], and ignores the
    request to terminate for longer than the grace period. *)
Definition three_lines : bytes := [x61; x0a; x62; x0a; x63; x0a]%byte.

Definition chatty_world : world :=
  World (fun _ _ => Completed [] [] 0)
        (fun _ _ => Process three_lines 0 None (fun _ => None) (fun _ => false))
        ascii_codec
        (fun _ => None)
        (fun _ => None)
        (Ok ("ffmpeg", "ffprobe")%string).

(** Parts whose duration the prober cannot tell: it prints an empty JSON
    object, or a duration that is not a number. *)
Definition info_empty : pyval := PDict [].

Definition info_nan : pyval :=
  PDict [(lit "format", PDict [(lit "duration", PFloat S754_nan)])].

(** An encode of half a GiB, and what a killed encoder leaves behind. *)
Definition compact : file := File (GiB / 2) 4.
Definition truncated : file := File (GiB / 4) 5.

(** The prober reports 600 seconds; every encoder prints three lines, exits
    with 0 and leaves [encoded]; told to terminate, it is gone within the
    grace period and leaves [truncated]. *)
Definition slow_encoder_world : world :=
  World (fun _ _ => Completed [] [] 0)
        (fun _ _ => Process three_lines 0 (Some encoded) (fun _ => Some truncated)
                            (fun _ => true))
        ascii_codec
        (fun _ => Some info_600s)
        (fun _ => None)
        (Ok ("ffmpeg", "ffprobe")%string).

(** The parent of a path with slashes, for the examples. *)
Definition dirname (p : path) : path :=
  match split_last "/" p with
  | Some (b, _) => b
  | None => "."
  end.

(** A development checkout on Windows: no bundle, the working directory
    holds only [ffmpeg.exe], the vendored directory holds both binaries, and
    [PATH] has both as well. *)
Definition checkout_env : locator_env :=
  LocatorEnv None false "C:/app" "C:/src/VideoSplitter" "C:/work"
    (fun p => if decide (p = "C:/work/ffmpeg.exe"%string) then true
              else if decide (p = "C:/src/VideoSplitter/third_party/ffmpeg/win-x64/ffmpeg.exe"%string) then true
              else if decide (p = "C:/src/VideoSplitter/third_party/ffmpeg/win-x64/ffprobe.exe"%string) then true
              else false)
    (fun p => p)
    (fun name => Some ("C:/tools/" +:+ name +:+ ".exe"))
    (fun d name => d +:+ "/" +:+ name)
    dirname.

(** The same checkout with no binary anywhere. *)
Definition bare_env : locator_env :=
  LocatorEnv None false "C:/app" "C:/src/VideoSplitter" "C:/work"
    (fun _ => false) (fun p => p) (fun _ => None)
    (fun d name => d +:+ "/" +:+ name)
    dirname.

(** The format record gives a duration of zero; of the two streams the first
    gives none and the last gives minus one. *)
Definition info_negative_stream : pyval :=
  PDict [(lit "format", PDict [(lit "duration", PFloat F64.zero);
                               (lit "size", PInt 1000000);
                               (lit "bit_rate", PInt 64000)]);
         (lit "streams",
          PList [PDict [(lit "codec_type", PStr (lit "data"))];
                 PDict [(lit "duration", PFloat (SFopp F64.one))]])].

(* ===================================================================== *)
(** * Lemmas and theorems *)
(* ===================================================================== *)

(* --------------------------------------------------------------------- *)
(** ** Binary64: shifts, digits, rounding, comparison *)
(* --------------------------------------------------------------------- *)

Ltac pow2_side :=
  first [ lia | apply Z.pow_pos_nonneg; lia | apply Z.pow_nonzero; lia ].

Section ShiftRight.

Lemma shr_1_m (mrs : shr_record) :
  0 <= shr_m mrs -> shr_m (shr_1 mrs) = shr_m mrs / 2.
Proof.
  destruct mrs as [m r s]; simpl; intros Hm.
  destruct m as [|p|p]; [reflexivity| |lia].
  destruct p as [p|p|]; simpl shr_m.
  - rewrite Pos2Z.inj_xI. apply Z.div_unique with (r := 1); lia.
  - rewrite Pos2Z.inj_xO. apply Z.div_unique with (r := 0); lia.
  - reflexivity.
Qed.

Lemma div_pow2_nonneg (m k : Z) : 0 <= m -> 0 <= k -> 0 <= m / 2 ^ k.
Proof. intros Hm Hk. apply Z.div_pos; [lia|]. apply Z.pow_pos_nonneg; lia. Qed.

Lemma pow2_xO (p : positive) : 2 ^ Z.pos p~0 = 2 ^ Z.pos p * 2 ^ Z.pos p.
Proof. rewrite <- Z.pow_add_r by lia. f_equal. lia. Qed.

Lemma pow2_xI (p : positive) : 2 ^ Z.pos p~1 = 2 * (2 ^ Z.pos p * 2 ^ Z.pos p).
Proof.
  rewrite <- Z.pow_add_r, <- Z.pow_succ_r by lia. f_equal. lia.
Qed.

Lemma iter_shr_1_m (p : positive) : forall mrs,
  0 <= shr_m mrs ->
  shr_m (SpecFloat.iter_pos shr_1 p mrs) = shr_m mrs / 2 ^ Z.pos p.
Proof.
  induction p as [p IH|p IH|]; intros mrs Hm; simpl SpecFloat.iter_pos.
  - assert (H1 : 0 <= shr_m (shr_1 mrs)) by (rewrite shr_1_m by lia; apply Z.div_pos; lia).
    assert (H2 : 0 <= shr_m (SpecFloat.iter_pos shr_1 p (shr_1 mrs)))
      by (rewrite IH by lia; apply div_pow2_nonneg; lia).
    rewrite IH, IH, shr_1_m by assumption.
    rewrite !Z.div_div by pow2_side.
    rewrite pow2_xI; f_equal; ring.
  - assert (H2 : 0 <= shr_m (SpecFloat.iter_pos shr_1 p mrs))
      by (rewrite IH by lia; apply div_pow2_nonneg; lia).
    rewrite IH, IH by assumption.
    rewrite Z.div_div by pow2_side.
    rewrite pow2_xO. reflexivity.
  - rewrite shr_1_m by assumption. reflexivity.
Qed.

(** The mantissa after [shr]: an exact floor division. *)
Lemma shr_m_spec (mrs : shr_record) (e n : Z) :
  0 <= shr_m mrs ->
  shr_m (fst (shr mrs e n)) = shr_m mrs / 2 ^ Z.max n 0
  /\ snd (shr mrs e n) = e + Z.max n 0.
Proof.
  intros Hm. destruct n as [|p|p]; simpl.
  - rewrite Z.div_1_r. lia.
  - rewrite iter_shr_1_m by assumption. split; [reflexivity | lia].
  - rewrite Z.div_1_r. lia.
Qed.

Lemma shr_record_of_loc_m (m : Z) (l : location) :
  shr_m (shr_record_of_loc m l) = m.
Proof. destruct l as [|[]]; reflexivity. Qed.

Lemma round_nearest_even_ge (m : Z) (l : location) :
  m <= round_nearest_even m l.
Proof. destruct l as [|[]]; simpl; try destruct (Z.even m); lia. Qed.

End ShiftRight.

Section Digits.

Lemma digits2_pos_bounds (m : positive) :
  2 ^ (Z.pos (digits2_pos m) - 1) <= Z.pos m < 2 ^ Z.pos (digits2_pos m).
Proof.
  induction m as [m IH|m IH|]; simpl digits2_pos; [| |simpl; lia].
  all: rewrite Pos2Z.inj_succ;
    replace (Z.succ (Z.pos (digits2_pos m)) - 1) with (Z.pos (digits2_pos m)) by lia;
    rewrite Z.pow_succ_r by lia;
    assert (E : 2 ^ Z.pos (digits2_pos m) = 2 * 2 ^ (Z.pos (digits2_pos m) - 1))
      by (rewrite <- Z.pow_succ_r by lia; f_equal; lia);
    lia.
Qed.

Lemma digits2_pos_lower (m : positive) (k : Z) :
  0 <= k -> 2 ^ k <= Z.pos m -> k + 1 <= Z.pos (digits2_pos m).
Proof.
  intros Hk Hm. destruct (digits2_pos_bounds m) as [_ Hu].
  destruct (Z_lt_le_dec (Z.pos (digits2_pos m)) (k + 1)) as [Hlt|]; [|assumption].
  exfalso. assert (2 ^ Z.pos (digits2_pos m) <= 2 ^ k) by (apply Z.pow_le_mono_r; lia).
  lia.
Qed.

Lemma digits2_pos_mul (a b : positive) :
  Z.pos (digits2_pos a) + Z.pos (digits2_pos b) - 1 <= Z.pos (digits2_pos (a * b)).
Proof.
  destruct (digits2_pos_bounds a) as [Ha _], (digits2_pos_bounds b) as [Hb _].
  replace (Z.pos (digits2_pos a) + Z.pos (digits2_pos b) - 1)
    with ((Z.pos (digits2_pos a) - 1) + (Z.pos (digits2_pos b) - 1) + 1) by lia.
  apply digits2_pos_lower; [lia|].
  rewrite Z.pow_add_r, Pos2Z.inj_mul by lia.
  apply Z.mul_le_mono_nonneg; try assumption; apply Z.pow_nonneg; lia.
Qed.

End Digits.

Section RoundAux.

Variables prec emax : Z.

Lemma fexp_ge_emin (k : Z) : emin prec emax <= fexp prec emax k.
Proof. unfold fexp. lia. Qed.

(** Rounding a non-negative mantissa never yields NaN. *)
Lemma binary_round_aux_not_nan (s : bool) (m e : Z) (l : location) :
  0 <= m -> binary_round_aux prec emax s m e l <> S754_nan.
Proof.
  intros Hm. unfold binary_round_aux, shr_fexp.
  set (n1 := fexp prec emax (Zdigits2 m + e) - e).
  destruct (shr (shr_record_of_loc m l) e n1) as [mrs1 e1] eqn:E1.
  destruct (shr_m_spec (shr_record_of_loc m l) e n1) as [Hm1 _];
    [rewrite shr_record_of_loc_m; assumption|].
  rewrite E1, shr_record_of_loc_m in Hm1; simpl in Hm1.
  set (r := round_nearest_even (shr_m mrs1) (loc_of_shr_record mrs1)).
  assert (Hr : 0 <= r).
  { pose proof (round_nearest_even_ge (shr_m mrs1) (loc_of_shr_record mrs1)).
    assert (0 <= shr_m mrs1) by (rewrite Hm1; apply div_pow2_nonneg; lia).
    subst r; lia. }
  set (n2 := fexp prec emax (Zdigits2 r + e1) - e1).
  destruct (shr (shr_record_of_loc r loc_Exact) e1 n2) as [mrs2 e2] eqn:E2.
  destruct (shr_m_spec (shr_record_of_loc r loc_Exact) e1 n2) as [Hm2 _];
    [simpl; assumption|].
  rewrite E2 in Hm2; simpl in Hm2.
  assert (0 <= shr_m mrs2) by (rewrite Hm2; apply div_pow2_nonneg; lia).
  destruct (shr_m mrs2); [discriminate| |lia].
  destruct (_ <=? _); discriminate.
Qed.

Lemma div_pow2_pos (m k j : Z) :
  0 <= j <= k -> 2 ^ k <= m -> 0 < m / 2 ^ j.
Proof.
  intros Hj Hm. apply Z.div_str_pos. split; [pow2_side|].
  transitivity (2 ^ k); [apply Z.pow_le_mono_r; lia | assumption].
Qed.

(** A positive mantissa above the underflow threshold rounds to a non-zero
    finite number or to an infinity of the same sign. *)
Lemma binary_round_aux_sign (s : bool) (m : positive) (e : Z) (l : location) :
  0 < prec ->
  emin prec emax < Z.pos (digits2_pos m) + e ->
  (exists m' e', binary_round_aux prec emax s (Z.pos m) e l = S754_finite s m' e')
  \/ binary_round_aux prec emax s (Z.pos m) e l = S754_infinity s.
Proof.
  intros Hprec Hth. unfold binary_round_aux, shr_fexp.
  simpl Zdigits2. set (d := Z.pos (digits2_pos m)) in *.
  set (n1 := fexp prec emax (d + e) - e).
  destruct (shr (shr_record_of_loc (Z.pos m) l) e n1) as [mrs1 e1] eqn:E1.
  destruct (shr_m_spec (shr_record_of_loc (Z.pos m) l) e n1) as [Hm1 He1];
    [rewrite shr_record_of_loc_m; lia|].
  rewrite E1, shr_record_of_loc_m in Hm1; rewrite E1 in He1; simpl in Hm1, He1.
  assert (Hn1 : Z.max n1 0 <= d - 1) by (subst n1; unfold fexp; lia).
  assert (Hm1pos : 0 < shr_m mrs1).
  { rewrite Hm1. apply div_pow2_pos with (k := d - 1); [lia|].
    apply digits2_pos_bounds. }
  assert (He1min : emin prec emax <= e1).
  { rewrite He1. subst n1. pose proof (fexp_ge_emin (d + e)). lia. }
  set (r := round_nearest_even (shr_m mrs1) (loc_of_shr_record mrs1)).
  assert (Hr : 0 < r).
  { pose proof (round_nearest_even_ge (shr_m mrs1) (loc_of_shr_record mrs1)).
    subst r; lia. }
  clearbody r. destruct r as [|q|q]; [lia| |lia].
  simpl Zdigits2. set (d2 := Z.pos (digits2_pos q)).
  set (n2 := fexp prec emax (d2 + e1) - e1).
  destruct (shr (shr_record_of_loc (Z.pos q) loc_Exact) e1 n2) as [mrs2 e2] eqn:E2.
  destruct (shr_m_spec (shr_record_of_loc (Z.pos q) loc_Exact) e1 n2) as [Hm2 _];
    [simpl; lia|].
  rewrite E2 in Hm2; simpl in Hm2.
  assert (Hn2 : Z.max n2 0 <= d2 - 1) by (subst n2 d2; unfold fexp; lia).
  assert (Hm2pos : 0 < shr_m mrs2).
  { rewrite Hm2. apply div_pow2_pos with (k := d2 - 1); [lia|].
    apply digits2_pos_bounds. }
  destruct (shr_m mrs2) as [|m2|m2]; [lia| |lia].
  destruct (_ <=? _); [left; eauto | right; reflexivity].
Qed.

End RoundAux.

Section Compare.

Lemma SFcompare_antisym (x y : spec_float) :
  SFcompare y x = option_map CompOpp (SFcompare x y).
Proof.
  destruct x as [sx|sx| |sx mx ex], y as [sy|sy| |sy my ey]; simpl;
    try destruct sx; try destruct sy; try reflexivity.
  all: rewrite (Z.compare_antisym ey ex);
    destruct (ey ?= ex); simpl; try reflexivity;
    pose proof (Pos.compare_cont_antisym mx my Eq) as H; simpl in H;
    rewrite <- H; destruct (Pos.compare_cont Eq mx my); reflexivity.
Qed.

Lemma SFcompare_not_nan (x y : spec_float) :
  x <> S754_nan -> y <> S754_nan -> exists c, SFcompare x y = Some c.
Proof.
  destruct x, y; simpl; intros Hx Hy; try congruence; eauto.
Qed.

Lemma gtb_leb_false (x y : float) : F64.gtb x y = true -> F64.leb x y = false.
Proof.
  unfold F64.gtb, F64.leb, SFltb, SFleb. rewrite (SFcompare_antisym x y).
  destruct (SFcompare x y) as [[]|]; simpl; congruence.
Qed.

Lemma not_ltb_leb (x y : float) :
  x <> S754_nan -> y <> S754_nan -> F64.ltb x y = false -> F64.leb y x = true.
Proof.
  intros Hx Hy. unfold F64.ltb, F64.leb, SFltb, SFleb.
  rewrite (SFcompare_antisym x y).
  destruct (SFcompare_not_nan x y Hx Hy) as [c ->].
  destruct c; simpl; congruence.
Qed.

Lemma ltb_leb (x y : float) : F64.ltb x y = true -> F64.leb x y = true.
Proof.
  unfold F64.ltb, F64.leb, SFltb, SFleb.
  destruct (SFcompare x y) as [[]|]; congruence.
Qed.

Lemma leb_refl (x : float) : x <> S754_nan -> F64.leb x x = true.
Proof.
  intros Hx. apply not_ltb_leb; try assumption.
  unfold F64.ltb, SFltb. pose proof (SFcompare_antisym x x) as E.
  destruct (SFcompare x x) as [[]|]; simpl in E; congruence.
Qed.

(** What [x > 0] says about the datum. *)
Lemma gtb_zero_inv (x : float) :
  F64.gtb x F64.zero = true ->
  x = S754_infinity false \/ exists m e, x = S754_finite false m e.
Proof.
  destruct x as [s|[]| |[] m e]; simpl; try discriminate; eauto.
Qed.

(** The builtin [max] never returns less than either argument, NaN apart. *)
Lemma py_max_float_ge_r (a b : float) :
  a <> S754_nan -> b <> S754_nan -> F64.leb b (py_max_float a b) = true.
Proof.
  intros Ha Hb. unfold py_max_float, F64.gtb.
  destruct (SFltb a b) eqn:E.
  - apply leb_refl; assumption.
  - apply not_ltb_leb; assumption.
Qed.

Lemma py_max_float_ge_l (a b : float) :
  a <> S754_nan -> F64.leb a (py_max_float a b) = true.
Proof.
  intros Ha. unfold py_max_float, F64.gtb.
  destruct (SFltb a b) eqn:E.
  - apply ltb_leb; assumption.
  - apply leb_refl; assumption.
Qed.

End Compare.

Section Arithmetic.

Lemma positive_datum_gtb (x : float) :
  positive_datum x -> F64.gtb x F64.zero = true.
Proof. intros [->|(m & e & ->)]; reflexivity. Qed.

Lemma positive_datum_not_nan (x : float) : positive_datum x -> x <> S754_nan.
Proof. intros [->|(m & e & ->)]; discriminate. Qed.

Lemma valid_finite_exponent (s : bool) (m : positive) (e : Z) :
  F64.valid (S754_finite s m e) = true ->
  emin F64.prec F64.emax < Z.pos (digits2_pos m) + e.
Proof.
  unfold F64.valid, valid_binary, bounded, canonical_mantissa.
  intros H. apply andb_prop in H as [H _]. apply Z.eqb_eq in H.
  pose proof (fexp_ge_emin F64.prec F64.emax (Z.pos (digits2_pos m) + e)).
  unfold fexp, F64.prec in *. lia.
Qed.

(** Multiplying a positive float by a finite constant of magnitude at
    least one cannot underflow to zero. *)
Lemma mul_positive (x : float) (mc : positive) (ec : Z) :
  F64.valid x = true ->
  F64.gtb x F64.zero = true ->
  1 <= Z.pos (digits2_pos mc) + ec ->
  positive_datum (F64.mul x (S754_finite false mc ec)).
Proof.
  intros Hv Hx Hc. destruct (gtb_zero_inv x Hx) as [->|(m & e & ->)].
  - left; reflexivity.
  - pose proof (valid_finite_exponent _ _ _ Hv) as Hm.
    pose proof (digits2_pos_mul m mc) as Hd.
    unfold F64.mul, SFmul. simpl xorb.
    assert (Hth : emin F64.prec F64.emax < Z.pos (digits2_pos (m * mc)) + (e + ec)) by lia.
    destruct (binary_round_aux_sign F64.prec F64.emax false (m * mc) (e + ec) loc_Exact
                ltac:(reflexivity) Hth) as [(m' & e' & ->)| ->].
    + right; eauto.
    + left; reflexivity.
Qed.

Lemma digits2_pos_iter_xO (d m : positive) :
  Z.pos (digits2_pos (Pos.iter xO m d)) = Z.pos (digits2_pos m) + Z.pos d.
Proof.
  induction d as [|d IH] using Pos.peano_ind.
  - simpl. lia.
  - rewrite Pos.iter_succ. simpl digits2_pos. lia.
Qed.

(** The float of a positive integer is a positive number or plus infinity. *)
Lemma of_Z_positive (z : Z) : 0 < z -> positive_datum (F64.of_Z z).
Proof.
  intros Hz. destruct z as [|m|m]; try lia.
  unfold F64.of_Z, binary_normalize, binary_round.
  destruct (shl_align m 0 _) as [mz ez] eqn:E.
  assert (Hd : emin F64.prec F64.emax < Z.pos (digits2_pos mz) + ez).
  { unfold shl_align in E.
    destruct (fexp F64.prec F64.emax (Z.pos (digits2_pos m) + 0) - 0) as [|d|d] eqn:Ed;
      inversion E; subst; clear E.
    - unfold emin, F64.prec, F64.emax; lia.
    - unfold emin, F64.prec, F64.emax; lia.
    - rewrite digits2_pos_iter_xO.
      pose proof (fexp_ge_emin F64.prec F64.emax (Z.pos (digits2_pos m) + 0)).
      unfold emin, F64.prec, F64.emax in *. lia. }
  destruct (binary_round_aux_sign F64.prec F64.emax false mz ez loc_Exact
              ltac:(reflexivity) Hd) as [(m' & e' & ->)| ->].
  - right; eauto.
  - left; reflexivity.
Qed.

Lemma py_float_of_int_positive (z : Z) (p : float) :
  0 < z -> py_float_of_int z = Ok p -> exists m e, p = S754_finite false m e.
Proof.
  intros Hz. unfold py_float_of_int.
  destruct (of_Z_positive z Hz) as [->|(m & e & ->)]; [discriminate|].
  intros [= <-]; eauto.
Qed.

(** Dividing a positive float by a non-zero finite float is never NaN. *)
Lemma div_not_nan (x : float) (s : bool) (m : positive) (e : Z) :
  positive_datum x -> F64.div x (S754_finite s m e) <> S754_nan.
Proof.
  intros [->|(mx & ex & ->)]; [discriminate|].
  unfold F64.div, SFdiv, SFdiv_core_binary.
  match goal with |- context [Z.div_eucl ?a ?b] =>
    pose proof (Z_div_mod a b ltac:(reflexivity)) as Hq;
    assert (Ha : 0 <= a);
    [|destruct (Z.div_eucl a b) as [q r]]
  end.
  { match goal with |- 0 <= match ?s with _ => _ end => destruct s eqn:Es end;
      try lia. rewrite Z.shiftl_mul_pow2 by lia.
    apply Z.mul_nonneg_nonneg; [lia|pow2_side]. }
  apply binary_round_aux_not_nan. nia.
Qed.

End Arithmetic.

(* --------------------------------------------------------------------- *)
(** ** Binary64: what rounding and division guarantee *)
(* --------------------------------------------------------------------- *)

Section Bounds.

Variables prec emax : Z.
Hypothesis prec_pos : 0 < prec.

Lemma digits2_pos_upper (m : positive) (k : Z) :
  Z.pos m < 2 ^ k -> 0 <= k -> Z.pos (digits2_pos m) <= k.
Proof.
  intros Hm Hk. destruct (digits2_pos_bounds m) as [Hl _].
  destruct (Z_le_gt_dec (Z.pos (digits2_pos m)) k) as [|Hgt]; [assumption|].
  exfalso.
  assert (2 ^ k <= 2 ^ (Z.pos (digits2_pos m) - 1)) by (apply Z.pow_le_mono_r; lia).
  lia.
Qed.

Lemma div_pow2_floor (m k : Z) :
  0 <= k -> m / 2 ^ k * 2 ^ k <= m < (m / 2 ^ k + 1) * 2 ^ k.
Proof.
  intros Hk. assert (Hp : 0 < 2 ^ k) by pow2_side.
  pose proof (Z.div_mod m (2 ^ k) ltac:(lia)) as E.
  pose proof (Z.mod_pos_bound m (2 ^ k) Hp). lia.
Qed.

(** What a finite result of rounding says: same sign, a mantissa of at
    most [prec] bits, an exponent within range and not below the one
    given, and a value above that is below the next multiple of the unit
    in the last place. *)
Lemma binary_round_aux_finite_inv (s s' : bool) (m e : Z) (l : location)
    (m' : positive) (e' : Z) :
  0 <= m ->
  binary_round_aux prec emax s m e l = S754_finite s' m' e' ->
  s' = s /\ e' <= emax - prec /\ Z.pos (digits2_pos m') <= prec /\ e <= e'
  /\ m < (Z.pos m' + 1) * 2 ^ (e' - e).
Proof.
  intros Hm. unfold binary_round_aux, shr_fexp.
  set (n1 := fexp prec emax (Zdigits2 m + e) - e).
  destruct (shr (shr_record_of_loc m l) e n1) as [mrs1 e1] eqn:E1.
  destruct (shr_m_spec (shr_record_of_loc m l) e n1) as [Hm1 He1];
    [rewrite shr_record_of_loc_m; assumption|].
  rewrite E1, shr_record_of_loc_m in Hm1; rewrite E1 in He1; simpl in Hm1, He1.
  set (r := round_nearest_even (shr_m mrs1) (loc_of_shr_record mrs1)).
  assert (Hr : shr_m mrs1 <= r) by apply round_nearest_even_ge.
  assert (Hm1' : 0 <= shr_m mrs1) by (rewrite Hm1; apply div_pow2_nonneg; lia).
  clearbody r.
  set (n2 := fexp prec emax (Zdigits2 r + e1) - e1).
  destruct (shr (shr_record_of_loc r loc_Exact) e1 n2) as [mrs2 e2] eqn:E2.
  destruct (shr_m_spec (shr_record_of_loc r loc_Exact) e1 n2) as [Hm2 He2];
    [simpl; lia|].
  rewrite E2 in Hm2, He2; simpl in Hm2, He2.
  destruct (shr_m mrs2) as [|m2|m2] eqn:Em2; [discriminate| |discriminate].
  destruct (Z.leb_spec e2 (emax - prec)) as [Hle|]; [|discriminate].
  intros [= <- <- <-].
  set (k1 := Z.max n1 0) in *. set (k2 := Z.max n2 0) in *.
  assert (Hk1 : 0 <= k1) by lia. assert (Hk2 : 0 <= k2) by lia.
  split; [reflexivity|]. split; [assumption|].
  assert (Hrpos : 0 < r).
  { destruct (Z_lt_le_dec 0 r) as [|Hr0]; [assumption|].
    assert (r = 0) by lia. subst r. rewrite Z.div_0_l in Hm2 by pow2_side.
    discriminate. }
  split; [|split; [lia|]].
  - destruct r as [|q|q]; try lia.
    apply digits2_pos_upper; [|lia].
    rewrite Hm2. apply Z.div_lt_upper_bound; [pow2_side|].
    destruct (digits2_pos_bounds q) as [_ Hq].
    rewrite <- Z.pow_add_r by lia.
    assert (Z.pos (digits2_pos q) <= k2 + prec).
    { subst k2 n2. simpl Zdigits2. unfold fexp. lia. }
    assert (2 ^ Z.pos (digits2_pos q) <= 2 ^ (k2 + prec))
      by (apply Z.pow_le_mono_r; lia).
    lia.
  - replace (e2 - e) with (k1 + k2) by lia.
    rewrite Z.pow_add_r by lia.
    pose proof (div_pow2_floor m k1 Hk1) as [_ B1].
    pose proof (div_pow2_floor r k2 Hk2) as [_ B2].
    rewrite <- Hm1 in B1. rewrite <- Hm2 in B2.
    assert (P1 : 0 < 2 ^ k1) by pow2_side.
    assert (P2 : 0 < 2 ^ k2) by pow2_side.
    assert (shr_m mrs1 + 1 <= (Z.pos m2 + 1) * 2 ^ k2) by lia.
    nia.
Qed.

(** A positive mantissa that rounds to zero is at or below the underflow
    threshold. *)
Lemma binary_round_aux_zero_inv (s s' : bool) (m : positive) (e : Z) (l : location) :
  binary_round_aux prec emax s (Z.pos m) e l = S754_zero s' ->
  Z.pos (digits2_pos m) + e <= emin prec emax.
Proof.
  intros H.
  destruct (Z_le_gt_dec (Z.pos (digits2_pos m) + e) (emin prec emax)) as [|Hgt];
    [assumption|exfalso].
  destruct (binary_round_aux_sign prec emax s m e l prec_pos ltac:(lia))
    as [(m' & e' & E)|E]; rewrite E in H; discriminate.
Qed.

(** The quotient and the exponent the division hands to the rounding. *)
Lemma SFdiv_core_binary_spec (m1 m2 : positive) (e1 e2 : Z)
    (q e' : Z) (l : location) :
  SFdiv_core_binary prec emax (Z.pos m1) e1 (Z.pos m2) e2 = (q, e', l) ->
  e' <= e1 - e2
  /\ e' <= fexp prec emax (Z.pos (digits2_pos m1) + e1 - (Z.pos (digits2_pos m2) + e2))
  /\ 0 <= q
  /\ q * Z.pos m2 <= Z.pos m1 * 2 ^ (e1 - e2 - e') < (q + 1) * Z.pos m2.
Proof.
  unfold SFdiv_core_binary. simpl Zdigits2.
  set (k := fexp prec emax _).
  set (e0 := Z.min k (e1 - e2)).
  set (s := e1 - e2 - e0).
  assert (Hs : 0 <= s) by (subst s e0; lia).
  set (m0 := match s with Z.pos _ => Z.shiftl (Z.pos m1) s | 0 => Z.pos m1 | Z.neg _ => 0 end).
  assert (Em0 : m0 = Z.pos m1 * 2 ^ s).
  { subst m0. destruct s as [|p|p] eqn:Es; [simpl; lia| |lia].
    rewrite Z.shiftl_mul_pow2 by lia. reflexivity. }
  pose proof (Z_div_mod m0 (Z.pos m2) ltac:(reflexivity)) as Hqr.
  destruct (Z.div_eucl m0 (Z.pos m2)) as [q0 r0].
  intros [= <- <- <-]. destruct Hqr as [Hqr Hr0].
  assert (0 <= m0) by (rewrite Em0; apply Z.mul_nonneg_nonneg; [lia|pow2_side]).
  split; [subst e0; lia|]. split; [subst e0; lia|].
  fold s. rewrite <- Em0. split; nia.
Qed.

End Bounds.

Section Dyadic.

Lemma dyadic_ltb_spec (m1 e1 m2 e2 c : Z) :
  c <= e1 -> c <= e2 ->
  dyadic_ltb m1 e1 m2 e2 = true <-> m1 * 2 ^ (e1 - c) < m2 * 2 ^ (e2 - c).
Proof.
  intros H1 H2. unfold dyadic_ltb. rewrite Z.ltb_lt.
  set (lo := Z.min e1 e2).
  replace (e1 - c) with ((e1 - lo) + (lo - c)) by lia.
  replace (e2 - c) with ((e2 - lo) + (lo - c)) by lia.
  rewrite !Z.pow_add_r by lia. rewrite !Z.mul_assoc.
  assert (0 < 2 ^ (lo - c)) by pow2_side.
  split; intros H0; nia.
Qed.

End Dyadic.

Section Division.

Lemma round_nearest_even_le (m : Z) (l : location) :
  round_nearest_even m l <= m + 1.
Proof. destruct l as [|[]]; simpl; try destruct (Z.even m); lia. Qed.

(** A finite quotient has at most 53 bits and an exponent of at most 971. *)
Lemma div_finite_bounded (x y : float) (s : bool) (m : positive) (e : Z) :
  F64.div x y = S754_finite s m e ->
  Z.pos (digits2_pos m) <= 53 /\ e <= 971.
Proof.
  unfold F64.div, SFdiv.
  destruct x as [sx|sx| |sx mx ex], y as [sy|sy| |sy my ey]; try discriminate.
  destruct (SFdiv_core_binary _ _ _ _ _ _) as [[q e'] l] eqn:E.
  apply SFdiv_core_binary_spec in E as (_ & _ & Hq & _).
  intros H.
  apply (binary_round_aux_finite_inv F64.prec F64.emax ltac:(reflexivity)) in H
    as (_ & He & Hd & _); [|assumption].
  unfold F64.prec, F64.emax in *. lia.
Qed.

(** The quotient of two positive finite floats, when finite: the dividend
    is below the divisor times the next float above the quotient. *)
Lemma div_finite_inv (mx my : positive) (ex ey : Z) (s : bool) (m : positive) (e : Z) :
  F64.div (S754_finite false mx ex) (S754_finite false my ey) = S754_finite s m e ->
  s = false
  /\ dyadic_ltb (Z.pos mx) ex (Z.pos my * (Z.pos m + 1)) (ey + e) = true.
Proof.
  unfold F64.div, SFdiv.
  destruct (SFdiv_core_binary _ _ _ _ _ _) as [[q e'] l] eqn:E.
  apply SFdiv_core_binary_spec in E as (He' & _ & Hq & _ & Hhi).
  intros H.
  apply (binary_round_aux_finite_inv F64.prec F64.emax ltac:(reflexivity)) in H
    as (Hs & _ & _ & Hee & Hq'); [|assumption].
  split; [assumption|].
  apply (dyadic_ltb_spec _ _ _ _ (ey + e')); [lia|lia|].
  replace (ex - (ey + e')) with (ex - ey - e') by lia.
  replace (ey + e - (ey + e')) with (e - e') by lia.
  assert (0 < 2 ^ (e - e')) by pow2_side.
  nia.
Qed.

(** A quotient of two positive finite floats that rounds to zero: the
    dividend is below the divisor. *)
Lemma div_zero_inv (mx my : positive) (ex ey : Z) (s : bool) :
  F64.div (S754_finite false mx ex) (S754_finite false my ey) = S754_zero s ->
  dyadic_ltb (Z.pos mx) ex (Z.pos my) ey = true.
Proof.
  unfold F64.div, SFdiv.
  destruct (SFdiv_core_binary _ _ _ _ _ _) as [[q e'] l] eqn:E.
  apply SFdiv_core_binary_spec in E as (He' & Hk & Hq & _ & Hhi).
  intros H.
  assert (Hneg : e' <= 0 -> dyadic_ltb (Z.pos mx) ex (Z.pos my) ey = true
                 \/ 2 ^ (- e') * Z.pos my <= Z.pos mx * 2 ^ (ex - ey - e')).
  { intros Hle.
    destruct (Z_lt_le_dec (Z.pos mx * 2 ^ (ex - ey - e')) (2 ^ (- e') * Z.pos my))
      as [Hlt|Hge]; [left|right; assumption].
    apply (dyadic_ltb_spec _ _ _ _ (ey + e')); [lia|lia|].
    replace (ex - (ey + e')) with (ex - ey - e') by lia.
    replace (ey - (ey + e')) with (- e') by lia. lia. }
  destruct q as [|qp|qp]; [| |lia].
  - (* the integer quotient is zero *)
    destruct (Z_le_gt_dec e' 0) as [Hle|Hgt].
    + destruct (Hneg Hle) as [?|Hge]; [assumption|exfalso].
      assert (0 < 2 ^ (- e')) by pow2_side. nia.
    + exfalso.
      destruct (digits2_pos_bounds mx) as [Hx _], (digits2_pos_bounds my) as [_ Hy].
      set (dx := Z.pos (digits2_pos mx)) in *. set (dy := Z.pos (digits2_pos my)) in *.
      assert (Hs : dy - dx + 53 <= ex - ey - e')
        by (unfold fexp, emin, F64.prec, F64.emax in Hk; lia).
      assert (2 ^ dy <= 2 ^ (dx - 1 + (ex - ey - e'))) by (apply Z.pow_le_mono_r; lia).
      rewrite Z.pow_add_r in * by lia.
      assert (0 < 2 ^ (ex - ey - e')) by pow2_side.
      nia.
  - (* the integer quotient is below the underflow threshold *)
    apply (binary_round_aux_zero_inv F64.prec F64.emax ltac:(reflexivity)) in H.
    destruct (digits2_pos_bounds qp) as [_ Hqp].
    set (dq := Z.pos (digits2_pos qp)) in *.
    assert (Hle : e' <= 0) by (unfold emin, F64.prec, F64.emax in H; lia).
    destruct (Hneg Hle) as [?|Hge]; [assumption|exfalso].
    assert (2 ^ dq <= 2 ^ (- e'))
      by (apply Z.pow_le_mono_r; unfold emin, F64.prec, F64.emax in H; lia).
    nia.
Qed.

End Division.

Section Floor.

Lemma one_eq : F64.one = S754_finite false 4503599627370496 (-52).
Proof. reflexivity. Qed.

Lemma binary_round_aux_infinity_sign (s s' : bool) (m e : Z) (l : location) :
  binary_round_aux F64.prec F64.emax s m e l = S754_infinity s' -> s' = s.
Proof.
  unfold binary_round_aux.
  destruct (shr_fexp _ _ _ _ _) as [mrs1 e1].
  destruct (shr_fexp _ _ _ _ _) as [mrs2 e2].
  destruct (shr_m mrs2); try discriminate.
  destruct (_ <=? _); [discriminate|]. intros [= <-]. reflexivity.
Qed.

(** A quotient of two positive finite floats that is below [1.0]: the
    dividend is below the divisor. *)
Lemma div_below_one (mx my : positive) (ex ey : Z) :
  F64.gtb F64.one (F64.div (S754_finite false mx ex) (S754_finite false my ey)) = true ->
  dyadic_ltb (Z.pos mx) ex (Z.pos my) ey = true.
Proof.
  destruct (F64.div _ _) as [s|s| |s m e] eqn:E; unfold F64.gtb, SFltb.
  - intros _. exact (div_zero_inv _ _ _ _ _ E).
  - unfold F64.div, SFdiv in E.
    destruct (SFdiv_core_binary _ _ _ _ _ _) as [[q e'] l].
    apply binary_round_aux_infinity_sign in E. subst s. discriminate.
  - discriminate.
  - destruct (div_finite_bounded _ _ _ _ _ E) as [Hd _].
    destruct (div_finite_inv _ _ _ _ _ _ _ E) as [-> Hlt].
    rewrite one_eq. cbv beta iota delta [SFcompare].
    destruct (digits2_pos_bounds m) as [_ Hm].
    assert (Hm53 : Z.pos m < 2 ^ 53).
    { assert (2 ^ Z.pos (digits2_pos m) <= 2 ^ 53) by (apply Z.pow_le_mono_r; lia). lia. }
    intros Hc.
    assert (He : e <= -52 /\ Z.pos m + 1 <= 2 ^ (- e)).
    { revert Hc. destruct (Z.compare_spec e (-52)) as [->|Hlt'|Hgt]; intros Hc.
      - split; [lia|]. change (2 ^ (- -52)) with 4503599627370496.
        revert Hc. rewrite Pos.compare_cont_spec. unfold Pos.switch_Eq.
        rewrite Pos2Z.inj_compare.
        destruct (Z.compare_spec (Z.pos m) 4503599627370496) as [|Hlt'|];
          intros Hc; [discriminate Hc|lia|discriminate Hc].
      - split; [lia|].
        assert (2 ^ 53 <= 2 ^ (- e)) by (apply Z.pow_le_mono_r; lia). lia.
      - discriminate Hc. }
    destruct He as [He Hm1].
    set (c := Z.min ex (ey + e)).
    apply (dyadic_ltb_spec _ _ _ _ c) in Hlt; [|lia|lia].
    apply (dyadic_ltb_spec _ _ _ _ c); [lia|lia|].
    replace (ey - c) with (- e + (ey + e - c)) by lia.
    rewrite Z.pow_add_r by lia.
    assert (0 < 2 ^ (ey + e - c)) by pow2_side.
    nia.
Qed.

End Floor.

Section Progress.

Variables prec emax : Z.
Hypothesis prec_pos : 0 < prec.
Hypothesis emin_le : emin prec emax <= emax - prec.

(** Rounding stays finite when the mantissa, cut to the target exponent
    and rounded up, still fits below [2^emax]. *)
Lemma binary_round_aux_finite (s : bool) (m : positive) (e : Z) (l : location) :
  emin prec emax < Z.pos (digits2_pos m) + e ->
  e + Z.max (fexp prec emax (Z.pos (digits2_pos m) + e) - e) 0 <= emax - prec ->
  Z.pos m / 2 ^ Z.max (fexp prec emax (Z.pos (digits2_pos m) + e) - e) 0 + 1
    < 2 ^ (emax - (e + Z.max (fexp prec emax (Z.pos (digits2_pos m) + e) - e) 0)) ->
  exists m' e', binary_round_aux prec emax s (Z.pos m) e l = S754_finite s m' e'.
Proof.
  intros Hth. unfold binary_round_aux, shr_fexp.
  simpl Zdigits2. set (d := Z.pos (digits2_pos m)) in *.
  set (n1 := fexp prec emax (d + e) - e).
  intros He1max Hfit.
  destruct (shr (shr_record_of_loc (Z.pos m) l) e n1) as [mrs1 e1] eqn:E1.
  destruct (shr_m_spec (shr_record_of_loc (Z.pos m) l) e n1) as [Hm1 He1];
    [rewrite shr_record_of_loc_m; lia|].
  rewrite E1, shr_record_of_loc_m in Hm1; rewrite E1 in He1; simpl in Hm1, He1.
  assert (Hn1 : Z.max n1 0 <= d - 1) by (subst n1; unfold fexp; lia).
  assert (Hm1pos : 0 < shr_m mrs1).
  { rewrite Hm1. apply div_pow2_pos with (k := d - 1); [lia|].
    apply digits2_pos_bounds. }
  assert (He1min : emin prec emax <= e1).
  { rewrite He1. subst n1. pose proof (fexp_ge_emin prec emax (d + e)). lia. }
  rewrite <- Hm1, <- He1 in Hfit. rewrite <- He1 in He1max.
  set (r := round_nearest_even (shr_m mrs1) (loc_of_shr_record mrs1)).
  assert (Hr : 0 < r).
  { pose proof (round_nearest_even_ge (shr_m mrs1) (loc_of_shr_record mrs1)).
    subst r; lia. }
  assert (Hr' : r < 2 ^ (emax - e1)).
  { pose proof (round_nearest_even_le (shr_m mrs1) (loc_of_shr_record mrs1)).
    subst r; lia. }
  clearbody r. destruct r as [|q|q]; [lia| |lia].
  simpl Zdigits2. set (d2 := Z.pos (digits2_pos q)).
  assert (Hd2 : d2 <= emax - e1) by (apply digits2_pos_upper; [assumption|lia]).
  set (n2 := fexp prec emax (d2 + e1) - e1).
  destruct (shr (shr_record_of_loc (Z.pos q) loc_Exact) e1 n2) as [mrs2 e2] eqn:E2.
  destruct (shr_m_spec (shr_record_of_loc (Z.pos q) loc_Exact) e1 n2) as [Hm2 He2];
    [simpl; lia|].
  rewrite E2 in Hm2, He2; simpl in Hm2, He2.
  assert (Hn2 : Z.max n2 0 <= d2 - 1) by (subst n2 d2; unfold fexp; lia).
  assert (Hm2pos : 0 < shr_m mrs2).
  { rewrite Hm2. apply div_pow2_pos with (k := d2 - 1); [lia|].
    apply digits2_pos_bounds. }
  destruct (shr_m mrs2) as [|m2|m2]; [lia| |lia].
  destruct (Z.leb_spec e2 (emax - prec)) as [|Hgt]; [eauto|exfalso].
  subst n2. unfold fexp in He2. lia.
Qed.

End Progress.

(* --------------------------------------------------------------------- *)
(** ** Binary64: integers that fit a float *)
(* --------------------------------------------------------------------- *)

Section OfZ.

Lemma MAX_FINITE_lt : MAX_FINITE < 2 ^ 1024.
Proof. reflexivity. Qed.

Lemma of_Z_MAX_FINITE :
  F64.of_Z MAX_FINITE = S754_finite false 9007199254740991 971.
Proof. vm_compute. reflexivity. Qed.

(** [float(z)] does not overflow up to the largest finite binary64. *)
Lemma of_Z_finite (z : Z) :
  0 < z <= MAX_FINITE -> exists m e, F64.of_Z z = S754_finite false m e.
Proof.
  intros [Hz Hmax].
  destruct (Z.eq_dec z MAX_FINITE) as [->|Hne]; [rewrite of_Z_MAX_FINITE; eauto|].
  assert (Hlt : z < MAX_FINITE) by lia. clear Hmax Hne.
  destruct z as [|m|m]; try lia.
  pose proof MAX_FINITE_lt as HM.
  assert (HD : Z.pos (digits2_pos m) <= 1024)
    by (apply digits2_pos_upper; lia).
  destruct (digits2_pos_bounds m) as [Hlo Hhi].
  unfold F64.of_Z, binary_normalize, binary_round.
  set (D := Z.pos (digits2_pos m)) in *.
  destruct (shl_align m 0 _) as [mz ez] eqn:E.
  unfold shl_align in E.
  destruct (fexp F64.prec F64.emax (D + 0) - 0) as [|k|k] eqn:Ek;
    inversion E; subst mz ez; clear E.
  1, 2: assert (HD53 : 53 <= D) by (unfold fexp, emin, F64.prec, F64.emax in Ek; lia);
    apply (binary_round_aux_finite F64.prec F64.emax ltac:(reflexivity) ltac:(discriminate));
    fold D;
    [ unfold emin, F64.prec, F64.emax; lia
    | unfold fexp, emin, F64.prec, F64.emax; lia
    | replace (Z.max (fexp F64.prec F64.emax (D + 0) - 0) 0) with (D - 53)
        by (unfold fexp, emin, F64.prec, F64.emax; lia);
      replace (F64.emax - (0 + (D - 53))) with (1077 - D) by (unfold F64.emax; lia);
      destruct (Z.eq_dec D 1024) as [E1024|];
      [ rewrite E1024; change (1077 - 1024) with 53; change (1024 - 53) with 971;
        assert (Z.pos m / 2 ^ 971 < 2 ^ 53 - 1)
          by (apply Z.div_lt_upper_bound; [reflexivity|];
              unfold MAX_FINITE in Hlt; lia);
        lia
      | assert (Z.pos m / 2 ^ (D - 53) < 2 ^ 53)
          by (apply Z.div_lt_upper_bound; [pow2_side|];
              rewrite <- Z.pow_add_r by lia;
              replace (D - 53 + 53) with D by lia; assumption);
        assert (2 ^ 54 <= 2 ^ (1077 - D)) by (apply Z.pow_le_mono_r; lia);
        lia ] ].
  assert (HD53 : D <= 52 /\ Z.pos k <= 1074)
    by (unfold fexp, emin, F64.prec, F64.emax in Ek; lia).
  assert (Hf : fexp F64.prec F64.emax (D + 0) = - Z.pos k) by lia.
  pose proof (digits2_pos_iter_xO k m) as Hdig. fold D in Hdig.
  apply (binary_round_aux_finite F64.prec F64.emax ltac:(reflexivity) ltac:(discriminate));
    rewrite Hdig;
    replace (D + Z.pos k + fexp F64.prec F64.emax (D + 0)) with (D + 0) by lia;
    rewrite ?Hf.
  - unfold emin, F64.prec, F64.emax; lia.
  - unfold F64.prec, F64.emax; lia.
  - replace (Z.max (- Z.pos k - - Z.pos k) 0) with 0 by lia.
    rewrite Z.div_1_r.
    destruct (digits2_pos_bounds (Pos.iter xO m k)) as [_ Hup].
    rewrite Hdig in Hup.
    assert (2 ^ (D + Z.pos k) < 2 ^ (F64.emax - (- Z.pos k + 0)))
      by (apply Z.pow_lt_mono_r; unfold F64.emax; lia).
    lia.
Qed.

(** [math.ceil] of a finite binary64 never exceeds the largest finite
    binary64. *)
Lemma math_ceil_le_MAX_FINITE (s : bool) (m : positive) (e n : Z) :
  Z.pos (digits2_pos m) <= 53 -> e <= 971 ->
  math_ceil (S754_finite s m e) = Ok n -> n <= MAX_FINITE.
Proof.
  intros Hd He. destruct (digits2_pos_bounds m) as [_ Hm].
  assert (Hm53 : Z.pos m <= 2 ^ 53 - 1).
  { assert (2 ^ Z.pos (digits2_pos m) <= 2 ^ 53) by (apply Z.pow_le_mono_r; lia). lia. }
  assert (HM : 0 < MAX_FINITE) by reflexivity.
  unfold math_ceil, F64.floor_scaled.
  destruct s; intros [= <-].
  - assert (0 <= Z.shiftl (Z.pos m) e) by (apply Z.shiftl_nonneg; lia). lia.
  - destruct (Z_le_gt_dec 0 e) as [He0|He0].
    + rewrite Z.shiftl_mul_pow2 by assumption.
      assert (2 ^ e <= 2 ^ 971) by (apply Z.pow_le_mono_r; lia).
      assert (0 < 2 ^ e) by pow2_side.
      unfold MAX_FINITE. nia.
    + rewrite Z.shiftl_div_pow2 by lia.
      assert (Hp : 0 < 2 ^ (- e)) by pow2_side.
      assert (- Z.pos m <= Z.neg m / 2 ^ (- e)).
      { apply Z.div_le_lower_bound; [assumption|]. nia. }
      assert (2 ^ 53 - 1 <= MAX_FINITE) by (vm_compute; discriminate).
      lia.
Qed.

End OfZ.

(* --------------------------------------------------------------------- *)
(** ** Binary64: from floats to integers and back *)
(* --------------------------------------------------------------------- *)

Section IntOfFloat.

(** Rounding treats the sign as a label. *)
Lemma binary_round_aux_opp (m e : Z) (l : location) :
  binary_round_aux F64.prec F64.emax true m e l
  = SFopp (binary_round_aux F64.prec F64.emax false m e l).
Proof.
  unfold binary_round_aux.
  destruct (shr_fexp F64.prec F64.emax m e l) as [mrs1 e1].
  destruct (shr_fexp F64.prec F64.emax _ e1 loc_Exact) as [mrs2 e2].
  destruct (shr_m mrs2); [reflexivity| |reflexivity].
  destruct (e2 <=? F64.emax - F64.prec); reflexivity.
Qed.

Lemma of_Z_neg (m : positive) : F64.of_Z (Z.neg m) = SFopp (F64.of_Z (Z.pos m)).
Proof.
  unfold F64.of_Z, binary_normalize, binary_round.
  destruct (shl_align m 0 _) as [mz ez]. apply binary_round_aux_opp.
Qed.

(** [float(z)] raises for no integer between the two largest finite
    binary64. *)
Lemma py_float_of_int_in_range (z : Z) :
  - MAX_FINITE <= z <= MAX_FINITE -> exists f : float, py_float_of_int z = Ok f.
Proof.
  intros Hz. unfold py_float_of_int.
  destruct z as [|m|m].
  - eexists; reflexivity.
  - destruct (of_Z_finite (Z.pos m)) as (m' & e' & ->); [lia|]. eauto.
  - rewrite of_Z_neg.
    destruct (of_Z_finite (Z.pos m)) as (m' & e' & ->); [lia|]. cbn. eauto.
Qed.

(** A finite product has at most 53 bits and an exponent of at most 971. *)
Lemma mul_finite_bounded (x y : float) (s : bool) (m : positive) (e : Z) :
  F64.mul x y = S754_finite s m e ->
  Z.pos (digits2_pos m) <= 53 /\ e <= 971.
Proof.
  unfold F64.mul, SFmul.
  destruct x as [sx|sx| |sx mx ex], y as [sy|sy| |sy my ey]; try discriminate.
  intros H.
  apply (binary_round_aux_finite_inv F64.prec F64.emax ltac:(reflexivity)) in H
    as (_ & He & Hd & _); [|lia].
  unfold F64.prec, F64.emax in *. lia.
Qed.

(** The integer part of a float of 53 bits and exponent at most 971 lies
    between the two largest finite binary64. *)
Lemma floor_scaled_le_MAX_FINITE (m : positive) (e : Z) :
  Z.pos (digits2_pos m) <= 53 -> e <= 971 ->
  0 <= F64.floor_scaled (Z.pos m) e <= MAX_FINITE.
Proof.
  intros Hd He. destruct (digits2_pos_bounds m) as [_ Hm].
  assert (Hm53 : Z.pos m <= 2 ^ 53 - 1).
  { assert (2 ^ Z.pos (digits2_pos m) <= 2 ^ 53) by (apply Z.pow_le_mono_r; lia). lia. }
  unfold F64.floor_scaled. split; [apply Z.shiftl_nonneg; lia|].
  destruct (Z_le_gt_dec 0 e) as [He0|He0].
  - rewrite Z.shiftl_mul_pow2 by assumption.
    assert (2 ^ e <= 2 ^ 971) by (apply Z.pow_le_mono_r; lia).
    assert (0 < 2 ^ e) by pow2_side.
    unfold MAX_FINITE. nia.
  - rewrite Z.shiftl_div_pow2 by lia.
    assert (Hp : 0 < 2 ^ (- e)) by pow2_side.
    assert (Z.pos m / 2 ^ (- e) <= Z.pos m).
    { apply Z.div_le_upper_bound; [assumption|]. nia. }
    assert (2 ^ 53 - 1 <= MAX_FINITE) by (vm_compute; discriminate).
    lia.
Qed.

(** What [gb_to_bytes] returns converts back to a float. *)
Lemma gb_to_bytes_float (value : float) (b : Z) :
  gb_to_bytes value = Ok b -> exists f : float, py_float_of_int b = Ok f.
Proof.
  unfold gb_to_bytes. change (py_float_of_int GB_IN_BYTES)
    with (Ok (S754_finite false 4503599627370496 (-22)) : result float).
  cbn [rbind].
  destruct (F64.mul value _) as [s|s| |s m e] eqn:E; cbn [py_int_of_float];
    try discriminate.
  - intros [= <-]. eexists; reflexivity.
  - destruct (mul_finite_bounded _ _ _ _ _ E) as [Hd He].
    pose proof (floor_scaled_le_MAX_FINITE m e Hd He).
    destruct s; intros [= <-]; apply py_float_of_int_in_range; lia.
Qed.

(** A NaN duration: the bitrate computation fails on [int(nan)]. *)
Lemma calculate_bitrate_nan (max_gb : float) (b : Z) :
  gb_to_bytes max_gb = Ok b ->
  _calculate_bitrate S754_nan max_gb
  = Raise (ValueError "cannot convert float NaN to integer").
Proof.
  intros Hb. destruct (gb_to_bytes_float max_gb b Hb) as [bf Hbf].
  unfold _calculate_bitrate. cbn [F64.leb SFleb SFcompare].
  change (F64.leb S754_nan F64.zero) with false. cbv iota.
  rewrite Hb. cbn [rbind]. rewrite Hbf. cbn [rbind].
  change (py_float_of_int AUDIO_BITRATE)
    with (Ok (F64.of_Z AUDIO_BITRATE) : result float).
  cbn [rbind].
  assert (Hdiv : forall x : float, F64.div x S754_nan = S754_nan)
    by (intros [| | |]; reflexivity).
  rewrite Hdiv. reflexivity.
Qed.

End IntOfFloat.

(* --------------------------------------------------------------------- *)
(** ** Binary64: exact scaling by a power of two *)
(* --------------------------------------------------------------------- *)

Section ExactShift.

(** Shifting out a zero bit leaves the record exact. *)
Lemma shr_1_exact (a : Z) :
  0 < a ->
  shr_1 {| shr_m := 2 * a; shr_r := false; shr_s := false |}
  = {| shr_m := a; shr_r := false; shr_s := false |}.
Proof. destruct a as [|a|a]; intros H; try lia. reflexivity. Qed.

Lemma iter_shr_1_exact (p : positive) :
  forall q : Z, 0 < q ->
    SpecFloat.iter_pos shr_1 p
      {| shr_m := q * 2 ^ Z.pos p; shr_r := false; shr_s := false |}
    = {| shr_m := q; shr_r := false; shr_s := false |}.
Proof.
  induction p as [p IH|p IH|]; intros q Hq; cbn [SpecFloat.iter_pos].
  - rewrite pow2_xI.
    replace (q * (2 * (2 ^ Z.pos p * 2 ^ Z.pos p)))
      with (2 * (q * 2 ^ Z.pos p * 2 ^ Z.pos p)) by ring.
    assert (0 < 2 ^ Z.pos p) by pow2_side.
    rewrite shr_1_exact by nia.
    rewrite IH by nia. apply IH. exact Hq.
  - rewrite pow2_xO.
    replace (q * (2 ^ Z.pos p * 2 ^ Z.pos p))
      with (q * 2 ^ Z.pos p * 2 ^ Z.pos p) by ring.
    assert (0 < 2 ^ Z.pos p) by pow2_side.
    rewrite IH by nia. apply IH. exact Hq.
  - replace (q * 2 ^ 1) with (2 * q) by lia. apply shr_1_exact. exact Hq.
Qed.

(** Appending [k] zero bits adds [k] to the number of digits. *)
Lemma digits2_pos_shift (P q : positive) (k : Z) :
  0 <= k -> Z.pos P = Z.pos q * 2 ^ k ->
  Z.pos (digits2_pos P) = Z.pos (digits2_pos q) + k.
Proof.
  intros Hk HP. destruct (digits2_pos_bounds q) as [Hlo Hhi].
  assert (Hk0 : 0 < 2 ^ k) by pow2_side.
  apply Z.le_antisymm.
  - apply digits2_pos_upper; [|lia].
    rewrite HP, Z.pow_add_r by lia. nia.
  - replace (Z.pos (digits2_pos q) + k)
      with ((Z.pos (digits2_pos q) - 1 + k) + 1) by lia.
    apply digits2_pos_lower; [lia|].
    rewrite HP, Z.pow_add_r by lia. nia.
Qed.

Variables prec emax : Z.

(** Rounding a mantissa whose bits below the target exponent are all zero
    is exact. *)
Lemma binary_round_aux_exact (s : bool) (P q : positive) (e n : Z) :
  n = fexp prec emax (Z.pos (digits2_pos P) + e) - e ->
  Z.pos P = Z.pos q * 2 ^ Z.max n 0 ->
  binary_round_aux prec emax s (Z.pos P) e loc_Exact
  = if e + Z.max n 0 <=? emax - prec then S754_finite s q (e + Z.max n 0)
    else S754_infinity s.
Proof.
  intros Hn HP. unfold binary_round_aux, shr_fexp.
  cbn [Zdigits2 shr_record_of_loc]. rewrite <- Hn.
  assert (Hd : Z.pos (digits2_pos P) = Z.pos (digits2_pos q) + Z.max n 0)
    by (apply digits2_pos_shift; [lia|exact HP]).
  destruct n as [|p|p]; cbn [shr Z.max Z.compare] in *.
  - rewrite Z.mul_1_r in HP. injection HP as ->.
    cbn [shr_m shr_r shr_s loc_of_shr_record round_nearest_even Zdigits2 shr_record_of_loc].
    rewrite <- Hn. cbn [shr shr_m]. rewrite Z.add_0_r. reflexivity.
  - change (Z.max (Z.pos p) 0) with (Z.pos p) in *.
    rewrite HP, iter_shr_1_exact by lia.
    cbn [shr_m shr_r shr_s loc_of_shr_record round_nearest_even Zdigits2 shr_record_of_loc].
    replace (fexp prec emax (Z.pos (digits2_pos q) + (e + Z.pos p)) - (e + Z.pos p))
      with 0
      by (replace (Z.pos (digits2_pos q) + (e + Z.pos p))
            with (Z.pos (digits2_pos P) + e) by lia; lia).
    cbn [shr shr_m]. reflexivity.
  - change (Z.max (Z.neg p) 0) with 0 in *.
    rewrite Z.mul_1_r in HP. injection HP as ->.
    cbn [shr_m shr_r shr_s loc_of_shr_record round_nearest_even Zdigits2 shr_record_of_loc].
    rewrite <- Hn. cbn [shr shr_m]. rewrite Z.add_0_r. reflexivity.
Qed.

End ExactShift.

Section GbToBytes.

(** What validity says of a finite binary64. *)
Lemma valid_finite_inv (s : bool) (m : positive) (e : Z) :
  F64.valid (S754_finite s m e) = true ->
  Z.pos (digits2_pos m) <= 53 /\ -1074 <= e <= 971
  /\ (Z.pos (digits2_pos m) < 53 -> e = -1074).
Proof.
  unfold F64.valid, valid_binary, bounded, canonical_mantissa.
  intros H. apply andb_prop in H as [H1 H2].
  apply Z.eqb_eq in H1. apply Z.leb_le in H2.
  unfold fexp, emin, F64.prec, F64.emax in *. lia.
Qed.

(** Multiplying by [2^30] only moves the exponent: the product is exact,
    or it overflows. *)
Lemma mul_GB_exact (s : bool) (m : positive) (e : Z) :
  F64.valid (S754_finite s m e) = true ->
  if Z.pos (digits2_pos m) + e + 30 <=? 1024 then
    exists (q : positive) (e' : Z),
      F64.mul (S754_finite s m e) (S754_finite false 4503599627370496 (-22))
      = S754_finite s q e'
      /\ Z.shiftl (Z.pos q) e' = Z.shiftl (Z.pos m) (e + 30)
  else
    F64.mul (S754_finite s m e) (S754_finite false 4503599627370496 (-22))
    = S754_infinity s.
Proof.
  intros Hv. destruct (valid_finite_inv s m e Hv) as (Hd & He & Hsub).
  set (d := Z.pos (digits2_pos m)) in *.
  assert (Hd1 : 1 <= d) by (subst d; lia).
  unfold F64.mul, SFmul. rewrite xorb_false_r.
  assert (HP : Z.pos (m * 4503599627370496) = Z.pos m * 2 ^ 52) by reflexivity.
  assert (HdP : Z.pos (digits2_pos (m * 4503599627370496)) = d + 52)
    by (apply (digits2_pos_shift _ m 52); [lia|exact HP]).
  set (n := fexp F64.prec F64.emax
              (Z.pos (digits2_pos (m * 4503599627370496)) + (e + -22)) - (e + -22)).
  assert (Hn : n = Z.max (d - 1) (- 1052 - e))
    by (subst n; rewrite HdP; unfold fexp, emin, F64.prec, F64.emax; lia).
  assert (Hn0 : 0 <= n <= 52) by lia.
  assert (Hq : Z.pos (m * 4503599627370496)
               = Z.pos (Z.to_pos (Z.pos m * 2 ^ (52 - n))) * 2 ^ Z.max n 0).
  { assert (0 < 2 ^ (52 - n)) by pow2_side.
    rewrite Z2Pos.id by nia.
    rewrite HP, Z.max_l, <- Z.mul_assoc, <- Z.pow_add_r by lia.
    do 2 f_equal. lia. }
  rewrite (binary_round_aux_exact F64.prec F64.emax s _ _ (e + -22) n eq_refl Hq).
  rewrite Z.max_l by lia.
  assert (Hcmp : (e + -22 + n <=? F64.emax - F64.prec) = (d + e + 30 <=? 1024)).
  { unfold F64.emax, F64.prec.
    destruct (Z.leb_spec (e + -22 + n) (1024 - 53)), (Z.leb_spec (d + e + 30) 1024);
      try reflexivity; lia. }
  rewrite Hcmp. destruct (d + e + 30 <=? 1024); [|reflexivity].
  eexists _, _. split; [reflexivity|].
  assert (0 < 2 ^ (52 - n)) by pow2_side.
  rewrite Z2Pos.id by nia.
  rewrite <- Z.shiftl_mul_pow2 by lia.
  rewrite Z.shiftl_shiftl by lia. f_equal. lia.
Qed.

End GbToBytes.

(* --------------------------------------------------------------------- *)
(** ** The planner *)
(* --------------------------------------------------------------------- *)

Section Planner.

Lemma py_float_of_int_GB :
  py_float_of_int GB_IN_BYTES = Ok (S754_finite false 4503599627370496 (-22)).
Proof. reflexivity. Qed.

Lemma max_bytes_positive (max_gb : float) :
  F64.valid max_gb = true -> F64.gtb max_gb F64.zero = true ->
  positive_datum (F64.mul max_gb (F64.of_Z (2 ^ 30))).
Proof.
  intros Hv Hp.
  change (F64.of_Z (2 ^ 30)) with (S754_finite false 4503599627370496 (-22)).
  apply mul_positive; [assumption|assumption|vm_compute; discriminate].
Qed.

Lemma max_seconds_positive (max_min : float) :
  F64.valid max_min = true -> F64.gtb max_min F64.zero = true ->
  positive_datum (F64.mul max_min f60).
Proof.
  intros Hv Hp.
  change f60 with (S754_finite false 8444249301319680 (-47)).
  apply mul_positive; [assumption|assumption|vm_compute; discriminate].
Qed.

(** Past its four guards, [make_plan] is the formula of the specification. *)
Lemma make_plan_past_guards (d : float) (sz : Z) (mg mm : float) :
  F64.valid mg = true -> F64.valid mm = true ->
  F64.gtb d F64.zero = true -> 0 < sz ->
  F64.gtb mg F64.zero = true -> F64.gtb mm F64.zero = true ->
  make_plan d sz mg mm = spec_plan d sz mg mm.
Proof.
  intros Hvg Hvm Hd Hsz Hg Hm. unfold make_plan, spec_plan.
  rewrite (gtb_leb_false _ _ Hd), (gtb_leb_false _ _ Hg), (gtb_leb_false _ _ Hm).
  destruct (Z.leb_spec sz 0) as [?|_]; [lia|].
  rewrite py_float_of_int_GB. simpl rbind.
  change (S754_finite false 4503599627370496 (-22)) with (F64.of_Z (2 ^ 30)).
  rewrite (positive_datum_gtb _ (max_bytes_positive mg Hvg Hg)).
  rewrite (positive_datum_gtb _ (max_seconds_positive mm Hvm Hm)).
  destruct (py_float_of_int sz); reflexivity.
Qed.

Lemma spec_plan_segment_time (d : float) (sz : Z) (mg mm : float) (pl : plan) :
  F64.gtb d F64.zero = true ->
  spec_plan d sz mg mm = Ok pl ->
  exists p m e, py_float_of_int (parts pl) = Ok p /\ p = S754_finite false m e
    /\ segment_time pl = py_max_float (F64.div d p) F64.one
    /\ F64.div d p <> S754_nan.
Proof.
  intros Hd. unfold spec_plan.
  destruct (py_float_of_int sz) as [s|]; [simpl|discriminate].
  destruct (math_ceil _) as [sp|]; [simpl|discriminate].
  destruct (math_ceil _) as [tp|]; [simpl|discriminate].
  destruct (py_float_of_int (Z.max (Z.max sp tp) 1)) as [p|] eqn:Ep; [simpl|discriminate].
  intros [= <-]. simpl.
  assert (Hn : 0 < Z.max (Z.max sp tp) 1) by lia.
  destruct (py_float_of_int_positive _ _ Hn Ep) as (m & e & ->).
  exists (S754_finite false m e), m, e. repeat split; try assumption.
  apply div_not_nan, gtb_zero_inv; assumption.
Qed.

(** [math.ceil] of a quotient, when it exists, fits a float. *)
Lemma math_ceil_div_le (x y : float) (n : Z) :
  math_ceil (F64.div x y) = Ok n -> n <= MAX_FINITE.
Proof.
  destruct (F64.div x y) as [s|s| |s m e] eqn:E; try discriminate.
  - intros [= <-]. vm_compute. discriminate.
  - destruct (div_finite_bounded _ _ _ _ _ E).
    apply math_ceil_le_MAX_FINITE; assumption.
Qed.

(** The formula yields a plan as soon as its two ceilings exist. *)
Lemma spec_plan_returns (d : float) (sz : Z) (mg mm : float) (s : float) (sp tp : Z) :
  py_float_of_int sz = Ok s ->
  math_ceil (F64.div s (F64.mul mg (F64.of_Z (2 ^ 30)))) = Ok sp ->
  math_ceil (F64.div d (F64.mul mm f60)) = Ok tp ->
  exists p,
    py_float_of_int (Z.max (Z.max sp tp) 1) = Ok p
    /\ spec_plan d sz mg mm
       = Ok (Plan (Z.max (Z.max sp tp) 1) (py_max_float (F64.div d p) F64.one)).
Proof.
  intros Hs Hsp Htp. unfold spec_plan. rewrite Hs. cbn [rbind].
  rewrite Hsp. cbn [rbind]. rewrite Htp. cbn [rbind].
  pose proof (math_ceil_div_le _ _ _ Hsp). pose proof (math_ceil_div_le _ _ _ Htp).
  assert (HM : 1 <= MAX_FINITE) by (vm_compute; discriminate).
  destruct (of_Z_finite (Z.max (Z.max sp tp) 1) ltac:(lia)) as (m & e & E).
  exists (S754_finite false m e). unfold py_float_of_int. rewrite E.
  split; reflexivity.
Qed.

(** The formula yields a plan only if its two ceilings exist. *)
Lemma spec_plan_inv (d : float) (sz : Z) (mg mm : float) (pl : plan) :
  spec_plan d sz mg mm = Ok pl ->
  exists s sp tp,
    py_float_of_int sz = Ok s
    /\ math_ceil (F64.div s (F64.mul mg (F64.of_Z (2 ^ 30)))) = Ok sp
    /\ math_ceil (F64.div d (F64.mul mm f60)) = Ok tp
    /\ parts pl = Z.max (Z.max sp tp) 1.
Proof.
  unfold spec_plan.
  destruct (py_float_of_int sz) as [s|]; [cbn [rbind]|discriminate].
  intros H. exists s. revert H.
  destruct (math_ceil (F64.div s _)) as [sp|]; [cbn [rbind]|discriminate].
  intros H. exists sp. revert H.
  destruct (math_ceil (F64.div d _)) as [tp|]; [cbn [rbind]|discriminate].
  intros H. exists tp. revert H.
  destruct (py_float_of_int (Z.max (Z.max sp tp) 1)) as [p|]; [cbn [rbind]|discriminate].
  intros [= <-]. repeat split.
Qed.

(** A duration the formula accepts is finite. *)
Lemma spec_plan_duration_finite (d : float) (sz : Z) (mg mm : float) (pl : plan) :
  F64.valid mm = true -> F64.gtb mm F64.zero = true ->
  F64.gtb d F64.zero = true ->
  spec_plan d sz mg mm = Ok pl ->
  exists md ed, d = S754_finite false md ed.
Proof.
  intros Hvm Hm Hd. destruct (gtb_zero_inv d Hd) as [->|H]; [|intros _; exact H].
  unfold spec_plan.
  destruct (py_float_of_int sz) as [s|]; [simpl|discriminate].
  destruct (math_ceil _) as [sp|]; [simpl|discriminate].
  destruct (max_seconds_positive mm Hvm Hm) as [->|(m & e & ->)]; discriminate.
Qed.

(** Below the divisor is below the divisor times the float after [1.0]. *)
Lemma dyadic_ltb_above_one (md ed mp ep : Z) :
  0 <= mp ->
  dyadic_ltb md ed mp ep = true ->
  dyadic_ltb md ed (mp * (4503599627370496 + 1)) (ep + -52) = true.
Proof.
  intros Hmp H. set (c := Z.min ed (ep + -52)).
  apply (dyadic_ltb_spec _ _ _ _ c) in H; [|lia|lia].
  apply (dyadic_ltb_spec _ _ _ _ c); [lia|lia|].
  replace (ep - c) with (52 + (ep + -52 - c)) in H by lia.
  rewrite Z.pow_add_r in H by lia.
  change (2 ^ 52) with 4503599627370496 in H.
  assert (0 < 2 ^ (ep + -52 - c)) by pow2_side.
  nia.
Qed.

(** The segment length against the exact quotient [d / p]. *)
Lemma py_max_float_div_bounds (md mp : positive) (ed ep : Z) :
  let d := S754_finite false md ed in
  let p := S754_finite false mp ep in
  (F64.gtb F64.one (F64.div d p) = true ->
     py_max_float (F64.div d p) F64.one = F64.one
     /\ dyadic_ltb (Z.pos md) ed (Z.pos mp) ep = true)
  /\ (forall ms es, py_max_float (F64.div d p) F64.one = S754_finite false ms es ->
        dyadic_ltb (Z.pos md) ed (Z.pos mp * (Z.pos ms + 1)) (ep + es) = true).
Proof.
  intros d p. split.
  - intros H. split; [unfold py_max_float; rewrite H; reflexivity|].
    apply div_below_one; assumption.
  - intros ms es. unfold py_max_float.
    destruct (F64.gtb F64.one (F64.div d p)) eqn:E.
    + rewrite one_eq. intros [= <- <-].
      apply dyadic_ltb_above_one; [lia|]. apply div_below_one; assumption.
    + intros H. apply (div_finite_inv _ _ _ _ _ _ _ H).
Qed.

End Planner.

(* --------------------------------------------------------------------- *)
(** ** The planner: claims *)
(* --------------------------------------------------------------------- *)

(** C1, as stated, fails: a strictly positive input whose quotient
    overflows binary64 makes [math.ceil] raise [OverflowError], so no plan
    is returned.  Such are an infinite duration and a size limit of
    [2^-1074] GB, the smallest positive float. *)
Lemma make_plan_overflow_counterexample :
  F64.gtb (S754_infinity false) F64.zero = true
  /\ make_plan (S754_infinity false) 1 (F64.of_Z 1) (F64.of_Z 1) = Raise OverflowError
  /\ F64.valid (S754_finite false 1 (-1074)) = true
  /\ F64.gtb (S754_finite false 1 (-1074)) F64.zero = true
  /\ make_plan (F64.of_Z 1) 1 (S754_finite false 1 (-1074)) (F64.of_Z 1)
     = Raise OverflowError.
Proof. repeat split; vm_compute; reflexivity. Qed.

(** C1, amended.  For strictly positive inputs the planner passes its guards
    and is the formula [parts = max(ceil(size_bytes / (max_gb * 2^30)),
    ceil(duration_sec / (max_min * 60)), 1)], [segment_time =
    max(duration_sec / parts, 1.0)], evaluated with Python's operations and
    raising exactly where they raise.  It returns that plan if, and only if,
    [float(size_bytes)] and the two ceilings exist, that is, no quotient is
    infinite or NaN; every plan it returns has [segment_time >= 1.0].  The
    planner is a function of its four inputs. *)
Theorem make_plan_formula (d : float) (sz : Z) (mg mm : float) :
  F64.valid mg = true -> F64.valid mm = true ->
  F64.gtb d F64.zero = true -> 0 < sz ->
  F64.gtb mg F64.zero = true -> F64.gtb mm F64.zero = true ->
  make_plan d sz mg mm = spec_plan d sz mg mm
  /\ (forall s sp tp,
        py_float_of_int sz = Ok s ->
        math_ceil (F64.div s (F64.mul mg (F64.of_Z (2 ^ 30)))) = Ok sp ->
        math_ceil (F64.div d (F64.mul mm f60)) = Ok tp ->
        exists p,
          py_float_of_int (Z.max (Z.max sp tp) 1) = Ok p
          /\ make_plan d sz mg mm
             = Ok (Plan (Z.max (Z.max sp tp) 1)
                        (py_max_float (F64.div d p) F64.one)))
  /\ (forall pl,
        make_plan d sz mg mm = Ok pl ->
        (exists s sp tp,
           py_float_of_int sz = Ok s
           /\ math_ceil (F64.div s (F64.mul mg (F64.of_Z (2 ^ 30)))) = Ok sp
           /\ math_ceil (F64.div d (F64.mul mm f60)) = Ok tp
           /\ parts pl = Z.max (Z.max sp tp) 1)
        /\ F64.geb (segment_time pl) F64.one = true).
Proof.
  intros Hvg Hvm Hd Hsz Hg Hm.
  pose proof (make_plan_past_guards d sz mg mm Hvg Hvm Hd Hsz Hg Hm) as E.
  split; [exact E|]. split.
  - intros s sp tp Hs Hsp Htp. rewrite E.
    exact (spec_plan_returns d sz mg mm s sp tp Hs Hsp Htp).
  - intros pl Hpl. rewrite E in Hpl. split.
    + exact (spec_plan_inv d sz mg mm pl Hpl).
    + destruct (spec_plan_segment_time d sz mg mm pl Hd Hpl)
        as (p & m & e & _ & _ & -> & Hnan).
      apply py_max_float_ge_r; [assumption|discriminate].
Qed.

(** The specification's example: 3600 s, 4.5 GiB, limits 1.5 GB and 50 min
    give 3 parts of 1200 s. *)
Lemma make_plan_formula_witness :
  make_plan (F64.of_Z 3600) (9 * 2 ^ 29) (F64.div (F64.of_Z 3) (F64.of_Z 2)) (F64.of_Z 50)
  = Ok (Plan 3 (F64.of_Z 1200)).
Proof.
  destruct (make_plan_formula (F64.of_Z 3600) (9 * 2 ^ 29)
              (F64.div (F64.of_Z 3) (F64.of_Z 2)) (F64.of_Z 50)
              eq_refl eq_refl eq_refl eq_refl eq_refl eq_refl)
    as (_ & Hret & _).
  destruct (Hret (F64.of_Z (9 * 2 ^ 29)) 3 2 eq_refl eq_refl eq_refl)
    as (p & Hp & ->).
  injection Hp as <-. reflexivity.
Defined.

(** C7.  As soon as one of the four inputs is [<= 0] the planner raises
    [ValueError], whatever the other inputs are. *)
Theorem make_plan_invalid_input (d : float) (sz : Z) (mg mm : float) :
  F64.leb d F64.zero = true \/ sz <= 0
  \/ F64.leb mg F64.zero = true \/ F64.leb mm F64.zero = true ->
  exists msg, make_plan d sz mg mm = Raise (ValueError msg).
Proof.
  intros H. unfold make_plan.
  destruct (F64.leb d F64.zero) eqn:Ed; [eauto|].
  destruct (Z.leb_spec sz 0) as [Hs|Hs]; [eauto|].
  destruct (F64.leb mg F64.zero) eqn:Eg; [eauto|].
  destruct (F64.leb mm F64.zero) eqn:Em; [eauto|].
  destruct H as [H|[H|[H|H]]]; try discriminate. lia.
Qed.

Lemma make_plan_invalid_input_witness :
  exists msg,
    make_plan (F64.of_Z 3600) (9 * 2 ^ 29) (F64.of_Z 0) (F64.of_Z 50)
    = Raise (ValueError msg).
Proof.
  apply (make_plan_invalid_input (F64.of_Z 3600) (9 * 2 ^ 29) (F64.of_Z 0) (F64.of_Z 50)).
  right; right; left; reflexivity.
Defined.

(** C9, as stated, fails: 3603 s cut by a 10-minute limit gives 7 parts of
    [3603 / 7] s, a quotient rounded down, and 7 times it is below 3603 both
    in binary64 and exactly. *)
Lemma make_plan_coverage_counterexample :
  make_plan (F64.of_Z 3603) 1 (F64.of_Z 1) (F64.of_Z 10)
  = Ok (Plan 7 (S754_finite false 4527474737002203 (-43)))
  /\ covers (Plan 7 (S754_finite false 4527474737002203 (-43))) (F64.of_Z 3603)
     = Ok false
  /\ 7 * 4527474737002203 < 3603 * 2 ^ 43.
Proof. split; [|split]; vm_compute; reflexivity. Qed.

(** C9, amended.  A returned plan has a finite duration and a float [p] of
    its part count; [segment_time] is the binary64 quotient [duration_sec /
    p] or the floor [1.0], and at least both.  When the floor is taken the
    duration is below [p] exactly, so the segments cover it.  In every case
    the duration is, exactly, below [p] times the next multiple of the unit
    in the last place above [segment_time]: the segments fall short of the
    duration by less than that unit each. *)
Theorem make_plan_segment_bounds (d : float) (sz : Z) (mg mm : float) (pl : plan) :
  F64.valid mg = true -> F64.valid mm = true ->
  F64.gtb d F64.zero = true -> 0 < sz ->
  F64.gtb mg F64.zero = true -> F64.gtb mm F64.zero = true ->
  make_plan d sz mg mm = Ok pl ->
  exists md ed mp ep,
    d = S754_finite false md ed
    /\ py_float_of_int (parts pl) = Ok (S754_finite false mp ep)
    /\ (segment_time pl = F64.div d (S754_finite false mp ep)
        \/ segment_time pl = F64.one)
    /\ F64.geb (segment_time pl) (F64.div d (S754_finite false mp ep)) = true
    /\ F64.geb (segment_time pl) F64.one = true
    /\ (F64.gtb F64.one (F64.div d (S754_finite false mp ep)) = true ->
          segment_time pl = F64.one
          /\ dyadic_ltb (Z.pos md) ed (Z.pos mp) ep = true)
    /\ (forall ms es,
          segment_time pl = S754_finite false ms es ->
          dyadic_ltb (Z.pos md) ed (Z.pos mp * (Z.pos ms + 1)) (ep + es) = true).
Proof.
  intros Hvg Hvm Hd Hsz Hg Hm Hpl.
  rewrite (make_plan_past_guards d sz mg mm Hvg Hvm Hd Hsz Hg Hm) in Hpl.
  destruct (spec_plan_duration_finite d sz mg mm pl Hvm Hm Hd Hpl) as (md & ed & ->).
  destruct (spec_plan_segment_time _ sz mg mm pl Hd Hpl)
    as (p & mp & ep & Hp & -> & Hseg & Hnan).
  exists md, ed, mp, ep. rewrite Hseg.
  destruct (py_max_float_div_bounds md mp ed ep) as [Hfloor Hulp].
  repeat split; try assumption.
  - unfold py_max_float. destruct (F64.gtb F64.one _); [right|left]; reflexivity.
  - apply py_max_float_ge_l; assumption.
  - apply py_max_float_ge_r; [assumption|discriminate].
  - apply Hfloor; assumption.
  - apply Hfloor; assumption.
Qed.

Lemma make_plan_segment_bounds_witness :
  exists md ed mp ep,
    F64.of_Z 3603 = S754_finite false md ed
    /\ py_float_of_int 7 = Ok (S754_finite false mp ep)
    /\ dyadic_ltb (Z.pos md) ed (Z.pos mp * (4527474737002203 + 1)) (ep + -43) = true.
Proof.
  destruct (make_plan_segment_bounds (F64.of_Z 3603) 1 (F64.of_Z 1) (F64.of_Z 10)
              (Plan 7 (S754_finite false 4527474737002203 (-43)))
              eq_refl eq_refl eq_refl eq_refl eq_refl eq_refl eq_refl)
    as (md & ed & mp & ep & Hd & Hp & _ & _ & _ & _ & Hulp).
  exists md, ed, mp, ep. split; [exact Hd|]. split; [exact Hp|].
  exact (Hulp 4527474737002203%positive (-43) eq_refl).
Defined.

(* --------------------------------------------------------------------- *)
(** ** The process runner *)
(* --------------------------------------------------------------------- *)

Section StateLemmas.

Lemma state_eta (st : state) :
  State (st_fs st) (st_log st) (st_progress st) (st_polls st) (st_procs st) = st.
Proof. destruct st; reflexivity. Qed.

Lemma bind_ok {A B : Type} (m : M A) (k : A -> M B) (st st' : state) (a : A) :
  m st = (Ok a, st') -> bind m k st = k a st'.
Proof. unfold bind. intros ->. reflexivity. Qed.

Lemma bind_raise {A B : Type} (m : M A) (k : A -> M B) (st st' : state) (e : exn) :
  m st = (Raise e, st') -> bind m k st = (Raise e, st').
Proof. unfold bind. intros ->. reflexivity. Qed.

Lemma cancel_requested_unobserved (ce : option Event) (st : state) :
  unobserved ce (st_polls st) 1 ->
  cancel_requested ce st
  = (Ok false, State (st_fs st) (st_log st) (st_progress st)
                     (st_polls st + polls_made ce 1) (st_procs st)).
Proof.
  destruct ce as [[[t|]]|]; simpl; unfold is_set, ret; simpl; intros H.
  - destruct (Nat.leb_spec t (st_polls st)); [lia|].
    repeat f_equal; lia.
  - repeat f_equal; lia.
  - rewrite Nat.add_0_r. rewrite state_eta. reflexivity.
Qed.

Lemma unobserved_S (ce : option Event) (polls k : nat) :
  unobserved ce polls (S k) ->
  unobserved ce polls 1 /\ unobserved ce (polls + polls_made ce 1) k.
Proof.
  destruct ce as [[[t|]]|]; simpl; intros; split; try exact I; lia.
Qed.

Lemma unobserved_le (ce : option Event) (polls k j : nat) :
  (j <= k)%nat -> unobserved ce polls k -> unobserved ce polls j.
Proof. destruct ce as [[[t|]]|]; simpl; intros; try exact I; lia. Qed.

End StateLemmas.

Section Streaming.

Variables (p : process) (args : list string) (lvl : level).

(** No poll sees the signal: every line is logged and the loop ends. *)
Lemma stream_lines_unobserved (ce : option Event) (lines : list text) :
  forall (n : nat) (st : state),
    unobserved ce (st_polls st) (length lines) ->
    stream_lines p args ce lvl n lines st
    = (Ok tt, State (st_fs st) (st_log st ++ line_logs lvl lines) (st_progress st)
                    (st_polls st + polls_made ce (length lines)) (st_procs st)).
Proof.
  induction lines as [|line rest IH]; intros n st H.
  - simpl. unfold ret. rewrite app_nil_r.
    replace (st_polls st + polls_made ce 0)%nat with (st_polls st)
      by (destruct ce; simpl; lia).
    rewrite state_eta. reflexivity.
  - apply unobserved_S in H as [H1 H2].
    cbn [stream_lines]. unfold bind at 1. cbn [log].
    unfold bind at 1.
    rewrite cancel_requested_unobserved by exact H1. cbn [st_fs st_log st_progress st_polls st_procs].
    rewrite IH by exact H2. cbn [st_fs st_log st_progress st_polls st_procs].
    f_equal. f_equal.
    + rewrite <- app_assoc. reflexivity.
    + destruct ce; simpl; lia.
Qed.

(** The signal becomes visible at poll [t], made while lines are still
    coming: the loop stops there with the terminate, wait, kill
    escalation. *)
Lemma stream_lines_observed (ev : Event) (t : nat) (lines : list text) :
  set_at ev = Some t ->
  forall (n : nat) (st : state),
    (t - st_polls st < length lines)%nat ->
    stream_lines p args (Some ev) lvl n lines st
    = (Raise (OperationCancelled "Process was cancelled by user."),
       State (file_left args (p_file_killed p (n + S (t - st_polls st))) (st_fs st))
             (st_log st ++ line_logs lvl (take (S (t - st_polls st)) lines)
                ++ [LogMsg WARNING "Cancellation requested; terminating process."])
             (st_progress st)
             (st_polls st + S (t - st_polls st))
             (st_procs st ++ [PTerminate; PWaitTimeout GRACE_SECONDS]
                ++ (if p_exits_in_grace p (n + S (t - st_polls st)) then [] else [PKill])
                ++ [PExit])).
Proof.
  intros Ht. induction lines as [|line rest IH]; intros n st H.
  - simpl in H. lia.
  - cbn [stream_lines]. unfold bind at 1. cbn [log].
    unfold bind at 1. cbn [cancel_requested is_set]. rewrite Ht.
    cbn [st_fs st_log st_progress st_polls st_procs].
    destruct (Nat.leb_spec t (st_polls st)) as [Hle|Hgt].
    + replace (t - st_polls st)%nat with 0%nat by lia.
      replace (n + 1)%nat with (S n) by lia.
      cbn. destruct (p_exits_in_grace p (S n)); cbn;
        rewrite <- ?app_assoc; f_equal; f_equal; first [reflexivity | lia].
    + rewrite IH by (cbn [st_polls length] in *; lia).
      cbn [st_fs st_log st_progress st_polls st_procs].
      replace (t - S (st_polls st))%nat with (t - st_polls st - 1)%nat by lia.
      replace (S (t - st_polls st))%nat with (S (S (t - st_polls st - 1))) by lia.
      replace (S n + S (t - st_polls st - 1))%nat
        with (n + S (S (t - st_polls st - 1)))%nat by lia.
      cbn [take line_logs List.map].
      rewrite <- !app_assoc. cbn [app].
      f_equal; f_equal; first [reflexivity | lia].
Qed.

End Streaming.

(* --------------------------------------------------------------------- *)
(** ** The process runner: claims *)
(* --------------------------------------------------------------------- *)

Section RunCommand.

Variable w : world.

Lemma run_command_stream_unobserved (args : list string) (ce : option Event)
    (lvl : level) (enc : option codec) (st : state) :
  unobserved ce (st_polls st) (length (streamed_lines w args enc (st_fs st))) ->
  run_command w args false ce lvl enc st
  = ((if p_returncode (w_popen w args (st_fs st)) =? 0 then Ok None
      else Raise (CalledProcessError (p_returncode (w_popen w args (st_fs st))) args)),
     State (file_left args (p_file (w_popen w args (st_fs st))) (st_fs st))
           (st_log st ++ [LogMsg DEBUG "Running command: %s"]
              ++ line_logs lvl (streamed_lines w args enc (st_fs st)))
           (st_progress st)
           (st_polls st + polls_made ce (length (streamed_lines w args enc (st_fs st))))
           (st_procs st ++ [PSpawn args; PWait; PExit])).
Proof.
  intros H. unfold run_command.
  unfold bind at 1. cbn [log]. cbn match.
  unfold bind at 1. cbn [get_fs st_fs].
  unfold bind at 1. cbn [proc].
  unfold bind at 1.
  fold (streamed_lines w args enc (st_fs st)).
  rewrite stream_lines_unobserved by exact H.
  cbn -[file_left line_logs streamed_lines Z.eqb].
  destruct (p_returncode _ =? 0); cbn -[file_left line_logs streamed_lines];
    rewrite <- !app_assoc; reflexivity.
Qed.


Lemma run_command_stream_observed (args : list string) (ev : Event) (t : nat)
    (lvl : level) (enc : option codec) (st : state) :
  set_at ev = Some t ->
  (t - st_polls st < length (streamed_lines w args enc (st_fs st)))%nat ->
  run_command w args false (Some ev) lvl enc st
  = (Raise (OperationCancelled "Process was cancelled by user."),
     State (file_left args (p_file_killed (w_popen w args (st_fs st))
                              (S (t - st_polls st))) (st_fs st))
           (st_log st ++ [LogMsg DEBUG "Running command: %s"]
              ++ line_logs lvl (take (S (t - st_polls st))
                                  (streamed_lines w args enc (st_fs st)))
              ++ [LogMsg WARNING "Cancellation requested; terminating process."])
           (st_progress st)
           (st_polls st + S (t - st_polls st))
           (st_procs st ++ [PSpawn args; PTerminate; PWaitTimeout 5]
              ++ (if p_exits_in_grace (w_popen w args (st_fs st)) (S (t - st_polls st))
                  then [] else [PKill])
              ++ [PExit])).
Proof.
  intros Ht H. unfold run_command.
  unfold bind at 1. cbn [log]. cbn match.
  unfold bind at 1. cbn [get_fs st_fs].
  unfold bind at 1. cbn [proc].
  unfold bind at 1.
  fold (streamed_lines w args enc (st_fs st)).
  rewrite (stream_lines_observed _ _ _ ev t _ Ht) by exact H.
  cbn [st_fs st_log st_progress st_polls st_procs Nat.add].
  rewrite <- !app_assoc. reflexivity.
Qed.

End RunCommand.

(** C4.  In streaming mode, when a poll made after a line of output sees
    the signal set, the runner terminates the child, waits for it with the
    5-second timeout, kills it if it is not gone by then, and raises
    [OperationCancelled]: the exit status of the child plays no part. *)
Theorem run_command_cancel_escalation (w : world) (args : list string)
    (ev : Event) (t : nat) (lvl : level) (enc : option codec) (st : state) :
  set_at ev = Some t ->
  (t - st_polls st < length (streamed_lines w args enc (st_fs st)))%nat ->
  fst (run_command w args false (Some ev) lvl enc st)
  = Raise (OperationCancelled "Process was cancelled by user.")
  /\ st_procs (snd (run_command w args false (Some ev) lvl enc st))
     = st_procs st
       ++ [PSpawn args; PTerminate; PWaitTimeout 5]
       ++ (if p_exits_in_grace (w_popen w args (st_fs st)) (S (t - st_polls st))
           then [] else [PKill])
       ++ [PExit]
  /\ st_polls (snd (run_command w args false (Some ev) lvl enc st))
     = (st_polls st + S (t - st_polls st))%nat.
Proof.
  intros Ht H. rewrite (run_command_stream_observed w args ev t lvl enc st Ht H).
  repeat split.
Qed.

(** The signal becomes visible at the second poll: two lines are read, the
    child is terminated, outlives the grace period and is killed. *)
Lemma run_command_cancel_escalation_witness :
  fst (run_command chatty_world ["ffmpeg"]%string false (Some (MkEvent (Some 1%nat)))
         INFO None empty_state)
  = Raise (OperationCancelled "Process was cancelled by user.")
  /\ st_procs (snd (run_command chatty_world ["ffmpeg"]%string false
                      (Some (MkEvent (Some 1%nat))) INFO None empty_state))
     = st_procs empty_state
       ++ [PSpawn ["ffmpeg"]%string; PTerminate; PWaitTimeout 5]
       ++ (if p_exits_in_grace (w_popen chatty_world ["ffmpeg"]%string (st_fs empty_state))
                (S (1 - st_polls empty_state))
           then [] else [PKill])
       ++ [PExit]
  /\ st_polls (snd (run_command chatty_world ["ffmpeg"]%string false
                      (Some (MkEvent (Some 1%nat))) INFO None empty_state))
     = (st_polls empty_state + S (1 - st_polls empty_state))%nat.
Proof.
  apply (run_command_cancel_escalation chatty_world ["ffmpeg"]%string
           (MkEvent (Some 1%nat)) 1%nat INFO None empty_state).
  - reflexivity.
  - vm_compute. lia.
Defined.

(** C10.  In streaming mode the signal is polled once per line read and at
    no other time.  When it is set only after the last line was read, no
    poll sees it: the child is neither terminated nor killed, the runner
    waits for it and returns normally, or raises [CalledProcessError] for a
    non-zero exit status. *)
Theorem run_command_signal_after_last_line (w : world) (args : list string)
    (ev : Event) (t : nat) (lvl : level) (enc : option codec) (st : state) :
  set_at ev = Some t ->
  (st_polls st + length (streamed_lines w args enc (st_fs st)) <= t)%nat ->
  fst (run_command w args false (Some ev) lvl enc st)
  = (if p_returncode (w_popen w args (st_fs st)) =? 0 then Ok None
     else Raise (CalledProcessError (p_returncode (w_popen w args (st_fs st))) args))
  /\ st_procs (snd (run_command w args false (Some ev) lvl enc st))
     = st_procs st ++ [PSpawn args; PWait; PExit]
  /\ st_polls (snd (run_command w args false (Some ev) lvl enc st))
     = (st_polls st + length (streamed_lines w args enc (st_fs st)))%nat.
Proof.
  intros Ht H.
  rewrite (run_command_stream_unobserved w args (Some ev) lvl enc st)
    by (simpl; rewrite Ht; exact H).
  repeat split.
Qed.

(** The signal is set once the three lines have been read: the runner never
    sees it and returns normally. *)
Lemma run_command_signal_after_last_line_witness :
  fst (run_command chatty_world ["ffmpeg"]%string false (Some (MkEvent (Some 3%nat)))
         INFO None empty_state)
  = (if p_returncode (w_popen chatty_world ["ffmpeg"]%string (st_fs empty_state)) =? 0
     then Ok None
     else Raise (CalledProcessError
                   (p_returncode (w_popen chatty_world ["ffmpeg"]%string (st_fs empty_state)))
                   ["ffmpeg"]%string))
  /\ st_procs (snd (run_command chatty_world ["ffmpeg"]%string false
                      (Some (MkEvent (Some 3%nat))) INFO None empty_state))
     = st_procs empty_state ++ [PSpawn ["ffmpeg"]%string; PWait; PExit]
  /\ st_polls (snd (run_command chatty_world ["ffmpeg"]%string false
                      (Some (MkEvent (Some 3%nat))) INFO None empty_state))
     = (st_polls empty_state
        + length (streamed_lines chatty_world ["ffmpeg"]%string None (st_fs empty_state)))%nat.
Proof.
  apply (run_command_signal_after_last_line chatty_world ["ffmpeg"]%string
           (MkEvent (Some 3%nat)) 3%nat INFO None empty_state).
  - reflexivity.
  - vm_compute. lia.
Defined.

(* --------------------------------------------------------------------- *)
(** ** Decoding in the process runner *)
(* --------------------------------------------------------------------- *)

Section Captured.

Variable w : world.

Lemma for_each_log (lvl : level) (lines : list text) :
  forall st : state,
    for_each (fun line => log (LogLine lvl line)) lines st
    = (Ok tt, State (st_fs st) (st_log st ++ List.map (LogLine lvl) lines)
                    (st_progress st) (st_polls st) (st_procs st)).
Proof.
  induction lines as [|line rest IH]; intros st; cbn [for_each].
  - unfold ret. cbn. rewrite app_nil_r, state_eta. reflexivity.
  - unfold bind. cbn [log]. rewrite IH. cbn. rewrite <- app_assoc. reflexivity.
Qed.

(** With an explicit encoding, undecodable stdout is a [RuntimeError]. *)
Lemma run_command_captured_strict (args : list string) (ce : option Event)
    (lvl : level) (enc : codec) (st : state) :
  decode_strict enc (c_stdout (w_run w args (st_fs st))) = None ->
  fst (run_command w args true ce lvl (Some enc) st)
  = Raise (RuntimeError ("Failed to decode stdout from command: "
                         +:+ format_command args)).
Proof.
  intros H. unfold run_command.
  unfold bind at 1. cbn [log]. cbn match.
  unfold bind at 1. cbn [get_fs st_fs].
  unfold bind at 1. cbn [proc].
  unfold bind at 1. cbn [st_fs]. rewrite H. reflexivity.
Qed.

(** Without one, stdout is decoded in the locale's encoding with
    replacement, and that text is returned. *)
Lemma run_command_captured_replace (args : list string) (ce : option Event)
    (lvl : level) (st : state) :
  fst (run_command w args true ce lvl None st)
  = if c_returncode (w_run w args (st_fs st)) =? 0
    then Ok (Some (decode_replace (w_locale w) (c_stdout (w_run w args (st_fs st)))))
    else Raise (CalledProcessError (c_returncode (w_run w args (st_fs st))) args).
Proof.
  unfold run_command.
  unfold bind at 1. cbn [log]. cbn match.
  unfold bind at 1. cbn [get_fs st_fs].
  unfold bind at 1. cbn [proc].
  unfold bind at 1. cbn [ret st_fs].
  unfold bind at 1. rewrite for_each_log.
  unfold bind at 1. rewrite for_each_log.
  destruct (c_returncode _ =? 0); reflexivity.
Qed.

End Captured.

(** C5, as stated, fails: [probe] runs the prober in captured mode without
    naming an encoding; stdout that the locale's encoding cannot decode is
    then returned with replacement characters, and nothing is raised. *)
Lemma run_command_captured_counterexample :
  decode_strict (w_locale undecodable_world)
    (c_stdout (w_run undecodable_world ["ffprobe"; "in.mp4"]%string (st_fs empty_state))) = None
  /\ fst (run_command undecodable_world ["ffprobe"; "in.mp4"]%string true None DEBUG None
            empty_state)
     = Ok (Some [REPLACEMENT]).
Proof. split; reflexivity. Qed.

(** C5, amended.  In captured mode, stdout that cannot be decoded raises
    [RuntimeError] when the caller names an encoding, with the message
    [Failed to decode stdout from command: ] followed by the formatted
    command; when it names none, stdout is decoded in the locale's encoding
    with replacement characters and returned.  In streaming mode the output
    is always decoded with replacement characters, and the logged lines are
    cut from that text: all of them when no poll sees the cancellation
    signal, and those read up to the poll that sees it otherwise. *)
Theorem run_command_decoding (w : world) (args : list string) (ce : option Event)
    (lvl : level) (st : state) :
  (forall enc : codec,
     decode_strict enc (c_stdout (w_run w args (st_fs st))) = None ->
     fst (run_command w args true ce lvl (Some enc) st)
     = Raise (RuntimeError ("Failed to decode stdout from command: "
                            +:+ format_command args)))
  /\ (c_returncode (w_run w args (st_fs st)) = 0 ->
      fst (run_command w args true ce lvl None st)
      = Ok (Some (decode_replace (w_locale w) (c_stdout (w_run w args (st_fs st))))))
  /\ (forall enc : option codec,
        unobserved ce (st_polls st) (length (streamed_lines w args enc (st_fs st))) ->
        st_log (snd (run_command w args false ce lvl enc st))
        = st_log st ++ [LogMsg DEBUG "Running command: %s"]
          ++ line_logs lvl
               (readlines (decode_replace (default (w_locale w) enc)
                             (p_output (w_popen w args (st_fs st))))))
  /\ (forall (enc : option codec) (ev : Event) (t : nat),
        ce = Some ev ->
        set_at ev = Some t ->
        (t - st_polls st < length (streamed_lines w args enc (st_fs st)))%nat ->
        st_log (snd (run_command w args false ce lvl enc st))
        = st_log st ++ [LogMsg DEBUG "Running command: %s"]
          ++ line_logs lvl
               (take (S (t - st_polls st))
                  (readlines (decode_replace (default (w_locale w) enc)
                                (p_output (w_popen w args (st_fs st))))))
          ++ [LogMsg WARNING "Cancellation requested; terminating process."]).
Proof.
  split; [|split; [|split]].
  - intros enc H. apply run_command_captured_strict; assumption.
  - intros H. rewrite run_command_captured_replace, H. reflexivity.
  - intros enc H. rewrite (run_command_stream_unobserved w args ce lvl enc st H).
    reflexivity.
  - intros enc ev t -> Ht H.
    rewrite (run_command_stream_observed w args ev t lvl enc st Ht H).
    reflexivity.
Qed.

(** The message names the command as a shell would read it: an argument
    with a space is put between single quotes. *)
Example run_command_decoding_message :
  fst (run_command undecodable_world ["ffprobe"; "my clip.mp4"]%string true None DEBUG
         (Some ascii_codec) empty_state)
  = Raise (RuntimeError "Failed to decode stdout from command: ffprobe 'my clip.mp4'").
Proof. reflexivity. Qed.

(* --------------------------------------------------------------------- *)
(** ** The prober *)
(* --------------------------------------------------------------------- *)

Section Probe.

Variable w : world.

Lemma leb_zero_gtb (x : float) :
  F64.leb x F64.zero = true -> F64.gtb x F64.zero = false.
Proof.
  intros H. destruct (F64.gtb x F64.zero) eqn:E; [|reflexivity].
  apply gtb_leb_false in E. congruence.
Qed.

Lemma parse_float_non_numeric (v : pyval) :
  non_numeric w v -> _parse_float w v = Ok F64.zero.
Proof.
  destruct v; simpl; intros H; try contradiction; try reflexivity.
  unfold _parse_float. simpl. rewrite H. reflexivity.
Qed.

Lemma parse_int_non_numeric (v : pyval) :
  non_numeric w v -> _parse_int w v = Ok 0.
Proof.
  destruct v; simpl; intros H; try contradiction; try reflexivity.
  unfold _parse_int. simpl. rewrite H. reflexivity.
Qed.

(** The scan stops at the first stream whose duration is positive. *)
Lemma scan_streams_first_positive (pre : list pyval) (s : pyval) (post : list pyval)
    (ds : float) :
  Forall (fun x => exists dx, field_float w x "duration" = Ok dx
                              /\ F64.gtb dx F64.zero = false) pre ->
  field_float w s "duration" = Ok ds ->
  F64.gtb ds F64.zero = true ->
  forall d0, scan_streams w d0 (pre ++ s :: post) = Ok ds.
Proof.
  intros Hpre Hs Hpos. induction Hpre as [|x pre (dx & Hx & Hdx) _ IH]; intros d0.
  - cbn [app scan_streams]. unfold field_float in Hs.
    destruct (py_get s "duration" PNone) as [v|]; [|discriminate].
    cbn [rbind] in *. rewrite Hs. cbn [rbind]. rewrite Hpos. reflexivity.
  - cbn [app scan_streams]. unfold field_float in Hx.
    destruct (py_get x "duration" PNone) as [v|]; [|discriminate].
    cbn [rbind] in *. rewrite Hx. cbn [rbind]. rewrite Hdx. apply IH.
Qed.

End Probe.

(** C6.  Let the format record give duration [d0], size [sz] and bit-rate
    [br0].  If [br0 <= 0], [d0 > 0] and [sz > 0], the returned bit-rate is
    [int(sz * 8 / d0)] and the duration stays [d0]; if [d0 <= 0], the returned
    duration is that of the first stream whose duration is positive; a field
    that is missing or is no number reads as [0.0] or [0]. *)
Theorem probe_extract_fallbacks (w : world) (info fmt streams : pyval)
    (d0 : float) (sz br0 : Z) :
  py_get info "format" (PDict []) = Ok fmt ->
  py_get info "streams" (PList []) = Ok streams ->
  field_float w fmt "duration" = Ok d0 ->
  field_int w fmt "size" = Ok sz ->
  field_int w fmt "bit_rate" = Ok br0 ->
  (br0 <= 0 -> F64.gtb d0 F64.zero = true -> 0 < sz ->
   probe_extract w info
   = (let! n := py_float_of_int (sz * 8) in
      let! b := py_int_of_float (F64.div n d0) in
      Ok (Metadata d0 sz b fmt streams)))
  /\ (F64.leb d0 F64.zero = true ->
      forall (pre : list pyval) (s : pyval) (post : list pyval) (ds : float),
        streams = PList (pre ++ s :: post) ->
        Forall (fun x => exists dx, field_float w x "duration" = Ok dx
                                    /\ F64.gtb dx F64.zero = false) pre ->
        field_float w s "duration" = Ok ds ->
        F64.gtb ds F64.zero = true ->
        probe_extract w info = Ok (Metadata ds sz br0 fmt streams))
  /\ (forall (d : list (text * pyval)) (key : string),
        dict_lookup d (lit key) = None ->
        field_float w (PDict d) key = Ok F64.zero /\ field_int w (PDict d) key = Ok 0)
  /\ (forall v : pyval,
        non_numeric w v -> _parse_float w v = Ok F64.zero /\ _parse_int w v = Ok 0).
Proof.
  intros Hf Hs Hd Hsz Hbr.
  unfold field_float, field_int in Hd, Hsz, Hbr.
  destruct (py_get fmt "duration" PNone) as [vd|] eqn:Evd; [|discriminate].
  destruct (py_get fmt "size" PNone) as [vs|] eqn:Evs; [|discriminate].
  destruct (py_get fmt "bit_rate" PNone) as [vb|] eqn:Evb; [|discriminate].
  cbn [rbind] in Hd, Hsz, Hbr.
  assert (E : probe_extract w info
             = (let! bit_rate :=
                  (if (br0 <=? 0) && F64.gtb d0 F64.zero && (0 <? sz) then
                     let! n := py_float_of_int (sz * 8) in
                     py_int_of_float (F64.div n d0)
                   else Ok br0) in
                let! duration :=
                  (if F64.leb d0 F64.zero then
                     let! l := py_iter streams in scan_streams w d0 l
                   else Ok d0) in
                Ok (Metadata duration sz bit_rate fmt streams))).
  { unfold probe_extract. rewrite Hf, Hs. cbn [rbind].
    rewrite Evd. cbn [rbind]. rewrite Hd. cbn [rbind].
    rewrite Evs. cbn [rbind]. rewrite Hsz. cbn [rbind].
    rewrite Evb. cbn [rbind]. rewrite Hbr. cbn [rbind]. reflexivity. }
  split; [|split; [|split]].
  - intros Hb Hpos Hszpos. rewrite E.
    destruct (Z.leb_spec br0 0); [|lia]. destruct (Z.ltb_spec 0 sz); [|lia].
    rewrite Hpos. cbn [andb]. rewrite (gtb_leb_false _ _ Hpos).
    destruct (py_float_of_int (sz * 8)) as [n|]; [|reflexivity]. cbn [rbind].
    destruct (py_int_of_float _); reflexivity.
  - intros Hle pre s post ds -> Hpre Hsd Hpos. rewrite E.
    rewrite (leb_zero_gtb _ Hle), Hle. rewrite andb_false_r. cbn [andb rbind py_iter].
    rewrite (scan_streams_first_positive w pre s post ds Hpre Hsd Hpos). reflexivity.
  - intros d key Hk. unfold field_float, field_int, py_get. rewrite Hk. split; reflexivity.
  - intros v Hv. split; [apply parse_float_non_numeric|apply parse_int_non_numeric];
      assumption.
Qed.

Lemma probe_extract_fallbacks_witness :
  probe_extract (json_world info_no_bitrate) info_no_bitrate
  = Ok (Metadata (F64.of_Z 10) 1000000 800000
          (PDict [(lit "duration", PFloat (F64.of_Z 10));
                  (lit "size", PInt 1000000);
                  (lit "bit_rate", PStr (lit "N/A"))])
          (PList [])).
Proof.
  destruct (probe_extract_fallbacks (json_world info_no_bitrate) info_no_bitrate
              (PDict [(lit "duration", PFloat (F64.of_Z 10));
                      (lit "size", PInt 1000000);
                      (lit "bit_rate", PStr (lit "N/A"))])
              (PList []) (F64.of_Z 10) 1000000 0
              eq_refl eq_refl eq_refl eq_refl eq_refl) as [H _].
  rewrite H; [reflexivity | lia | reflexivity | lia].
Defined.

(** The second policy at work: the format gives no duration, the first two
    streams give none either, the third gives 12 seconds. *)
Example probe_extract_stream_duration :
  probe_extract (json_world info_stream_duration) info_stream_duration
  = Ok (Metadata (F64.of_Z 12) 1000000 0
          (PDict [(lit "duration", PStr (lit "N/A")); (lit "size", PInt 1000000)])
          (PList [PDict [(lit "codec_type", PStr (lit "data"))];
                  PDict [(lit "duration", PStr (lit "N/A"))];
                  PDict [(lit "duration", PFloat (F64.of_Z 12))];
                  PDict [(lit "duration", PFloat (F64.of_Z 13))]])).
Proof. vm_compute. reflexivity. Qed.

(* --------------------------------------------------------------------- *)
(** ** The enforcer on compliant parts *)
(* --------------------------------------------------------------------- *)

Section Compliant.

Variables (w : world) (max_gb : float) (max_bytes : Z) (ffmpeg_path : path)
          (ce : option Event) (total : Z).

Lemma check_cancel_unobserved (st : state) :
  unobserved ce (st_polls st) 1 ->
  _check_cancel ce st
  = (Ok tt, State (st_fs st) (st_log st) (st_progress st)
                  (st_polls st + polls_made ce 1) (st_procs st)).
Proof.
  intros H. unfold _check_cancel, bind.
  rewrite cancel_requested_unobserved by exact H. reflexivity.
Qed.

Lemma stat_size_found (p : path) (f : file) (st : state) :
  st_fs st !! p = Some f -> stat_size p st = (Ok (f_size f), st).
Proof. intros H. unfold stat_size, bind, get_fs. rewrite H. reflexivity. Qed.

(** A part within the limit is kept as it is and reported. *)
Lemma reencode_part_compliant (index : Z) (file_path : path) (f : file)
    (final_files : list path) (st : state) :
  unobserved ce (st_polls st) 1 ->
  st_fs st !! file_path = Some f ->
  f_size f <= max_bytes ->
  reencode_part w max_gb max_bytes ffmpeg_path ce (Some QueueProgress)
    total index file_path final_files st
  = (Ok (final_files ++ [file_path]),
     State (st_fs st)
           (st_log st ++ [LogMsg INFO "Part %s within limits (%s)."])
           (st_progress st ++ [(index, total)])
           (st_polls st + polls_made ce 1)
           (st_procs st)).
Proof.
  intros Hc Hf Hsz. unfold reencode_part.
  rewrite (bind_ok _ _ _ _ _ (check_cancel_unobserved st Hc)).
  erewrite bind_ok by (apply stat_size_found; exact Hf).
  destruct (Z.leb_spec (f_size f) max_bytes); [|lia].
  reflexivity.
Qed.

Lemma reencode_loop_compliant (files : list path) :
  forall (index : Z) (final_files : list path) (st : state),
    Forall (fun p => exists f, st_fs st !! p = Some f /\ f_size f <= max_bytes) files ->
    unobserved ce (st_polls st) (length files) ->
    reencode_loop w max_gb max_bytes ffmpeg_path ce (Some QueueProgress)
      total index files final_files st
    = (Ok (final_files ++ files),
       State (st_fs st)
             (st_log st ++ List.map (fun _ => LogMsg INFO "Part %s within limits (%s).") files)
             (st_progress st
                ++ List.map (fun i => (i, total)) (seqZ index (Z.of_nat (length files))))
             (st_polls st + polls_made ce (length files))
             (st_procs st)).
Proof.
  induction files as [|file_path rest IH]; intros index final_files st Hall Hc.
  - cbn. unfold ret. rewrite !app_nil_r.
    replace (st_polls st + polls_made ce 0)%nat with (st_polls st)
      by (destruct ce; simpl; lia).
    rewrite state_eta. reflexivity.
  - apply Forall_cons in Hall as [(f & Hf & Hsz) Hall].
    apply unobserved_S in Hc as [Hc1 Hc2].
    cbn [reencode_loop].
    rewrite (bind_ok _ _ _ _ _
               (reencode_part_compliant index file_path f final_files st Hc1 Hf Hsz)).
    rewrite IH by (cbn [st_fs st_polls]; assumption).
    cbn [st_fs st_log st_progress st_polls st_procs length].
    rewrite (seqZ_cons index) by lia.
    replace (Z.pred (Z.of_nat (S (length rest)))) with (Z.of_nat (length rest)) by lia.
    replace (Z.succ index) with (index + 1) by lia.
    cbn [List.map]. rewrite <- !app_assoc. cbn [app].
    f_equal; f_equal. destruct ce; simpl; lia.
Qed.

End Compliant.

(** C8.  On parts that all are within the byte limit, with a progress
    callback and no cancellation seen, the enforcer returns the same paths
    in the same order, leaves every file as it is, starts no process, and
    emits the progress events [(1, N), (2, N), ..., (N, N)]. *)
Theorem reencode_oversize_compliant (w : world) (files : list path) (max_gb : float)
    (ffmpeg_path : path) (ce : option Event) (st : state) (max_bytes : Z) :
  gb_to_bytes max_gb = Ok max_bytes ->
  Forall (fun p => exists f, st_fs st !! p = Some f /\ f_size f <= max_bytes) files ->
  unobserved ce (st_polls st) (length files) ->
  fst (reencode_oversize w files max_gb ffmpeg_path ce (Some QueueProgress) st) = Ok files
  /\ st_fs (snd (reencode_oversize w files max_gb ffmpeg_path ce (Some QueueProgress) st))
     = st_fs st
  /\ st_progress (snd (reencode_oversize w files max_gb ffmpeg_path ce (Some QueueProgress) st))
     = st_progress st
       ++ List.map (fun i => (i, Z.of_nat (length files)))
            (seqZ 1 (Z.of_nat (length files)))
  /\ st_procs (snd (reencode_oversize w files max_gb ffmpeg_path ce (Some QueueProgress) st))
     = st_procs st.
Proof.
  intros Hmax Hall Hc.
  assert (E : reencode_oversize w files max_gb ffmpeg_path ce (Some QueueProgress) st
              = reencode_loop w max_gb max_bytes ffmpeg_path ce (Some QueueProgress)
                  (Z.of_nat (length files)) 1 files [] st).
  { unfold reencode_oversize, bind, lift. rewrite Hmax. reflexivity. }
  rewrite E, (reencode_loop_compliant w max_gb max_bytes ffmpeg_path ce _ files 1 [] st Hall Hc).
  repeat split.
Qed.

(** Two parts of 2 GiB under a limit of 4 GB. *)
Lemma reencode_oversize_compliant_witness :
  fst (reencode_oversize (encoder_world 0 None) [part0; part1] (F64.of_Z 4) "ffmpeg"
         (Some (MkEvent None)) (Some QueueProgress) parts_state) = Ok [part0; part1]
  /\ st_fs (snd (reencode_oversize (encoder_world 0 None) [part0; part1] (F64.of_Z 4)
                   "ffmpeg" (Some (MkEvent None)) (Some QueueProgress) parts_state))
     = st_fs parts_state
  /\ st_progress (snd (reencode_oversize (encoder_world 0 None) [part0; part1] (F64.of_Z 4)
                         "ffmpeg" (Some (MkEvent None)) (Some QueueProgress) parts_state))
     = st_progress parts_state
       ++ List.map (fun i => (i, Z.of_nat (length [part0; part1])))
            (seqZ 1 (Z.of_nat (length [part0; part1])))
  /\ st_procs (snd (reencode_oversize (encoder_world 0 None) [part0; part1] (F64.of_Z 4)
                      "ffmpeg" (Some (MkEvent None)) (Some QueueProgress) parts_state))
     = st_procs parts_state.
Proof.
  apply (reencode_oversize_compliant (encoder_world 0 None) [part0; part1] (F64.of_Z 4)
           "ffmpeg" (Some (MkEvent None)) parts_state (4 * GiB)).
  - reflexivity.
  - repeat constructor.
    + exists original0. split; [reflexivity|]. vm_compute. discriminate.
    + exists original1. split; [reflexivity|]. vm_compute. discriminate.
  - exact I.
Defined.

(* --------------------------------------------------------------------- *)
(** ** Rules for run specifications *)
(* --------------------------------------------------------------------- *)

Section RunSpec.

Context {A B : Type}.

Lemma run_spec_ret (fs : fsys) (pr : list (Z * Z)) (a : A) :
  run_spec fs pr (ret a) (Ok a) fs pr.
Proof. intros st Hfs Hpr. exists st. auto. Qed.

Lemma run_spec_raise (fs : fsys) (pr : list (Z * Z)) (e : exn) :
  run_spec fs pr (raise e : M A) (Raise e) fs pr.
Proof. intros st Hfs Hpr. exists st. auto. Qed.

Lemma run_spec_lift (fs : fsys) (pr : list (Z * Z)) (r : result A) :
  run_spec fs pr (lift r) r fs pr.
Proof. intros st Hfs Hpr. exists st. auto. Qed.

Lemma run_spec_bind (fs fs1 fs2 : fsys) (pr pr1 pr2 : list (Z * Z))
    (m : M A) (k : A -> M B) (a : A) (r : result B) :
  run_spec fs pr m (Ok a) fs1 pr1 ->
  run_spec fs1 pr1 (k a) r fs2 pr2 ->
  run_spec fs pr (bind m k) r fs2 pr2.
Proof.
  intros Hm Hk st Hfs Hpr. destruct (Hm st Hfs Hpr) as (st1 & E1 & Hfs1 & Hpr1).
  destruct (Hk st1 Hfs1 Hpr1) as (st2 & E2 & Hfs2 & Hpr2).
  exists st2. unfold bind. rewrite E1. auto.
Qed.

Lemma run_spec_bind_raise (fs fs1 : fsys) (pr pr1 : list (Z * Z))
    (m : M A) (k : A -> M B) (e : exn) :
  run_spec fs pr m (Raise e) fs1 pr1 ->
  run_spec fs pr (bind m k) (Raise e) fs1 pr1.
Proof.
  intros Hm st Hfs Hpr. destruct (Hm st Hfs Hpr) as (st1 & E1 & Hfs1 & Hpr1).
  exists st1. unfold bind. rewrite E1. auto.
Qed.

(** A run that ends well passes through [try ... except]. *)
Lemma run_spec_try_ok (fs fs1 : fsys) (pr pr1 : list (Z * Z))
    (m : M A) (h : exn -> option (M A)) (a : A) :
  run_spec fs pr m (Ok a) fs1 pr1 ->
  run_spec fs pr (try_except m h) (Ok a) fs1 pr1.
Proof.
  intros Hm st Hfs Hpr. destruct (Hm st Hfs Hpr) as (st1 & E1 & Hfs1 & Hpr1).
  exists st1. unfold try_except. rewrite E1. auto.
Qed.

(** An exception no handler selects passes through as well. *)
Lemma run_spec_try_uncaught (fs fs1 : fsys) (pr pr1 : list (Z * Z))
    (m : M A) (h : exn -> option (M A)) (e : exn) :
  h e = None ->
  run_spec fs pr m (Raise e) fs1 pr1 ->
  run_spec fs pr (try_except m h) (Raise e) fs1 pr1.
Proof.
  intros He Hm st Hfs Hpr. destruct (Hm st Hfs Hpr) as (st1 & E1 & Hfs1 & Hpr1).
  exists st1. unfold try_except. rewrite E1, He. auto.
Qed.

End RunSpec.

Section RunSpecOps.

Variables (fs : fsys) (pr : list (Z * Z)).

Lemma run_spec_log (r : log_record) : run_spec fs pr (log r) (Ok tt) fs pr.
Proof. intros st Hfs Hpr. eexists. split; [reflexivity|]. auto. Qed.

Lemma run_spec_proc (e : proc_event) : run_spec fs pr (proc e) (Ok tt) fs pr.
Proof. intros st Hfs Hpr. eexists. split; [reflexivity|]. auto. Qed.

Lemma run_spec_emit (current total : Z) :
  run_spec fs pr (emit_progress current total) (Ok tt) fs (pr ++ [(current, total)]).
Proof.
  intros st Hfs Hpr. eexists. split; [reflexivity|]. cbn. rewrite Hpr. auto.
Qed.

Lemma run_spec_get_fs : run_spec fs pr get_fs (Ok fs) fs pr.
Proof. intros st Hfs Hpr. exists st. unfold get_fs. rewrite Hfs. auto. Qed.

Lemma run_spec_set_fs (fs' : fsys) : run_spec fs pr (set_fs fs') (Ok tt) fs' pr.
Proof. intros st Hfs Hpr. eexists. split; [reflexivity|]. auto. Qed.

Lemma run_spec_path_exists (p : path) :
  run_spec fs pr (path_exists p)
    (Ok (match fs !! p with Some _ => true | None => false end)) fs pr.
Proof.
  eapply run_spec_bind; [apply run_spec_get_fs|]. apply run_spec_ret.
Qed.

Lemma run_spec_stat_size (p : path) (f : file) :
  fs !! p = Some f -> run_spec fs pr (stat_size p) (Ok (f_size f)) fs pr.
Proof.
  intros H. eapply run_spec_bind; [apply run_spec_get_fs|].
  cbn beta. rewrite H. apply run_spec_ret.
Qed.

Lemma run_spec_unlink (p : path) (missing_ok : bool) :
  is_Some (fs !! p) \/ missing_ok = true ->
  run_spec fs pr (path_unlink p missing_ok) (Ok tt) (delete p fs) pr.
Proof.
  intros H. eapply run_spec_bind; [apply run_spec_get_fs|]. cbn beta.
  destruct (fs !! p) as [f|] eqn:E.
  - apply run_spec_set_fs.
  - destruct H as [[f Hf]| ->]; [discriminate|].
    rewrite delete_id by exact E. apply run_spec_ret.
Qed.

Lemma run_spec_replace (src dst : path) (f : file) :
  fs !! src = Some f ->
  run_spec fs pr (path_replace src dst) (Ok tt) (<[dst := f]> (delete src fs)) pr.
Proof.
  intros H. eapply run_spec_bind; [apply run_spec_get_fs|]. cbn beta.
  rewrite H. apply run_spec_set_fs.
Qed.

Lemma never_set_unobserved (ce : option Event) (polls k : nat) :
  never_set ce -> unobserved ce polls k.
Proof. destruct ce as [[[t|]]|]; simpl; intros H; try exact I; discriminate. Qed.

Lemma run_spec_check_cancel (ce : option Event) :
  never_set ce -> run_spec fs pr (_check_cancel ce) (Ok tt) fs pr.
Proof.
  intros Hn st Hfs Hpr. unfold _check_cancel, bind.
  rewrite cancel_requested_unobserved by (apply never_set_unobserved; exact Hn).
  eexists. split; [reflexivity|]. auto.
Qed.

(** A streamed child that no cancellation interrupts. *)
Lemma run_spec_stream (w : world) (args : list string) (ce : option Event)
    (lvl : level) (enc : option codec) :
  never_set ce ->
  run_spec fs pr (run_command w args false ce lvl enc)
    (if p_returncode (w_popen w args fs) =? 0 then Ok None
     else Raise (CalledProcessError (p_returncode (w_popen w args fs)) args))
    (file_left args (p_file (w_popen w args fs)) fs) pr.
Proof.
  intros Hn st Hfs Hpr.
  rewrite (run_command_stream_unobserved w args ce lvl enc st)
    by (apply never_set_unobserved; exact Hn).
  rewrite Hfs. eexists. split; [reflexivity|]. auto.
Qed.

End RunSpecOps.

(* --------------------------------------------------------------------- *)
(** ** Paths *)
(* --------------------------------------------------------------------- *)

Section Paths.

Lemma append_cons (c : ascii) (x y : string) : String c x +:+ y = String c (x +:+ y).
Proof. reflexivity. Qed.

Lemma split_last_spec (sep : ascii) (s b a : string) :
  split_last sep s = Some (b, a) ->
  s = b +:+ String sep a /\ split_last sep a = None.
Proof.
  revert b. induction s as [|c s IH]; intros b; cbn [split_last]; [discriminate|].
  destruct (split_last sep s) as [[b' a']|] eqn:E.
  - intros [= <- <-]. destruct (IH b' eq_refl) as [-> Ha].
    rewrite append_cons. split; [reflexivity|assumption].
  - destruct (Ascii.eqb_spec c sep) as [->|]; [|discriminate].
    intros [= <- <-]. split; [reflexivity|assumption].
Qed.

Lemma append_inv_head (b x y : string) : b +:+ x = b +:+ y -> x = y.
Proof.
  induction b as [|c b IH]; [auto|]. rewrite !append_cons. intros [= H]. auto.
Qed.

Lemma append_length (x y : string) :
  String.length (x +:+ y) = (String.length x + String.length y)%nat.
Proof.
  induction x as [|c x IH]; [reflexivity|].
  rewrite append_cons. cbn [String.length Nat.add]. rewrite IH. reflexivity.
Qed.

Lemma append_assoc (x y z : string) : (x +:+ y) +:+ z = x +:+ (y +:+ z).
Proof.
  induction x as [|c x IH]; [reflexivity|]. rewrite !append_cons, IH. reflexivity.
Qed.

Lemma path_parent_name (p : path) : p = path_parent p +:+ path_name p.
Proof.
  unfold path_parent, path_name.
  destruct (split_last "/" p) as [[b a]|] eqn:E; [|reflexivity].
  apply split_last_spec in E as [-> _]. rewrite append_assoc. reflexivity.
Qed.

(** The stem is the name, or the name is the stem, a dot and a rest that
    holds no dot. *)
Lemma name_stem_spec (name : string) :
  name_stem name = name
  \/ exists a, name = name_stem name +:+ String "." a /\ split_last "." a = None.
Proof.
  unfold name_stem. destruct (split_last "." name) as [[b a]|] eqn:E; [|left; reflexivity].
  destruct (is_empty b || is_empty a); [left; reflexivity|].
  right. exists a. apply split_last_spec. assumption.
Qed.

(** The temporary file of a part is never the part itself. *)
Lemma with_suffix_tmp_neq (p q : path) :
  with_suffix p ".tmp.mp4" = Ok q -> q <> p.
Proof.
  pose proof (path_parent_name p) as Hp. unfold with_suffix.
  set (par := path_parent p) in *. set (nm := path_name p) in *.
  clearbody par nm. subst p.
  destruct (is_empty nm); [discriminate|].
  intros [= <-] H. apply append_inv_head in H.
  destruct (name_stem_spec nm) as [E|(a & E & Ha)].
  - rewrite E in H. apply (f_equal String.length) in H.
    rewrite append_length in H. cbn in H. lia.
  - rewrite E in H at 2. apply append_inv_head in H.
    injection H as <-. cbn in Ha. discriminate.
Qed.

End Paths.

(* --------------------------------------------------------------------- *)
(** ** The prober inside a run *)
(* --------------------------------------------------------------------- *)

Section ProbeRun.

Variables (w : world) (fs : fsys) (pr : list (Z * Z)).

Lemma run_spec_for_each_log (lvl : level) (lines : list text) :
  run_spec fs pr (for_each (fun line => log (LogLine lvl line)) lines) (Ok tt) fs pr.
Proof.
  intros st Hfs Hpr. rewrite for_each_log. eexists. split; [reflexivity|]. auto.
Qed.

(** Captured mode touches neither the files nor the progress events, and
    its outcome is a function of the files. *)
Lemma run_spec_captured (args : list string) (ce : option Event) (lvl : level)
    (enc : option codec) :
  exists r, run_spec fs pr (run_command w args true ce lvl enc) r fs pr.
Proof.
  unfold run_command.
  destruct enc as [e|].
  - destruct (decode_strict e (c_stdout (w_run w args fs))) as [t|] eqn:Ed.
    + destruct (c_returncode (w_run w args fs) =? 0) eqn:Erc; eexists;
        (eapply run_spec_bind; [apply run_spec_log|]);
        (eapply run_spec_bind; [apply run_spec_get_fs|]);
        (eapply run_spec_bind; [apply run_spec_proc|]);
        rewrite Ed;
        (eapply run_spec_bind; [apply run_spec_ret|]);
        (eapply run_spec_bind; [apply run_spec_for_each_log|]);
        (eapply run_spec_bind; [apply run_spec_for_each_log|]);
        rewrite Erc; cbn [negb]; first [apply run_spec_ret | apply run_spec_raise].
    + eexists.
      eapply run_spec_bind; [apply run_spec_log|].
      eapply run_spec_bind; [apply run_spec_get_fs|].
      eapply run_spec_bind; [apply run_spec_proc|].
      rewrite Ed. eapply run_spec_bind_raise. apply run_spec_raise.
  - destruct (c_returncode (w_run w args fs) =? 0) eqn:Erc; eexists;
      (eapply run_spec_bind; [apply run_spec_log|]);
      (eapply run_spec_bind; [apply run_spec_get_fs|]);
      (eapply run_spec_bind; [apply run_spec_proc|]);
      (eapply run_spec_bind; [apply run_spec_ret|]);
      (eapply run_spec_bind; [apply run_spec_for_each_log|]);
      (eapply run_spec_bind; [apply run_spec_for_each_log|]);
      rewrite Erc; cbn [negb]; first [apply run_spec_ret | apply run_spec_raise].
Qed.

Lemma run_spec_probe (input_path : path) :
  exists r, run_spec fs pr (probe w input_path) r fs pr.
Proof.
  unfold probe.
  destruct (fs !! input_path) as [f|] eqn:Ef.
  2: { eexists. eapply run_spec_bind; [apply run_spec_path_exists|].
       rewrite Ef. apply run_spec_raise. }
  destruct (w_ffmpeg_paths w) as [paths|e] eqn:Ep.
  2: { eexists. eapply run_spec_bind; [apply run_spec_path_exists|].
       rewrite Ef. cbn [negb]. eapply run_spec_bind_raise. apply run_spec_lift. }
  destruct (run_spec_captured
              [paths.2; "-v"; "error"; "-print_format"; "json"; "-show_format";
               "-show_streams"; input_path]%string None DEBUG None) as [r Hr].
  destruct r as [[output|]|e].
  3: { eexists. eapply run_spec_bind; [apply run_spec_path_exists|].
       rewrite Ef. cbn [negb]. eapply run_spec_bind; [apply run_spec_lift|].
       eapply run_spec_bind_raise. exact Hr. }
  2: { eexists. eapply run_spec_bind; [apply run_spec_path_exists|].
       rewrite Ef. cbn [negb]. eapply run_spec_bind; [apply run_spec_lift|].
       eapply run_spec_bind; [exact Hr|]. apply run_spec_raise. }
  destruct (w_json_loads w output) as [info|] eqn:Ej.
  2: { eexists. eapply run_spec_bind; [apply run_spec_path_exists|].
       rewrite Ef. cbn [negb]. eapply run_spec_bind; [apply run_spec_lift|].
       eapply run_spec_bind; [exact Hr|]. cbn beta iota. rewrite Ej.
       apply run_spec_raise. }
  destruct (probe_extract w info) as [meta|e] eqn:Ex.
  2: { eexists. eapply run_spec_bind; [apply run_spec_path_exists|].
       rewrite Ef. cbn [negb]. eapply run_spec_bind; [apply run_spec_lift|].
       eapply run_spec_bind; [exact Hr|]. cbn beta iota. rewrite Ej.
       eapply run_spec_bind_raise. rewrite Ex. apply run_spec_lift. }
  eexists. eapply run_spec_bind; [apply run_spec_path_exists|].
  rewrite Ef. cbn [negb]. eapply run_spec_bind; [apply run_spec_lift|].
  eapply run_spec_bind; [exact Hr|]. cbn beta iota. rewrite Ej.
  eapply run_spec_bind; [rewrite Ex; apply run_spec_lift|].
  eapply run_spec_bind; [apply run_spec_log|]. apply run_spec_ret.
Qed.

(** What a run specification says of one run. *)
Lemma run_spec_fst {A : Type} (m : M A) (r : result A) (fs' : fsys)
    (pr' : list (Z * Z)) (st : state) :
  run_spec fs pr m r fs' pr' -> st_fs st = fs -> st_progress st = pr ->
  fst (m st) = r.
Proof. intros H Hfs Hpr. destruct (H st Hfs Hpr) as (st' & -> & _). reflexivity. Qed.

(** The outcome of [probe] seen on one state holds on every state with
    the same files. *)
Lemma run_spec_probe_of (input_path : path) (st : state) (r : result metadata) :
  st_fs st = fs -> st_progress st = pr ->
  fst (probe w input_path st) = r ->
  run_spec fs pr (probe w input_path) r fs pr.
Proof.
  intros Hfs Hpr <-. destruct (run_spec_probe input_path) as [r Hr].
  rewrite (run_spec_fst _ _ _ _ st Hr Hfs Hpr). exact Hr.
Qed.

End ProbeRun.

(* --------------------------------------------------------------------- *)
(** ** The encoders and the ladder *)
(* --------------------------------------------------------------------- *)

Section Encoders.

Variables (w : world) (ffmpeg_path source destination : path)
          (ce : option Event).
Hypothesis Hnever : never_set ce.

Lemma crf_args_operand (crf : Z) :
  output_operand (crf_args ffmpeg_path source destination crf) = Some destination.
Proof. reflexivity. Qed.

Lemma bitrate_args_operand (video_bitrate : Z) (cmd : list string) :
  bitrate_args ffmpeg_path source destination video_bitrate = Ok cmd ->
  output_operand cmd = Some destination.
Proof.
  unfold bitrate_args. destruct (py_float_of_int _); [|discriminate].
  cbn [rbind]. destruct (py_int_of_float _); [|discriminate].
  cbn [rbind]. intros [= <-]. reflexivity.
Qed.

Lemma file_left_operand (cmd : list string) (f : option file) (fs : fsys) :
  output_operand cmd = Some destination ->
  file_left cmd f fs = match f with Some f => <[destination := f]> fs | None => fs end.
Proof. unfold file_left. intros ->. reflexivity. Qed.

(** A constant-quality encode that runs to its end. *)
Lemma run_spec_encode_crf (fs : fsys) (pr : list (Z * Z)) (crf : Z) :
  p_returncode (w_popen w (crf_args ffmpeg_path source destination crf) fs) = 0 ->
  run_spec fs pr (_encode_with_crf w source destination ffmpeg_path crf ce) (Ok tt)
    (match p_file (w_popen w (crf_args ffmpeg_path source destination crf) fs) with
     | Some f => <[destination := f]> fs
     | None => fs
     end) pr.
Proof.
  intros Hrc. unfold _encode_with_crf.
  eapply run_spec_bind.
  - pose proof (run_spec_stream fs pr w (crf_args ffmpeg_path source destination crf)
                  ce INFO None Hnever) as H.
    rewrite Hrc in H. cbn [Z.eqb] in H.
    rewrite (file_left_operand _ _ _ (crf_args_operand crf)) in H. exact H.
  - apply run_spec_ret.
Qed.

(** The bitrate-targeted encode, run to its end. *)
Lemma run_spec_encode_bitrate (fs : fsys) (pr : list (Z * Z))
    (video_bitrate : Z) (cmd : list string) :
  bitrate_args ffmpeg_path source destination video_bitrate = Ok cmd ->
  run_spec fs pr
    (_encode_with_target_bitrate w source destination ffmpeg_path video_bitrate ce)
    (if p_returncode (w_popen w cmd fs) =? 0 then Ok tt
     else Raise (CalledProcessError (p_returncode (w_popen w cmd fs)) cmd))
    (match p_file (w_popen w cmd fs) with
     | Some f => <[destination := f]> fs
     | None => fs
     end) pr.
Proof.
  intros Hcmd. unfold _encode_with_target_bitrate.
  eapply run_spec_bind; [rewrite Hcmd; apply run_spec_lift|].
  pose proof (run_spec_stream fs pr w cmd ce INFO None Hnever) as H.
  rewrite (file_left_operand _ _ _ (bitrate_args_operand _ _ Hcmd)) in H.
  destruct (p_returncode (w_popen w cmd fs) =? 0).
  - eapply run_spec_bind; [exact H|]. apply run_spec_ret.
  - eapply run_spec_bind_raise. exact H.
Qed.

End Encoders.

Section Ladder.

Variables (w : world) (file_path tmp_file ffmpeg_path : path) (max_bytes : Z)
          (ce : option Event) (fs : fsys) (pr : list (Z * Z)).
Hypothesis Hnever : never_set ce.
Hypothesis Htmp : fs !! tmp_file = None.

(** When every rung fails, every attempt is deleted: the ladder ends with
    the files it started from, the temporary file absent. *)
Lemma run_spec_crf_ladder_exhausted (rungs : list Z) :
  Forall (rung_fails w file_path tmp_file ffmpeg_path max_bytes fs) rungs ->
  run_spec fs pr (crf_ladder w file_path tmp_file ffmpeg_path max_bytes ce rungs)
    (Ok tt) fs pr.
Proof.
  induction 1 as [|crf rungs [Hrc Hbig] _ IH]; cbn [crf_ladder].
  - apply run_spec_ret.
  - eapply run_spec_bind; [apply run_spec_check_cancel; exact Hnever|].
    eapply run_spec_bind;
      [apply run_spec_encode_crf; [exact Hnever|exact Hrc]|].
    destruct (p_file _) as [f|] eqn:Ef.
    + eapply run_spec_bind; [apply run_spec_path_exists|].
      rewrite lookup_insert_eq. cbn [negb].
      eapply run_spec_bind;
        [apply run_spec_stat_size; apply lookup_insert_eq|].
      cbn [f_size]. specialize (Hbig f eq_refl).
      destruct (Z.leb_spec (f_size f) max_bytes); [lia|].
      eapply run_spec_bind; [apply run_spec_log|].
      eapply run_spec_bind; [apply run_spec_unlink; right; reflexivity|].
      rewrite delete_insert_id by exact Htmp. exact IH.
    + eapply run_spec_bind; [apply run_spec_path_exists|].
      rewrite Htmp. cbn [negb]. exact IH.
Qed.

(** A rung whose file is within the limit ends the ladder: the file stays
    at the temporary path; the rungs after it are not run. *)
Lemma run_spec_crf_ladder_accepted (pre : list Z) (crf : Z) (post : list Z) (g : file) :
  Forall (rung_fails w file_path tmp_file ffmpeg_path max_bytes fs) pre ->
  p_returncode (w_popen w (crf_args ffmpeg_path file_path tmp_file crf) fs) = 0 ->
  p_file (w_popen w (crf_args ffmpeg_path file_path tmp_file crf) fs) = Some g ->
  f_size g <= max_bytes ->
  run_spec fs pr
    (crf_ladder w file_path tmp_file ffmpeg_path max_bytes ce (pre ++ crf :: post))
    (Ok tt) (<[tmp_file := g]> fs) pr.
Proof.
  intros Hpre Hrc Hg Hsize.
  induction Hpre as [|c pre [Hrc' Hbig] _ IH]; cbn [app crf_ladder].
  - eapply run_spec_bind; [apply run_spec_check_cancel; exact Hnever|].
    eapply run_spec_bind;
      [apply run_spec_encode_crf; [exact Hnever|exact Hrc]|].
    rewrite Hg.
    eapply run_spec_bind; [apply run_spec_path_exists|].
    rewrite lookup_insert_eq. cbn [negb].
    eapply run_spec_bind;
      [apply run_spec_stat_size; apply lookup_insert_eq|].
    destruct (Z.leb_spec (f_size g) max_bytes); [|lia].
    apply run_spec_log.
  - eapply run_spec_bind; [apply run_spec_check_cancel; exact Hnever|].
    eapply run_spec_bind;
      [apply run_spec_encode_crf; [exact Hnever|exact Hrc']|].
    destruct (p_file _) as [f|] eqn:Ef.
    + eapply run_spec_bind; [apply run_spec_path_exists|].
      rewrite lookup_insert_eq. cbn [negb].
      eapply run_spec_bind;
        [apply run_spec_stat_size; apply lookup_insert_eq|].
      cbn [f_size]. specialize (Hbig f eq_refl).
      destruct (Z.leb_spec (f_size f) max_bytes); [lia|].
      eapply run_spec_bind; [apply run_spec_log|].
      eapply run_spec_bind; [apply run_spec_unlink; right; reflexivity|].
      rewrite delete_insert_id by exact Htmp. exact IH.
    + eapply run_spec_bind; [apply run_spec_path_exists|].
      rewrite Htmp. cbn [negb]. exact IH.
Qed.

End Ladder.

Section OversizePart.

Variables (w : world) (max_gb : float) (max_bytes : Z) (ffmpeg_path : path)
          (ce : option Event) (total index : Z) (file_path tmp_file : path)
          (final_files : list path) (st : state) (f : file) (meta : metadata)
          (target_bitrate : Z) (cmd : list string).

Hypothesis Hnever : never_set ce.
Hypothesis Hfile : st_fs st !! file_path = Some f.
Hypothesis Hbig : max_bytes < f_size f.
Hypothesis Hprobe : fst (probe w file_path st) = Ok meta.
Hypothesis Hdur : F64.leb (md_duration meta) F64.zero = false.
Hypothesis Htmp : with_suffix file_path ".tmp.mp4" = Ok tmp_file.
Hypothesis Hbr : _calculate_bitrate (md_duration meta) max_gb = Ok target_bitrate.
Hypothesis Hcmd : bitrate_args ffmpeg_path file_path tmp_file target_bitrate = Ok cmd.

Let fs0 : fsys := delete tmp_file (st_fs st).

Lemma part_kept_in_fs0 : fs0 !! file_path = Some f.
Proof.
  unfold fs0. rewrite lookup_delete_ne; [exact Hfile|].
  apply (with_suffix_tmp_neq _ _ Htmp).
Qed.

Lemma tmp_absent_in_fs0 : fs0 !! tmp_file = None.
Proof. unfold fs0. apply lookup_delete_eq. Qed.

(** From the head of the loop body to the end of the bitrate-targeted
    encode. *)
Ltac enter_part :=
  unfold reencode_part;
  (eapply run_spec_bind; [apply run_spec_check_cancel; exact Hnever|]);
  (eapply run_spec_bind; [apply run_spec_stat_size; exact Hfile|]);
  destruct (Z.leb_spec (f_size f) max_bytes) as [?|_]; [lia|];
  (eapply run_spec_bind; [apply run_spec_log|]);
  (eapply run_spec_bind;
     [apply (run_spec_probe_of w _ _ file_path st); [reflexivity|reflexivity|exact Hprobe]|]);
  cbn zeta; rewrite Hdur;
  (eapply run_spec_bind; [rewrite Htmp; apply run_spec_lift|]);
  (eapply run_spec_bind; [apply run_spec_path_exists|]);
  (eapply run_spec_bind with (fs1 := fs0);
     [destruct (st_fs st !! tmp_file) eqn:Estale;
        [apply run_spec_unlink; left; rewrite Estale; eauto
        |unfold fs0; rewrite delete_id by exact Estale; apply run_spec_ret]|]);
  rewrite Hbr.

(** The bitrate-targeted encode, when it ends with status 0. *)
Ltac encode_ok Hrc :=
  eapply run_spec_bind;
    [apply run_spec_try_ok;
     pose proof (run_spec_encode_bitrate w ffmpeg_path file_path tmp_file ce Hnever
                   fs0 (st_progress st) target_bitrate cmd Hcmd) as Henc;
     unfold fs0 in Henc; rewrite Hrc in Henc; cbn [Z.eqb] in Henc; exact Henc|].

Lemma run_spec_keep (fs : fsys) (pr : list (Z * Z)) :
  run_spec fs pr (keep_part (Some QueueProgress) index total file_path final_files)
    (Ok (final_files ++ [file_path])) fs (pr ++ [(index, total)]).
Proof.
  unfold keep_part. eapply run_spec_bind; [apply run_spec_emit|]. apply run_spec_ret.
Qed.

(** The encode ends with status 0 and leaves no temporary file: the part
    is kept as it is. *)
Lemma reencode_part_no_output :
  p_returncode (w_popen w cmd (delete tmp_file (st_fs st))) = 0 ->
  p_file (w_popen w cmd (delete tmp_file (st_fs st))) = None ->
  run_spec (st_fs st) (st_progress st)
    (reencode_part w max_gb max_bytes ffmpeg_path ce (Some QueueProgress)
       total index file_path final_files)
    (Ok (final_files ++ [file_path]))
    (delete tmp_file (st_fs st)) (st_progress st ++ [(index, total)]).
Proof.
  intros Hrc Hnone. enter_part. encode_ok Hrc. rewrite Hnone.
  eapply run_spec_bind; [apply run_spec_path_exists|].
  rewrite lookup_delete_eq. cbn [negb].
  eapply run_spec_bind; [apply run_spec_log|]. apply run_spec_keep.
Qed.

(** The encode and every rung of the ladder leave oversize files: all are
    deleted and the part is kept as it is. *)
Lemma reencode_part_ladder_exhausted (f0 : file) :
  p_returncode (w_popen w cmd (delete tmp_file (st_fs st))) = 0 ->
  p_file (w_popen w cmd (delete tmp_file (st_fs st))) = Some f0 ->
  max_bytes < f_size f0 ->
  Forall (rung_fails w file_path tmp_file ffmpeg_path max_bytes
            (delete tmp_file (st_fs st))) CRF_RUNGS ->
  run_spec (st_fs st) (st_progress st)
    (reencode_part w max_gb max_bytes ffmpeg_path ce (Some QueueProgress)
       total index file_path final_files)
    (Ok (final_files ++ [file_path]))
    (delete tmp_file (st_fs st)) (st_progress st ++ [(index, total)]).
Proof.
  intros Hrc Hsome Hf0 Hrungs. enter_part. encode_ok Hrc. rewrite Hsome.
  eapply run_spec_bind; [apply run_spec_path_exists|].
  rewrite lookup_insert_eq. cbn [negb].
  eapply run_spec_bind; [apply run_spec_stat_size; apply lookup_insert_eq|].
  destruct (Z.ltb_spec max_bytes (f_size f0)) as [_|?]; [|lia].
  eapply run_spec_bind with (fs1 := fs0).
  { eapply run_spec_bind; [apply run_spec_log|].
    eapply run_spec_bind; [apply run_spec_unlink; right; reflexivity|].
    rewrite delete_insert_id by exact tmp_absent_in_fs0.
    apply run_spec_crf_ladder_exhausted;
      [exact Hnever|exact tmp_absent_in_fs0|exact Hrungs]. }
  eapply run_spec_bind; [apply run_spec_path_exists|].
  rewrite tmp_absent_in_fs0.
  eapply run_spec_bind; [apply run_spec_log|]. apply run_spec_keep.
Qed.

(** The encode leaves an oversize file and a rung of the ladder, the
    rungs before it having failed, leaves a file within the limit: that
    file replaces the part. *)
Lemma reencode_part_ladder_accepted (f0 : file) (pre : list Z) (crf : Z)
    (post : list Z) (g : file) :
  p_returncode (w_popen w cmd (delete tmp_file (st_fs st))) = 0 ->
  p_file (w_popen w cmd (delete tmp_file (st_fs st))) = Some f0 ->
  max_bytes < f_size f0 ->
  CRF_RUNGS = pre ++ crf :: post ->
  Forall (rung_fails w file_path tmp_file ffmpeg_path max_bytes
            (delete tmp_file (st_fs st))) pre ->
  p_returncode (w_popen w (crf_args ffmpeg_path file_path tmp_file crf)
                  (delete tmp_file (st_fs st))) = 0 ->
  p_file (w_popen w (crf_args ffmpeg_path file_path tmp_file crf)
            (delete tmp_file (st_fs st))) = Some g ->
  f_size g <= max_bytes ->
  run_spec (st_fs st) (st_progress st)
    (reencode_part w max_gb max_bytes ffmpeg_path ce (Some QueueProgress)
       total index file_path final_files)
    (Ok (final_files ++ [file_path]))
    (<[file_path := g]> (delete tmp_file (st_fs st)))
    (st_progress st ++ [(index, total)]).
Proof.
  intros Hrc Hsome Hf0 Hrungs Hpre Hrc' Hg Hsize. enter_part. encode_ok Hrc.
  rewrite Hsome.
  eapply run_spec_bind; [apply run_spec_path_exists|].
  rewrite lookup_insert_eq. cbn [negb].
  eapply run_spec_bind; [apply run_spec_stat_size; apply lookup_insert_eq|].
  destruct (Z.ltb_spec max_bytes (f_size f0)) as [_|?]; [|lia].
  eapply run_spec_bind with (fs1 := <[tmp_file := g]> fs0).
  { eapply run_spec_bind; [apply run_spec_log|].
    eapply run_spec_bind; [apply run_spec_unlink; right; reflexivity|].
    rewrite delete_insert_id by exact tmp_absent_in_fs0.
    rewrite Hrungs.
    apply run_spec_crf_ladder_accepted;
      [exact Hnever|exact tmp_absent_in_fs0|exact Hpre|exact Hrc'|exact Hg|exact Hsize]. }
  eapply run_spec_bind; [apply run_spec_path_exists|].
  rewrite lookup_insert_eq.
  eapply run_spec_bind with (fs1 := <[file_path := g]> fs0).
  { eapply run_spec_bind; [apply run_spec_replace; apply lookup_insert_eq|].
    rewrite delete_insert_id by exact tmp_absent_in_fs0.
    eapply run_spec_bind; [apply run_spec_stat_size; apply lookup_insert_eq|].
    apply run_spec_log. }
  apply run_spec_keep.
Qed.

(** The encode ends with a non-zero status: [CalledProcessError] leaves
    the loop body, no handler selecting it; the part on disk is the
    original and no progress event is emitted. *)
Lemma reencode_part_encode_fails :
  p_returncode (w_popen w cmd (delete tmp_file (st_fs st))) <> 0 ->
  run_spec (st_fs st) (st_progress st)
    (reencode_part w max_gb max_bytes ffmpeg_path ce (Some QueueProgress)
       total index file_path final_files)
    (Raise (CalledProcessError
              (p_returncode (w_popen w cmd (delete tmp_file (st_fs st)))) cmd))
    (match p_file (w_popen w cmd (delete tmp_file (st_fs st))) with
     | Some f0 => <[tmp_file := f0]> (delete tmp_file (st_fs st))
     | None => delete tmp_file (st_fs st)
     end)
    (st_progress st).
Proof.
  intros Hrc. enter_part.
  eapply run_spec_bind_raise. apply run_spec_try_uncaught; [reflexivity|].
  pose proof (run_spec_encode_bitrate w ffmpeg_path file_path tmp_file ce Hnever
                fs0 (st_progress st) target_bitrate cmd Hcmd) as Henc.
  unfold fs0 in Henc.
  destruct (Z.eqb_spec (p_returncode (w_popen w cmd (delete tmp_file (st_fs st)))) 0)
    as [E|_]; [contradiction|].
  exact Henc.
Qed.

(** A part that raises ends the loop. *)
Lemma reencode_loop_raise (rest : list path) (fs' : fsys) (pr' : list (Z * Z))
    (e : exn) :
  run_spec (st_fs st) (st_progress st)
    (reencode_part w max_gb max_bytes ffmpeg_path ce (Some QueueProgress)
       total index file_path final_files)
    (Raise e) fs' pr' ->
  exists st' : state,
    reencode_loop w max_gb max_bytes ffmpeg_path ce (Some QueueProgress)
      total index (file_path :: rest) final_files st
    = (Raise e, st')
    /\ st_fs st' = fs' /\ st_progress st' = pr'.
Proof.
  intros H. destruct (H st eq_refl eq_refl) as (st' & E & Hfs & Hpr).
  exists st'. cbn [reencode_loop]. unfold bind at 1. rewrite E. auto.
Qed.

(** From one part to the loop: a part that ends well hands over to the
    next. *)
Lemma reencode_loop_step (rest : list path) (fs' : fsys) (pr' : list (Z * Z))
    (final_files' : list path) :
  run_spec (st_fs st) (st_progress st)
    (reencode_part w max_gb max_bytes ffmpeg_path ce (Some QueueProgress)
       total index file_path final_files)
    (Ok final_files') fs' pr' ->
  exists st' : state,
    reencode_loop w max_gb max_bytes ffmpeg_path ce (Some QueueProgress)
      total index (file_path :: rest) final_files st
    = reencode_loop w max_gb max_bytes ffmpeg_path ce (Some QueueProgress)
        total (index + 1) rest final_files' st'
    /\ st_fs st' = fs' /\ st_progress st' = pr'.
Proof.
  intros H. destruct (H st eq_refl eq_refl) as (st' & E & Hfs & Hpr).
  exists st'. cbn [reencode_loop]. unfold bind at 1. rewrite E. auto.
Qed.

End OversizePart.

(* --------------------------------------------------------------------- *)
(** ** The enforcer on oversize parts: claims *)
(* --------------------------------------------------------------------- *)

(** C2, as stated, fails: when the bitrate-targeted encode and the three
    rungs all leave a file above the limit, each file is deleted in turn, the
    one of CRF 28 included, and the part on disk is still the original. *)
Lemma reencode_oversize_ladder_counterexample :
  p_file (w_popen (encoder_world 0 (Some encoded))
            (crf_args "ffmpeg" part0 tmp0 28)
            (delete tmp0 (st_fs parts_state))) = Some encoded
  /\ fst (reencode_oversize (encoder_world 0 (Some encoded)) [part0] (F64.of_Z 1)
            "ffmpeg" None (Some QueueProgress) parts_state) = Ok [part0]
  /\ st_fs (snd (reencode_oversize (encoder_world 0 (Some encoded)) [part0] (F64.of_Z 1)
                   "ffmpeg" None (Some QueueProgress) parts_state)) !! part0
     = Some original0
  /\ st_fs (snd (reencode_oversize (encoder_world 0 (Some encoded)) [part0] (F64.of_Z 1)
                   "ffmpeg" None (Some QueueProgress) parts_state)) !! tmp0
     = None
  /\ original0 <> encoded.
Proof.
  split; [reflexivity|]. split; [vm_compute; reflexivity|].
  split; [vm_compute; reflexivity|]. split; [vm_compute; reflexivity|].
  discriminate.
Qed.

(** C2, amended.  For an oversize part whose bitrate-targeted encode leaves
    a file above the limit, the ladder (CRF 23, 26, 28) is run.  If every
    rung runs to its end and leaves nothing within the limit, then every
    attempt is deleted, the last one included: nothing is committed and the
    part on disk stays the original.  If a rung, the rungs before it having
    failed, leaves a file within the limit, that file is committed over the
    part.  In both cases no temporary file is left, one progress event is
    emitted and the loop goes on to the next part. *)
Theorem reencode_loop_ladder_outcome (w : world) (max_gb : float) (max_bytes : Z)
    (ffmpeg_path : path) (ce : option Event) (total index : Z)
    (file_path tmp_file : path) (rest final_files : list path) (st : state)
    (f f0 : file) (meta : metadata) (target_bitrate : Z) (cmd : list string) :
  never_set ce ->
  st_fs st !! file_path = Some f ->
  max_bytes < f_size f ->
  fst (probe w file_path st) = Ok meta ->
  F64.leb (md_duration meta) F64.zero = false ->
  with_suffix file_path ".tmp.mp4" = Ok tmp_file ->
  _calculate_bitrate (md_duration meta) max_gb = Ok target_bitrate ->
  bitrate_args ffmpeg_path file_path tmp_file target_bitrate = Ok cmd ->
  p_returncode (w_popen w cmd (delete tmp_file (st_fs st))) = 0 ->
  p_file (w_popen w cmd (delete tmp_file (st_fs st))) = Some f0 ->
  max_bytes < f_size f0 ->
  (Forall (rung_fails w file_path tmp_file ffmpeg_path max_bytes
             (delete tmp_file (st_fs st))) CRF_RUNGS ->
   exists st' : state,
     reencode_loop w max_gb max_bytes ffmpeg_path ce (Some QueueProgress)
       total index (file_path :: rest) final_files st
     = reencode_loop w max_gb max_bytes ffmpeg_path ce (Some QueueProgress)
         total (index + 1) rest (final_files ++ [file_path]) st'
     /\ st_fs st' = delete tmp_file (st_fs st)
     /\ st_fs st' !! file_path = Some f
     /\ st_fs st' !! tmp_file = None
     /\ st_progress st' = st_progress st ++ [(index, total)])
  /\ (forall (pre : list Z) (crf : Z) (post : list Z) (g : file),
        CRF_RUNGS = pre ++ crf :: post ->
        Forall (rung_fails w file_path tmp_file ffmpeg_path max_bytes
                  (delete tmp_file (st_fs st))) pre ->
        p_returncode (w_popen w (crf_args ffmpeg_path file_path tmp_file crf)
                        (delete tmp_file (st_fs st))) = 0 ->
        p_file (w_popen w (crf_args ffmpeg_path file_path tmp_file crf)
                  (delete tmp_file (st_fs st))) = Some g ->
        f_size g <= max_bytes ->
        exists st' : state,
          reencode_loop w max_gb max_bytes ffmpeg_path ce (Some QueueProgress)
            total index (file_path :: rest) final_files st
          = reencode_loop w max_gb max_bytes ffmpeg_path ce (Some QueueProgress)
              total (index + 1) rest (final_files ++ [file_path]) st'
          /\ st_fs st' = <[file_path := g]> (delete tmp_file (st_fs st))
          /\ st_fs st' !! file_path = Some g
          /\ st_fs st' !! tmp_file = None
          /\ st_progress st' = st_progress st ++ [(index, total)]).
Proof.
  intros Hnever Hfile Hbig Hprobe Hdur Htmp Hbr Hcmd Hrc Hsome Hf0.
  pose proof (with_suffix_tmp_neq _ _ Htmp) as Hne.
  split.
  - intros Hrungs.
    destruct (reencode_loop_step w max_gb max_bytes ffmpeg_path ce total index
                file_path final_files st rest _ _ _
                (reencode_part_ladder_exhausted w max_gb max_bytes ffmpeg_path ce
                   total index file_path tmp_file final_files st f meta
                   target_bitrate cmd Hnever Hfile Hbig Hprobe Hdur Htmp Hbr Hcmd
                   f0 Hrc Hsome Hf0 Hrungs))
      as (st' & E & Hfs & Hpr).
    exists st'. split; [exact E|]. split; [exact Hfs|].
    rewrite Hfs. split; [|split; [apply lookup_delete_eq|exact Hpr]].
    rewrite lookup_delete_ne; [exact Hfile|exact Hne].
  - intros pre crf post g Hrungs Hpre Hrc' Hg Hsize.
    destruct (reencode_loop_step w max_gb max_bytes ffmpeg_path ce total index
                file_path final_files st rest _ _ _
                (reencode_part_ladder_accepted w max_gb max_bytes ffmpeg_path ce
                   total index file_path tmp_file final_files st f meta
                   target_bitrate cmd Hnever Hfile Hbig Hprobe Hdur Htmp Hbr Hcmd
                   f0 pre crf post g Hrc Hsome Hf0 Hrungs Hpre Hrc' Hg Hsize))
      as (st' & E & Hfs & Hpr).
    exists st'. split; [exact E|]. split; [exact Hfs|].
    rewrite Hfs. split; [apply lookup_insert_eq|]. split; [|exact Hpr].
    rewrite lookup_insert_ne by (intros Heq; apply Hne; symmetry; exact Heq).
    apply lookup_delete_eq.
Qed.

(** Every encode leaves a file of 1.5 GiB under a limit of 1 GB: the first
    of two parts stays the original and the loop goes on with the second. *)
Lemma reencode_loop_ladder_outcome_witness :
  exists st' : state,
    reencode_loop (encoder_world 0 (Some encoded)) (F64.of_Z 1) GiB "ffmpeg" None
      (Some QueueProgress) 2 1 [part0; part1] [] parts_state
    = reencode_loop (encoder_world 0 (Some encoded)) (F64.of_Z 1) GiB "ffmpeg" None
        (Some QueueProgress) 2 (1 + 1) [part1] ([] ++ [part0]) st'
    /\ st_fs st' = delete tmp0 (st_fs parts_state)
    /\ st_fs st' !! part0 = Some original0
    /\ st_fs st' !! tmp0 = None
    /\ st_progress st' = st_progress parts_state ++ [(1, 2)].
Proof.
  refine (proj1 (reencode_loop_ladder_outcome (encoder_world 0 (Some encoded))
                   (F64.of_Z 1) GiB "ffmpeg" None 2 1 part0 tmp0 [part1] []
                   parts_state original0 encoded
                   _ _ _ I eq_refl eq_refl _ _ _ _ _ _ _ _) _).
  - vm_compute. reflexivity.
  - reflexivity.
  - reflexivity.
  - vm_compute. reflexivity.
  - vm_compute. reflexivity.
  - reflexivity.
  - reflexivity.
  - reflexivity.
  - repeat constructor; intros f0 [= <-]; reflexivity.
Defined.

(** C3, as stated, fails: a bitrate-targeted encode that exits with a
    non-zero status raises [CalledProcessError] out of the enforcer; no
    progress event is emitted for the part and the next part is never
    looked at. *)
Lemma reencode_oversize_failure_counterexample :
  (exists cmd : list string,
     fst (reencode_oversize (encoder_world 1 None) [part0; part1] (F64.of_Z 1)
            "ffmpeg" None (Some QueueProgress) parts_state)
     = Raise (CalledProcessError 1 cmd))
  /\ st_progress (snd (reencode_oversize (encoder_world 1 None) [part0; part1] (F64.of_Z 1)
                         "ffmpeg" None (Some QueueProgress) parts_state)) = [].
Proof.
  split; [eexists|]; vm_compute; reflexivity.
Qed.

(** C3, amended.  For an oversize part whose bitrate-targeted encode runs to
    its end with status 0 and leaves no temporary file, the enforcer keeps
    the original file unmodified, emits the part's progress event and goes
    on to the next part.  When the encode ends with a non-zero status, the
    enforcer raises [CalledProcessError] instead: the original file is
    unmodified, no progress event is emitted for the part and the remaining
    parts are not looked at. *)
Theorem reencode_loop_encode_failure (w : world) (max_gb : float) (max_bytes : Z)
    (ffmpeg_path : path) (ce : option Event) (total index : Z)
    (file_path tmp_file : path) (rest final_files : list path) (st : state)
    (f : file) (meta : metadata) (target_bitrate : Z) (cmd : list string) :
  never_set ce ->
  st_fs st !! file_path = Some f ->
  max_bytes < f_size f ->
  fst (probe w file_path st) = Ok meta ->
  F64.leb (md_duration meta) F64.zero = false ->
  with_suffix file_path ".tmp.mp4" = Ok tmp_file ->
  _calculate_bitrate (md_duration meta) max_gb = Ok target_bitrate ->
  bitrate_args ffmpeg_path file_path tmp_file target_bitrate = Ok cmd ->
  (p_returncode (w_popen w cmd (delete tmp_file (st_fs st))) = 0 ->
   p_file (w_popen w cmd (delete tmp_file (st_fs st))) = None ->
   exists st' : state,
     reencode_loop w max_gb max_bytes ffmpeg_path ce (Some QueueProgress)
       total index (file_path :: rest) final_files st
     = reencode_loop w max_gb max_bytes ffmpeg_path ce (Some QueueProgress)
         total (index + 1) rest (final_files ++ [file_path]) st'
     /\ st_fs st' = delete tmp_file (st_fs st)
     /\ st_fs st' !! file_path = Some f
     /\ st_progress st' = st_progress st ++ [(index, total)])
  /\ (p_returncode (w_popen w cmd (delete tmp_file (st_fs st))) <> 0 ->
      exists st' : state,
        reencode_loop w max_gb max_bytes ffmpeg_path ce (Some QueueProgress)
          total index (file_path :: rest) final_files st
        = (Raise (CalledProcessError
                    (p_returncode (w_popen w cmd (delete tmp_file (st_fs st)))) cmd),
           st')
        /\ st_fs st' !! file_path = Some f
        /\ st_progress st' = st_progress st).
Proof.
  intros Hnever Hfile Hbig Hprobe Hdur Htmp Hbr Hcmd.
  assert (Hkept : delete tmp_file (st_fs st) !! file_path = Some f).
  { rewrite lookup_delete_ne; [exact Hfile|]. apply (with_suffix_tmp_neq _ _ Htmp). }
  split.
  - intros Hrc Hnone.
    destruct (reencode_loop_step w max_gb max_bytes ffmpeg_path ce total index
                file_path final_files st rest _ _ _
                (reencode_part_no_output w max_gb max_bytes ffmpeg_path ce
                   total index file_path tmp_file final_files st f meta
                   target_bitrate cmd Hnever Hfile Hbig Hprobe Hdur Htmp Hbr Hcmd Hrc
                   Hnone))
      as (st' & E & Hfs & Hpr).
    exists st'. split; [exact E|]. split; [exact Hfs|].
    rewrite Hfs. split; [exact Hkept|exact Hpr].
  - intros Hrc.
    destruct (reencode_loop_raise w max_gb max_bytes ffmpeg_path ce total index
                file_path final_files st rest _ _ _
                (reencode_part_encode_fails w max_gb max_bytes ffmpeg_path ce
                   total index file_path tmp_file final_files st f meta
                   target_bitrate cmd Hnever Hfile Hbig Hprobe Hdur Htmp Hbr Hcmd Hrc))
      as (st' & E & Hfs & Hpr).
    exists st'. split; [exact E|]. split; [|exact Hpr].
    rewrite Hfs. destruct (p_file _) as [f0|]; [|exact Hkept].
    rewrite lookup_insert_ne; [exact Hkept|].
    apply (with_suffix_tmp_neq _ _ Htmp).
Qed.

(** An encode that exits with status 0 and writes nothing: the first of two
    parts is kept and the loop goes on with the second. *)
Lemma reencode_loop_encode_failure_witness :
  exists st' : state,
    reencode_loop (encoder_world 0 None) (F64.of_Z 1) GiB "ffmpeg" None
      (Some QueueProgress) 2 1 [part0; part1] [] parts_state
    = reencode_loop (encoder_world 0 None) (F64.of_Z 1) GiB "ffmpeg" None
        (Some QueueProgress) 2 (1 + 1) [part1] ([] ++ [part0]) st'
    /\ st_fs st' = delete tmp0 (st_fs parts_state)
    /\ st_fs st' !! part0 = Some original0
    /\ st_progress st' = st_progress parts_state ++ [(1, 2)].
Proof.
  refine (proj1 (reencode_loop_encode_failure (encoder_world 0 None) (F64.of_Z 1)
                   GiB "ffmpeg" None 2 1 part0 tmp0 [part1] [] parts_state original0
                   _ _ _ I eq_refl eq_refl _ _ _ _ _) _ _).
  - vm_compute. reflexivity.
  - reflexivity.
  - reflexivity.
  - vm_compute. reflexivity.
  - vm_compute. reflexivity.
  - reflexivity.
  - reflexivity.
Defined.

(* --------------------------------------------------------------------- *)
(** ** Every run: rules, and the safety of one part *)
(* --------------------------------------------------------------------- *)

Section TripleRules.

Context {A B : Type}.
Implicit Types (R : fsys -> list (Z * Z) -> Prop) (E : exn -> fsys -> list (Z * Z) -> Prop).

Lemma triple_ret R (a : A) (Q : A -> fsys -> list (Z * Z) -> Prop) E :
  (forall fs pr, R fs pr -> Q a fs pr) -> triple R (ret a) Q E.
Proof. intros H st HR. apply H, HR. Qed.

Lemma triple_raise R (e : exn) (Q : A -> fsys -> list (Z * Z) -> Prop) E :
  (forall fs pr, R fs pr -> E e fs pr) -> triple R (raise e) Q E.
Proof. intros H st HR. apply H, HR. Qed.

Lemma triple_lift R (r : result A) (Q : A -> fsys -> list (Z * Z) -> Prop) E :
  (forall a fs pr, r = Ok a -> R fs pr -> Q a fs pr) ->
  (forall e fs pr, r = Raise e -> R fs pr -> E e fs pr) ->
  triple R (lift r) Q E.
Proof. intros HQ HE st HR. unfold lift. destruct r; [apply HQ|apply HE]; auto. Qed.

Lemma triple_bind R (m : M A) (k : A -> M B)
    (R1 : A -> fsys -> list (Z * Z) -> Prop)
    (Q : B -> fsys -> list (Z * Z) -> Prop) E :
  triple R m R1 E ->
  (forall a, triple (R1 a) (k a) Q E) ->
  triple R (bind m k) Q E.
Proof.
  intros Hm Hk st HR. specialize (Hm st HR). unfold bind.
  destruct (m st) as [[a|e] st1]; [|exact Hm].
  apply (Hk a st1 Hm).
Qed.

Lemma triple_conseq R R' (m : M A) (Q Q' : A -> fsys -> list (Z * Z) -> Prop) E E' :
  triple R' m Q' E' ->
  (forall fs pr, R fs pr -> R' fs pr) ->
  (forall a fs pr, Q' a fs pr -> Q a fs pr) ->
  (forall e fs pr, E' e fs pr -> E e fs pr) ->
  triple R m Q E.
Proof.
  intros Hm HR HQ HE st Hst. specialize (Hm st (HR _ _ Hst)).
  destruct (m st) as [[a|e] st1]; [apply HQ|apply HE]; exact Hm.
Qed.

(** A computation that changes neither the files nor the events keeps
    whatever held of them. *)
Lemma triple_unchanged R (m : M A) :
  unchanged m ->
  triple R m (fun _ => R) (fun _ => R).
Proof.
  intros Hm st HR. destruct (Hm st) as [Hfs Hpr].
  destruct (m st) as [[a|e] st1]; cbn [snd] in *; rewrite Hfs, Hpr; exact HR.
Qed.

(** [try ... except]: the handler starts from what the raise left. *)
Lemma triple_try R (m : M A) (h : exn -> option (M A))
    (Q : A -> fsys -> list (Z * Z) -> Prop) E
    (E1 : exn -> fsys -> list (Z * Z) -> Prop) :
  triple R m Q E1 ->
  (forall e handler, h e = Some handler -> triple (E1 e) handler Q E) ->
  (forall e fs pr, h e = None -> E1 e fs pr -> E e fs pr) ->
  triple R (try_except m h) Q E.
Proof.
  intros Hm Hh Hn st HR. specialize (Hm st HR). unfold try_except.
  destruct (m st) as [[a|e] st1]; [exact Hm|].
  destruct (h e) as [handler|] eqn:He.
  - apply (Hh e handler He st1 Hm).
  - apply Hn; assumption.
Qed.

End TripleRules.

Section TripleOps.

Implicit Types (R : fsys -> list (Z * Z) -> Prop) (E : exn -> fsys -> list (Z * Z) -> Prop).

Lemma unchanged_ret {A : Type} (a : A) : unchanged (ret a).
Proof. intros st. split; reflexivity. Qed.

Lemma unchanged_raise {A : Type} (e : exn) : unchanged (raise e : M A).
Proof. intros st. split; reflexivity. Qed.

Lemma unchanged_lift {A : Type} (r : result A) : unchanged (lift r).
Proof. intros st. split; reflexivity. Qed.

Lemma unchanged_log (r : log_record) : unchanged (log r).
Proof. intros st. split; reflexivity. Qed.

Lemma unchanged_proc (e : proc_event) : unchanged (proc e).
Proof. intros st. split; reflexivity. Qed.

Lemma unchanged_bind {A B : Type} (m : M A) (k : A -> M B) :
  unchanged m -> (forall a, unchanged (k a)) -> unchanged (bind m k).
Proof.
  intros Hm Hk st. specialize (Hm st). unfold bind.
  destruct (m st) as [[a|e] st1]; cbn [snd] in *; [|exact Hm].
  destruct (Hk a st1) as [H1 H2]. destruct Hm as [H3 H4].
  split; congruence.
Qed.

Lemma unchanged_cancel_requested (ce : option Event) : unchanged (cancel_requested ce).
Proof. destruct ce as [ev|]; intros st; split; reflexivity. Qed.

Lemma unchanged_check_cancel (ce : option Event) : unchanged (_check_cancel ce).
Proof.
  unfold _check_cancel. apply unchanged_bind; [apply unchanged_cancel_requested|].
  intros [|]; [apply unchanged_raise|apply unchanged_ret].
Qed.

Lemma unchanged_of_run_spec {A : Type} (m : M A) :
  (forall fs pr, exists r, run_spec fs pr m r fs pr) -> unchanged m.
Proof.
  intros H st. destruct (H (st_fs st) (st_progress st)) as [r Hr].
  destruct (Hr st eq_refl eq_refl) as (st' & -> & Hfs & Hpr). auto.
Qed.

(** The prober changes no file and emits no progress event. *)
Lemma unchanged_probe (w : world) (input_path : path) : unchanged (probe w input_path).
Proof. apply unchanged_of_run_spec. intros fs pr. apply run_spec_probe. Qed.

Lemma unchanged_captured (w : world) (args : list string) (ce : option Event)
    (lvl : level) (enc : option codec) :
  unchanged (run_command w args true ce lvl enc).
Proof. apply unchanged_of_run_spec. intros fs pr. apply run_spec_captured. Qed.

Lemma triple_log R (r : log_record) E :
  triple R (log r) (fun _ => R) E.
Proof. intros st HR. exact HR. Qed.

Lemma triple_emit R (current total : Z) E :
  triple R (emit_progress current total)
    (fun _ fs pr => exists pr0, pr = pr0 ++ [(current, total)] /\ R fs pr0) E.
Proof. intros st HR. cbn. eauto. Qed.

Lemma triple_check_cancel R (ce : option Event) :
  triple R (_check_cancel ce) (fun _ => R) (fun _ => R).
Proof. apply triple_unchanged, unchanged_check_cancel. Qed.

Lemma triple_path_exists R (p : path) E :
  triple R (path_exists p)
    (fun b fs pr => R fs pr /\ b = match fs !! p with Some _ => true | None => false end) E.
Proof. intros st HR. cbn. auto. Qed.

Lemma triple_stat_size R (p : path) :
  triple R (stat_size p)
    (fun n fs pr => R fs pr /\ exists f, fs !! p = Some f /\ n = f_size f)
    (fun _ fs pr => R fs pr /\ fs !! p = None).
Proof.
  intros st HR. unfold stat_size, bind, get_fs.
  destruct (st_fs st !! p) as [f|] eqn:E; cbn; eauto.
Qed.

Lemma triple_unlink R (p : path) (missing_ok : bool) :
  triple R (path_unlink p missing_ok)
    (fun _ fs pr => exists fs0, R fs0 pr /\ fs = delete p fs0)
    (fun _ fs pr => R fs pr).
Proof.
  intros st HR. unfold path_unlink, bind, get_fs.
  destruct (st_fs st !! p) as [f|] eqn:E; cbn.
  - eauto.
  - destruct missing_ok; cbn; [|exact HR].
    exists (st_fs st). split; [exact HR|]. symmetry. apply delete_id. exact E.
Qed.

Lemma triple_replace R (src dst : path) :
  triple R (path_replace src dst)
    (fun _ fs pr => exists fs0 f, R fs0 pr /\ fs0 !! src = Some f
                                /\ fs = <[dst := f]> (delete src fs0))
    (fun _ fs pr => R fs pr).
Proof.
  intros st HR. unfold path_replace, bind, get_fs.
  destruct (st_fs st !! src) as [f|] eqn:E; cbn; eauto.
Qed.

End TripleOps.

Section TripleProcess.

Implicit Types (R : fsys -> list (Z * Z) -> Prop).

Variables (w : world) (ce : option Event).

(** The streaming loop, whatever the signal does: it emits no event; it
    leaves the files alone when it ends, and when it is cancelled the only
    change is what the child left at its output operand. *)
Lemma stream_lines_effect (p : process) (args : list string) (lvl : level)
    (lines : list text) :
  forall (n : nat) (st : state),
  exists (r : result unit) (st' : state),
    stream_lines p args ce lvl n lines st = (r, st')
    /\ st_progress st' = st_progress st
    /\ ((exists a, r = Ok a /\ st_fs st' = st_fs st)
        \/ (exists e x, r = Raise e /\ st_fs st' = file_left args x (st_fs st))).
Proof.
  induction lines as [|line rest IH]; intros n st.
  - exists (Ok tt), st. split; [reflexivity|]. split; [reflexivity|]. left. eauto.
  - cbn [stream_lines]. unfold bind at 1. cbn [log].
    match goal with |- context [bind (cancel_requested ce) ?k ?s] =>
      set (st0 := s);
      pose proof (unchanged_cancel_requested ce st0) as Hst1;
      destruct (cancel_requested ce st0) as [[b|e] st1] eqn:Ec
    end.
    + rewrite (bind_ok _ _ _ _ _ Ec). cbn [snd] in Hst1. destruct Hst1 as [Hfs Hpr].
      subst st0. cbn [st_fs st_progress] in Hfs, Hpr.
      destruct b.
      * destruct (p_exits_in_grace p (S n)); eexists _, _;
          (split; [reflexivity|]); cbn; rewrite ?Hfs, ?Hpr;
          (split; [reflexivity|]); right; eauto.
      * destruct (IH (S n) st1) as (r & st' & E & IHp & IHf).
        exists r, st'. split; [exact E|]. rewrite IHp, Hpr.
        split; [reflexivity|]. rewrite <- Hfs. exact IHf.
    + destruct ce as [ev|]; discriminate.
Qed.

Lemma triple_stream R (args : list string) (lvl : level) (enc : option codec) :
  triple R (run_command w args false ce lvl enc)
    (fun _ fs pr => exists fs0 x, R fs0 pr /\ fs = file_left args x fs0)
    (fun _ fs pr => exists fs0 x, R fs0 pr /\ fs = file_left args x fs0).
Proof.
  intros st HR. unfold run_command.
  unfold bind at 1. cbn [log]. cbn match.
  unfold bind at 1. cbn [get_fs st_fs].
  unfold bind at 1. cbn [proc].
  unfold bind at 1.
  match goal with |- context [stream_lines ?p ?a ?c ?l ?n ?ls ?s] =>
    destruct (stream_lines_effect p a l ls n s) as (r & st1 & -> & Hpr & Hfs)
  end; cbn [fst snd st_fs st_progress] in *.
  destruct Hfs as [(a & -> & Hfs)|(e & x & -> & Hfs)].
  - cbn. destruct (_ =? 0); cbn; rewrite ?Hfs, ?Hpr;
      exists (st_fs st); eexists; (split; [exact HR|reflexivity]).
  - rewrite Hfs, Hpr. exists (st_fs st), x. auto.
Qed.

Variables (ffmpeg_path source destination : path).

Lemma triple_encode_crf R (crf : Z) :
  triple R (_encode_with_crf w source destination ffmpeg_path crf ce)
    (fun _ fs pr => exists fs0 x, R fs0 pr /\ fs = wrote destination x fs0)
    (fun _ fs pr => exists fs0 x, R fs0 pr /\ fs = wrote destination x fs0).
Proof.
  unfold _encode_with_crf.
  eapply triple_bind with
    (R1 := fun _ fs pr => exists fs0 x, R fs0 pr /\ fs = wrote destination x fs0);
    [|intros a; apply triple_ret; auto].
  eapply triple_conseq; [apply (triple_stream R)|intros fs pr H; exact H|..];
    intros a fs pr (fs0 & x & HR & ->); exists fs0, x; (split; [exact HR|]);
    unfold file_left, wrote; rewrite crf_args_operand; reflexivity.
Qed.

Lemma triple_encode_bitrate R (video_bitrate : Z) :
  triple R (_encode_with_target_bitrate w source destination ffmpeg_path video_bitrate ce)
    (fun _ fs pr => exists fs0 x, R fs0 pr /\ fs = wrote destination x fs0)
    (fun _ fs pr => exists fs0 x, R fs0 pr /\ fs = wrote destination x fs0).
Proof.
  unfold _encode_with_target_bitrate.
  eapply triple_bind with
    (R1 := fun cmd fs pr =>
             R fs pr /\ bitrate_args ffmpeg_path source destination video_bitrate = Ok cmd).
  - apply triple_lift.
    + intros cmd fs pr Hc HR. auto.
    + intros e fs pr _ HR. exists fs, None. auto.
  - intros cmd.
    eapply triple_bind with
      (R1 := fun _ fs pr => exists fs0 x, R fs0 pr /\ fs = wrote destination x fs0);
      [|intros a; apply triple_ret; auto].
    eapply triple_conseq;
      [apply (triple_stream (fun fs pr => R fs pr /\ bitrate_args ffmpeg_path source destination video_bitrate = Ok cmd))
      |intros fs pr H; exact H|..];
      intros a fs pr (fs0 & x & [HR Hc] & ->); exists fs0, x; (split; [exact HR|]);
      unfold file_left, wrote;
      rewrite (bitrate_args_operand ffmpeg_path source destination _ _ Hc); reflexivity.
Qed.

End TripleProcess.

Section TripleSteps.

Implicit Types (R : fsys -> list (Z * Z) -> Prop) (E : exn -> fsys -> list (Z * Z) -> Prop).

Lemma step_unchanged {A : Type} R (m : M A) E :
  unchanged m ->
  (forall e fs pr, R fs pr -> E e fs pr) ->
  triple R m (fun _ => R) E.
Proof.
  intros Hm HE. eapply triple_conseq; [apply (triple_unchanged R m Hm)|auto..].
Qed.

Lemma step_lift {A : Type} R (r : result A) E :
  (forall e fs pr, r = Raise e -> R fs pr -> E e fs pr) ->
  triple R (lift r) (fun a fs pr => R fs pr /\ r = Ok a) E.
Proof. intros HE. apply triple_lift; auto. Qed.

Lemma step_stat_size R (p : path) E :
  (forall e fs pr, R fs pr -> E e fs pr) ->
  triple R (stat_size p)
    (fun n fs pr => R fs pr /\ exists f, fs !! p = Some f /\ n = f_size f) E.
Proof.
  intros HE. eapply triple_conseq; [apply (triple_stat_size R p)|auto|auto|].
  intros e fs pr [H _]. auto.
Qed.

Lemma step_unlink R (p : path) (missing_ok : bool) E :
  (forall e fs pr, R fs pr -> E e fs pr) ->
  triple R (path_unlink p missing_ok)
    (fun _ fs pr => exists fs1, R fs1 pr /\ fs = delete p fs1) E.
Proof.
  intros HE. eapply triple_conseq; [apply (triple_unlink R p missing_ok)|auto..].
Qed.

Lemma step_replace R (src dst : path) E :
  (forall e fs pr, R fs pr -> E e fs pr) ->
  triple R (path_replace src dst)
    (fun _ fs pr => exists fs1 f, R fs1 pr /\ fs1 !! src = Some f
                                /\ fs = <[dst := f]> (delete src fs1)) E.
Proof.
  intros HE. eapply triple_conseq; [apply (triple_replace R src dst)|auto..].
Qed.

Lemma step_encode_crf R (w : world) (ce : option Event)
    (ffmpeg_path source destination : path) (crf : Z) E :
  (forall e fs pr x, R fs pr -> E e (wrote destination x fs) pr) ->
  triple R (_encode_with_crf w source destination ffmpeg_path crf ce)
    (fun _ fs pr => exists fs1 x, R fs1 pr /\ fs = wrote destination x fs1) E.
Proof.
  intros HE. eapply triple_conseq; [apply (triple_encode_crf w ce _ _ _ R)|auto|auto|].
  intros e fs pr (fs1 & x & HR & ->). auto.
Qed.

Lemma step_encode_bitrate R (w : world) (ce : option Event)
    (ffmpeg_path source destination : path) (video_bitrate : Z) E :
  (forall e fs pr x, R fs pr -> E e (wrote destination x fs) pr) ->
  triple R (_encode_with_target_bitrate w source destination ffmpeg_path video_bitrate ce)
    (fun _ fs pr => exists fs1 x, R fs1 pr /\ fs = wrote destination x fs1) E.
Proof.
  intros HE. eapply triple_conseq; [apply (triple_encode_bitrate w ce _ _ _ R)|auto|auto|].
  intros e fs pr (fs1 & x & HR & ->). auto.
Qed.

(** A fact that is no matter of the state moves out of the precondition. *)
Lemma triple_pre_pure {A : Type} R (P : Prop) (m : M A)
    (Q : A -> fsys -> list (Z * Z) -> Prop) E :
  (P -> triple R m Q E) -> triple (fun fs pr => R fs pr /\ P) m Q E.
Proof. intros H st [HR HP]. apply (H HP st HR). Qed.

Lemma seqZ_one (i : Z) : seqZ i 1 = [i].
Proof. reflexivity. Qed.

(** How every branch of the loop body ends. *)
Lemma step_keep R (cb : option ProgressCallback) (index total : Z) (file_path : path)
    (final_files : list path) (Q : list path -> fsys -> list (Z * Z) -> Prop) E :
  (forall fs pr, R fs pr ->
     Q (final_files ++ [file_path]) fs (pr ++ progress_events cb total index 1)) ->
  triple R (keep_part cb index total file_path final_files) Q E.
Proof.
  intros HQ st HR. unfold keep_part, bind.
  destruct cb as [[]|]; cbn.
  - apply (HQ _ _ HR).
  - specialize (HQ _ _ HR). cbn in HQ. rewrite app_nil_r in HQ. exact HQ.
Qed.

End TripleSteps.

Section PartSafety.

Variables (w : world) (max_gb : float) (max_bytes : Z) (ffmpeg_path : path)
          (ce : option Event) (cb : option ProgressCallback) (total index : Z)
          (file_path : path) (final_files : list path)
          (fs0 : fsys) (pr0 : list (Z * Z)).

(** The files differ from the first ones at most at [tmp]; no event was
    emitted yet. *)
Let near (tmp : path) (fs : fsys) (pr : list (Z * Z)) : Prop :=
  pr = pr0 /\ forall q, q <> tmp -> fs !! q = fs0 !! q.

Let fits (tmp : path) (fs : fsys) : Prop :=
  forall g, fs !! tmp = Some g -> f_size g <= max_bytes.

Let safe (fs : fsys) : Prop :=
  (forall f, fs0 !! file_path = Some f -> part_kept max_bytes file_path f fs)
  /\ (forall q, q <> file_path -> with_suffix file_path ".tmp.mp4" <> Ok q ->
                fs !! q = fs0 !! q).

Lemma safe_start : safe fs0.
Proof. split; [intros f Hf; exists f; auto|auto]. Qed.

Lemma near_wrote (tmp : path) (x : option file) (fs : fsys) (pr : list (Z * Z)) :
  near tmp fs pr -> near tmp (wrote tmp x fs) pr.
Proof.
  intros [Hpr H]. split; [exact Hpr|]. intros q Hq.
  destruct x as [g|]; cbn; [rewrite lookup_insert_ne by auto|]; auto.
Qed.

Lemma near_delete (tmp : path) (fs : fsys) (pr : list (Z * Z)) :
  near tmp fs pr -> near tmp (delete tmp fs) pr /\ delete tmp fs !! tmp = None.
Proof.
  intros [Hpr H]. split; [|apply lookup_delete_eq]. split; [exact Hpr|].
  intros q Hq. rewrite lookup_delete_ne by auto. auto.
Qed.

Lemma near_safe (tmp : path) (fs : fsys) (pr : list (Z * Z)) :
  with_suffix file_path ".tmp.mp4" = Ok tmp ->
  near tmp fs pr -> pr = pr0 /\ safe fs.
Proof.
  intros Htmp [Hpr H]. split; [exact Hpr|].
  pose proof (with_suffix_tmp_neq _ _ Htmp) as Hne.
  split.
  - intros f Hf. exists f. rewrite H by auto. auto.
  - intros q _ Hq. apply H. intros ->. apply Hq. exact Htmp.
Qed.

(** The ladder, whatever the encoders and the signal do: it only ever
    writes and deletes the temporary file, and a file it leaves there is
    within the limit. *)
Lemma crf_ladder_triple (tmp : path) (rungs : list Z) :
  triple (fun fs pr => near tmp fs pr /\ fs !! tmp = None)
    (crf_ladder w file_path tmp ffmpeg_path max_bytes ce rungs)
    (fun _ fs pr => near tmp fs pr /\ fits tmp fs)
    (fun _ fs pr => near tmp fs pr).
Proof.
  induction rungs as [|crf rest IH]; cbn [crf_ladder].
  - apply triple_ret. intros fs pr [Hn Hnone]. split; [exact Hn|].
    intros g Hg. congruence.
  - eapply triple_bind;
      [apply step_unchanged; [apply unchanged_check_cancel|intros e fs pr [Hn _]; exact Hn]|].
    intros ?.
    eapply triple_bind with (R1 := fun _ fs pr => near tmp fs pr).
    { eapply triple_conseq;
        [apply step_encode_crf with (E := fun _ fs pr => near tmp fs pr)
        |intros fs pr H; exact H| |intros e fs pr H; exact H].
      - intros e fs pr x [Hn _]. apply near_wrote, Hn.
      - intros _ fs pr (fs1 & x & [Hn _] & ->). apply near_wrote, Hn. }
    intros ?.
    eapply triple_bind; [apply triple_path_exists|].
    intros found. destruct found; cbn [negb].
    + eapply triple_bind with
        (R1 := fun n fs pr => near tmp fs pr
                              /\ exists g, fs !! tmp = Some g /\ n = f_size g).
      { eapply triple_conseq;
          [apply step_stat_size with (E := fun _ fs pr => near tmp fs pr)
          |intros fs pr H; exact H| |intros e fs pr H; exact H].
        - intros e fs pr [Hn _]. exact Hn.
        - intros n fs pr [[Hn _] Hg]. auto. }
      intros new_size.
      destruct (Z.leb_spec new_size max_bytes) as [Hle|Hgt].
      * eapply triple_conseq;
          [apply triple_log with (E := fun _ fs pr => near tmp fs pr)
          |intros fs pr H; exact H| |intros e fs pr H; exact H].
        intros _ fs pr [Hn (g & Hg & ->)]. split; [exact Hn|].
        intros g' Hg'. congruence.
      * eapply triple_bind; [apply triple_log|]. intros ?.
        eapply triple_bind with (R1 := fun _ fs pr => near tmp fs pr /\ fs !! tmp = None).
        { eapply triple_conseq;
            [apply step_unlink with (E := fun _ fs pr => near tmp fs pr)
            |intros fs pr H; exact H| |intros e fs pr H; exact H].
          - intros e fs pr [Hn _]. exact Hn.
          - intros _ fs pr (fs1 & [Hn _] & ->). apply near_delete, Hn. }
        intros ?. exact IH.
    + eapply triple_conseq; [exact IH| |auto|auto].
      intros fs pr [Hn Hf]. split; [exact Hn|].
      destruct (fs !! tmp); [discriminate|reflexivity].
Qed.

Let Qfin (l : list path) (fs : fsys) (pr : list (Z * Z)) : Prop :=
  l = final_files ++ [file_path]
  /\ pr = pr0 ++ progress_events cb total index 1 /\ safe fs.

Let Efin (_ : exn) (fs : fsys) (pr : list (Z * Z)) : Prop :=
  pr = pr0 /\ safe fs.

Lemma safe_replaced (tmp : path) (g : file) (fs1 : fsys) (pr : list (Z * Z)) :
  with_suffix file_path ".tmp.mp4" = Ok tmp ->
  near tmp fs1 pr -> fits tmp fs1 -> fs1 !! tmp = Some g ->
  safe (<[file_path := g]> (delete tmp fs1)).
Proof.
  intros Htmp [_ Hn] Hfits Hg. split.
  - intros f _. exists g. rewrite lookup_insert_eq. split; [reflexivity|].
    right. apply Hfits, Hg.
  - intros q Hq Hq'. rewrite lookup_insert_ne by auto.
    assert (q <> tmp) by (intros ->; apply Hq'; exact Htmp).
    rewrite lookup_delete_ne by auto. auto.
Qed.

(** One part, whatever the prober, the encoders and the signal do. *)
Lemma reencode_part_triple :
  triple (fun fs pr => fs = fs0 /\ pr = pr0)
    (reencode_part w max_gb max_bytes ffmpeg_path ce cb total index file_path
       final_files)
    Qfin Efin.
Proof.
  assert (Hstart : forall e fs pr, fs = fs0 /\ pr = pr0 -> Efin e fs pr).
  { intros e fs pr [-> ->]. split; [reflexivity|apply safe_start]. }
  assert (Hkeep0 : triple (fun fs pr => fs = fs0 /\ pr = pr0)
                     (keep_part cb index total file_path final_files) Qfin Efin).
  { apply step_keep. intros fs pr [-> ->]. repeat split; apply safe_start. }
  unfold reencode_part.
  eapply triple_bind;
    [apply step_unchanged; [apply unchanged_check_cancel|exact Hstart]|].
  intros ?.
  eapply triple_bind with (R1 := fun _ fs pr => fs = fs0 /\ pr = pr0).
  { eapply triple_conseq;
      [apply step_stat_size with (E := Efin); exact Hstart
      |intros fs pr H; exact H|intros n fs pr [H _]; exact H|intros e fs pr H; exact H]. }
  intros size.
  destruct (size <=? max_bytes).
  { eapply triple_bind; [apply triple_log|]. intros ?. exact Hkeep0. }
  eapply triple_bind; [apply triple_log|]. intros ?.
  eapply triple_bind;
    [apply step_unchanged; [apply unchanged_probe|exact Hstart]|].
  intros meta. cbn zeta.
  destruct (F64.leb (md_duration meta) F64.zero).
  { eapply triple_bind; [apply triple_log|]. intros ?. exact Hkeep0. }
  eapply triple_bind with
    (R1 := fun tmp fs pr => (fs = fs0 /\ pr = pr0)
                            /\ with_suffix file_path ".tmp.mp4" = Ok tmp).
  { apply step_lift. intros e fs pr _ H. apply (Hstart e), H. }
  intros tmp. apply triple_pre_pure. intros Htmp.
  assert (HnearE : forall e fs pr, near tmp fs pr -> Efin e fs pr).
  { intros e fs pr Hn. apply (near_safe tmp); assumption. }
  assert (Hnear0 : near tmp fs0 pr0) by (split; auto).
  assert (Hkeep : triple (near tmp)
                    (keep_part cb index total file_path final_files) Qfin Efin).
  { apply step_keep. intros fs pr Hn.
    destruct (near_safe tmp fs pr Htmp Hn) as [-> Hs]. repeat split; apply Hs. }
  eapply triple_bind; [apply triple_path_exists|]. intros stale.
  eapply triple_bind with (R1 := fun _ fs pr => near tmp fs pr /\ fs !! tmp = None).
  { destruct stale.
    - eapply triple_conseq;
        [apply step_unlink with (E := Efin)
        |intros fs pr H; exact H| |intros e fs pr H; exact H].
      + intros e fs pr [H _]. apply (Hstart e), H.
      + intros ? fs pr (fs1 & [[-> ->] _] & ->). apply near_delete, Hnear0.
    - apply triple_ret. intros fs pr [[-> ->] Hb]. split; [exact Hnear0|].
      destruct (fs0 !! tmp); [discriminate|reflexivity]. }
  intros ?.
  destruct (_calculate_bitrate (md_duration meta) max_gb) as [target_bitrate|e].
  2: { destruct e;
         try (apply triple_raise; intros fs pr [Hn _]; apply HnearE, Hn).
       eapply triple_bind; [apply triple_log|]. intros ?.
       eapply triple_conseq; [exact Hkeep|intros fs pr [Hn _]; exact Hn|auto|auto]. }
  eapply triple_bind with (R1 := fun _ fs pr => near tmp fs pr).
  { eapply triple_try with (E1 := fun _ fs pr => near tmp fs pr).
    - eapply triple_conseq;
        [apply step_encode_bitrate with (E := fun _ fs pr => near tmp fs pr)
        |intros fs pr H; exact H| |intros e fs pr H; exact H].
      + intros e fs pr x [Hn _]. apply near_wrote, Hn.
      + intros ? fs pr (fs1 & x & [Hn _] & ->). apply near_wrote, Hn.
    - intros e handler He. destruct e; try discriminate. injection He as <-.
      eapply triple_bind; [apply triple_path_exists|]. intros found.
      eapply triple_bind with (R1 := fun _ fs pr => near tmp fs pr).
      { destruct found.
        - eapply triple_conseq;
            [apply step_unlink with (E := Efin)
            |intros fs pr H; exact H| |intros e fs pr H; exact H].
          + intros e fs pr [Hn _]. apply HnearE, Hn.
          + intros ? fs pr (fs1 & [Hn _] & ->). apply near_delete, Hn.
        - apply triple_ret. intros fs pr [Hn _]. exact Hn. }
      intros ?. apply triple_raise. intros fs pr Hn. apply HnearE, Hn.
    - intros e fs pr _ Hn. apply HnearE, Hn. }
  intros ?.
  eapply triple_bind; [apply triple_path_exists|]. intros found.
  destruct found; cbn [negb].
  2: { eapply triple_bind; [apply triple_log|]. intros ?.
       eapply triple_conseq; [exact Hkeep|intros fs pr [Hn _]; exact Hn|auto|auto]. }
  eapply triple_bind with
    (R1 := fun n fs pr => near tmp fs pr
                          /\ exists g, fs !! tmp = Some g /\ n = f_size g).
  { eapply triple_conseq;
      [apply step_stat_size with (E := Efin)
      |intros fs pr H; exact H| |intros e fs pr H; exact H].
    - intros e fs pr [Hn _]. apply HnearE, Hn.
    - intros n fs pr [[Hn _] Hg]. auto. }
  intros new_size.
  eapply triple_bind with (R1 := fun _ fs pr => near tmp fs pr /\ fits tmp fs).
  { destruct (Z.ltb_spec max_bytes new_size) as [Hgt|Hle].
    - eapply triple_bind; [apply triple_log|]. intros ?.
      eapply triple_bind with
        (R1 := fun _ fs pr => near tmp fs pr /\ fs !! tmp = None).
      { eapply triple_conseq;
          [apply step_unlink with (E := Efin)
          |intros fs pr H; exact H| |intros e fs pr H; exact H].
        - intros e fs pr [Hn _]. apply HnearE, Hn.
        - intros ? fs pr (fs1 & [Hn _] & ->). apply near_delete, Hn. }
      intros ?.
      eapply triple_conseq;
        [apply crf_ladder_triple|intros fs pr H; exact H|intros ? fs pr H; exact H|].
      intros e fs pr Hn. apply HnearE, Hn.
    - apply triple_ret. intros fs pr [Hn (g & Hg & ->)]. split; [exact Hn|].
      intros g' Hg'. assert (g' = g) by congruence. subst g'. exact Hle. }
  intros ?.
  eapply triple_bind; [apply triple_path_exists|]. intros found.
  eapply triple_bind with (R1 := fun _ fs pr => pr = pr0 /\ safe fs).
  { destruct found.
    - eapply triple_bind with (R1 := fun _ fs pr => pr = pr0 /\ safe fs).
      { eapply triple_conseq;
          [apply step_replace with (E := Efin)
          |intros fs pr H; exact H| |intros e fs pr H; exact H].
        - intros e fs pr [[Hn _] _]. apply HnearE, Hn.
        - intros ? fs pr (fs1 & g & [[Hn Hfits] _] & Hg & ->).
          split; [apply Hn|]. apply (safe_replaced tmp g fs1 pr); assumption. }
      intros ?.
      eapply triple_bind with (R1 := fun _ fs pr => pr = pr0 /\ safe fs).
      { eapply triple_conseq;
          [apply step_stat_size with (E := Efin)
          |intros fs pr H; exact H|intros n fs pr [H _]; exact H
          |intros e fs pr H; exact H].
        intros e fs pr H. exact H. }
      intros ?. apply triple_log.
    - eapply triple_conseq;
        [apply triple_log with (E := Efin)
        |intros fs pr H; exact H| |intros e fs pr H; exact H].
      intros ? fs pr [[Hn _] _]. apply (near_safe tmp); assumption. }
  intros ?. apply step_keep. intros fs pr [-> Hs]. repeat split; apply Hs.
Qed.

End PartSafety.

(* --------------------------------------------------------------------- *)
(** ** Every run: the loop and the enforcer *)
(* --------------------------------------------------------------------- *)

Section LoopSafety.

Variables (w : world) (max_gb : float) (ffmpeg_path : path)
          (ce : option Event) (cb : option ProgressCallback).

Lemma progress_events_0 (total first : Z) : progress_events cb total first 0 = [].
Proof. destruct cb as [[]|]; reflexivity. Qed.

Lemma progress_events_S (total first : Z) (n : nat) :
  progress_events cb total first (S n)
  = progress_events cb total first 1 ++ progress_events cb total (first + 1) n.
Proof.
  destruct cb as [[]|]; [|reflexivity]. unfold progress_events.
  rewrite (seqZ_cons first) by lia. rewrite seqZ_one. cbn [List.map app].
  do 3 f_equal; lia.
Qed.

Lemma triple_exact {A : Type} (R : fsys -> list (Z * Z) -> Prop) (m : M A)
    (Q : fsys -> list (Z * Z) -> A -> fsys -> list (Z * Z) -> Prop)
    (E : fsys -> list (Z * Z) -> exn -> fsys -> list (Z * Z) -> Prop) :
  (forall fs0 pr0, R fs0 pr0 ->
     triple (fun fs pr => fs = fs0 /\ pr = pr0) m (Q fs0 pr0) (E fs0 pr0)) ->
  triple R m
    (fun a fs pr => exists fs0 pr0, R fs0 pr0 /\ Q fs0 pr0 a fs pr)
    (fun e fs pr => exists fs0 pr0, R fs0 pr0 /\ E fs0 pr0 e fs pr).
Proof.
  intros H st HR. specialize (H _ _ HR st (conj eq_refl eq_refl)).
  destruct (m st) as [[a|e] st1]; eauto.
Qed.

(** The loop, for any property [K] of the files that each part keeps:
    on return one event was emitted per part; a raise comes before the
    event of the part it strikes. *)
Lemma reencode_loop_triple (max_bytes total : Z) (K : fsys -> Prop)
    (files : list path) :
  forall (index : Z) (final_files : list path) (prB : list (Z * Z)),
    (forall file_path fs0 fs,
       file_path ∈ files -> K fs0 ->
       (forall f, fs0 !! file_path = Some f -> part_kept max_bytes file_path f fs) ->
       (forall q, q <> file_path -> with_suffix file_path ".tmp.mp4" <> Ok q ->
                  fs !! q = fs0 !! q) ->
       K fs) ->
    triple (fun fs pr => K fs /\ pr = prB)
      (reencode_loop w max_gb max_bytes ffmpeg_path ce cb total index files final_files)
      (fun l fs pr =>
         l = final_files ++ files
         /\ pr = prB ++ progress_events cb total index (length files)
         /\ K fs)
      (fun _ fs pr =>
         (exists k : nat, (k < length files)%nat
                          /\ pr = prB ++ progress_events cb total index k)
         /\ K fs).
Proof.
  induction files as [|file_path rest IH]; intros index final_files prB Hstep;
    cbn [reencode_loop].
  - apply triple_ret. intros fs pr [Hk ->].
    rewrite progress_events_0, !app_nil_r. auto.
  - assert (Hin : file_path ∈ file_path :: rest) by left.
    eapply triple_bind with
      (R1 := fun l fs pr =>
               l = final_files ++ [file_path]
               /\ K fs /\ pr = prB ++ progress_events cb total index 1).
    + eapply triple_conseq;
        [apply (triple_exact (fun fs pr => K fs /\ pr = prB));
         intros fs0 pr0 _;
         apply (reencode_part_triple w max_gb max_bytes ffmpeg_path ce cb total index
                  file_path final_files fs0 pr0)
        |intros fs pr H; exact H|..].
      * intros l fs pr (fs0 & pr0 & [Hk ->] & -> & -> & Hpart & Hframe).
        split; [reflexivity|]. split; [|reflexivity].
        apply (Hstep file_path fs0); assumption.
      * intros e fs pr (fs0 & pr0 & [Hk ->] & -> & Hpart & Hframe). split.
        -- exists 0%nat. cbn [length]. split; [lia|].
           rewrite progress_events_0, app_nil_r. reflexivity.
        -- apply (Hstep file_path fs0); assumption.
    + intros l. eapply triple_conseq;
        [apply triple_pre_pure with
           (R := fun fs pr => K fs /\ pr = prB ++ progress_events cb total index 1)
           (P := l = final_files ++ [file_path]);
         intros ->;
         apply (IH (index + 1) (final_files ++ [file_path])
                  (prB ++ progress_events cb total index 1));
         intros p fs0 fs Hp; apply Hstep; right; exact Hp
        |..].
      * intros fs pr (Hl & Hk & Hpr). auto.
      * intros l' fs pr (-> & -> & Hk). rewrite <- !app_assoc. cbn [app length].
        rewrite (progress_events_S total index (length rest)). auto.
      * intros e fs pr [(k & Hlt & ->) Hk]. split; [|exact Hk].
        exists (S k). cbn [length]. split; [lia|].
        rewrite (progress_events_S total index k), app_assoc. reflexivity.
Qed.

(** The enforcer from its first line on. *)
Lemma reencode_oversize_triple (K : fsys -> Prop) (files : list path)
    (prB : list (Z * Z)) :
  (forall mb file_path fs0 fs,
     gb_to_bytes max_gb = Ok mb ->
     file_path ∈ files -> K fs0 ->
     (forall f, fs0 !! file_path = Some f -> part_kept mb file_path f fs) ->
     (forall q, q <> file_path -> with_suffix file_path ".tmp.mp4" <> Ok q ->
                fs !! q = fs0 !! q) ->
     K fs) ->
  triple (fun fs pr => K fs /\ pr = prB)
    (reencode_oversize w files max_gb ffmpeg_path ce cb)
    (fun l fs pr =>
       l = files
       /\ pr = prB ++ progress_events cb (Z.of_nat (length files)) 1 (length files)
       /\ K fs)
    (fun _ fs pr =>
       (exists k : nat, (k <= Nat.pred (length files))%nat
          /\ pr = prB ++ progress_events cb (Z.of_nat (length files)) 1 k)
       /\ K fs).
Proof.
  intros Hstep. unfold reencode_oversize.
  eapply triple_bind with
    (R1 := fun mb fs pr => (K fs /\ pr = prB) /\ gb_to_bytes max_gb = Ok mb).
  - apply step_lift. intros e fs pr _ [Hk ->]. split; [|exact Hk].
    exists 0%nat. split; [lia|]. rewrite progress_events_0, app_nil_r. reflexivity.
  - intros mb. apply triple_pre_pure. intros Hmb. cbn zeta.
    eapply triple_conseq;
      [apply (reencode_loop_triple mb (Z.of_nat (length files)) K files 1 [] prB);
       intros file_path fs0 fs; apply Hstep; exact Hmb
      |intros fs pr H; exact H|..].
    + intros l fs pr H. exact H.
    + intros e fs pr [(k & Hlt & ->) Hk]. split; [|exact Hk].
      exists k. split; [lia|reflexivity].
Qed.

End LoopSafety.

Section Kept.

Variables (max_gb : float) (parts_list : list path) (fsA : fsys).

(** No part is the temporary file of a part. *)
Hypothesis Hdisj :
  forall p q, p ∈ parts_list -> q ∈ parts_list -> with_suffix q ".tmp.mp4" <> Ok p.

(** Every part holds its first file or one within the limit, and a file
    that is neither a part nor the temporary file of one is as it was. *)
Let kept (fs : fsys) : Prop :=
  (forall p f, p ∈ parts_list -> fsA !! p = Some f ->
     exists f', fs !! p = Some f'
                /\ (f' = f \/ exists mb, gb_to_bytes max_gb = Ok mb /\ f_size f' <= mb))
  /\ (forall q, q ∉ parts_list ->
                (forall p, p ∈ parts_list -> with_suffix p ".tmp.mp4" <> Ok q) ->
                fs !! q = fsA !! q).

Lemma kept_start : kept fsA.
Proof. split; [intros p f _ Hf; exists f; auto|auto]. Qed.

Lemma kept_step (mb : Z) (file_path : path) (fs0 fs : fsys) :
  gb_to_bytes max_gb = Ok mb ->
  file_path ∈ parts_list ->
  kept fs0 ->
  (forall f, fs0 !! file_path = Some f -> part_kept mb file_path f fs) ->
  (forall q, q <> file_path -> with_suffix file_path ".tmp.mp4" <> Ok q ->
             fs !! q = fs0 !! q) ->
  kept fs.
Proof.
  intros Hmb Hin [Hk Hfr] Hpart Hframe. split.
  - intros p f Hp Hf. destruct (Hk p f Hp Hf) as (f1 & Hf1 & Hor).
    destruct (decide (p = file_path)) as [->|Hne].
    + destruct (Hpart f1 Hf1) as (f' & Hf' & Hor').
      exists f'. split; [exact Hf'|]. destruct Hor' as [->|?]; eauto.
    + exists f1. rewrite (Hframe p Hne (Hdisj p file_path Hp Hin)). auto.
  - intros q Hq Hq'. rewrite Hframe.
    + apply Hfr; assumption.
    + intros ->. contradiction.
    + apply Hq', Hin.
Qed.

Lemma reencode_oversize_kept (w : world) (ffmpeg_path : path) (ce : option Event)
    (cb : option ProgressCallback) (st : state) :
  st_fs st = fsA ->
  kept (st_fs (snd (reencode_oversize w parts_list max_gb ffmpeg_path ce cb st))).
Proof.
  intros Hfs.
  pose proof (reencode_oversize_triple w max_gb ffmpeg_path ce cb kept parts_list
                (st_progress st)) as H.
  specialize (H (fun mb file_path fs0 fs Hmb Hin => kept_step mb file_path fs0 fs Hmb Hin)).
  specialize (H st). rewrite Hfs in H. specialize (H (conj kept_start eq_refl)).
  destruct (reencode_oversize _ _ _ _ _ _ st) as [[l|e] st1]; cbn [snd]; apply H.
Qed.

End Kept.

(* --------------------------------------------------------------------- *)
(** ** The enforcer on oversize parts: the other branches *)
(* --------------------------------------------------------------------- *)

Section OversizeMore.

Variables (w : world) (max_gb : float) (max_bytes : Z) (ffmpeg_path : path)
          (ce : option Event) (total index : Z) (file_path : path)
          (final_files : list path) (st : state) (f : file) (meta : metadata).

Hypothesis Hnever : never_set ce.
Hypothesis Hfile : st_fs st !! file_path = Some f.
Hypothesis Hbig : max_bytes < f_size f.
Hypothesis Hprobe : fst (probe w file_path st) = Ok meta.

(** From the head of the loop body to the probed duration. *)
Ltac enter_oversize :=
  unfold reencode_part;
  (eapply run_spec_bind; [apply run_spec_check_cancel; exact Hnever|]);
  (eapply run_spec_bind; [apply run_spec_stat_size; exact Hfile|]);
  destruct (Z.leb_spec (f_size f) max_bytes) as [?|_]; [lia|];
  (eapply run_spec_bind; [apply run_spec_log|]);
  (eapply run_spec_bind;
     [apply (run_spec_probe_of w _ _ file_path st); [reflexivity|reflexivity|exact Hprobe]|]);
  cbn zeta.

(** A part of undeterminable duration is kept as it is: no temporary
    file is touched and no encoder is started. *)
Lemma reencode_part_no_duration :
  F64.leb (md_duration meta) F64.zero = true ->
  run_spec (st_fs st) (st_progress st)
    (reencode_part w max_gb max_bytes ffmpeg_path ce (Some QueueProgress)
       total index file_path final_files)
    (Ok (final_files ++ [file_path]))
    (st_fs st) (st_progress st ++ [(index, total)]).
Proof.
  intros Hdur. enter_oversize. rewrite Hdur.
  eapply run_spec_bind; [apply run_spec_log|].
  apply run_spec_keep.
Qed.

Variable tmp_file : path.
Hypothesis Htmp : with_suffix file_path ".tmp.mp4" = Ok tmp_file.

(** From the probed duration to the bitrate computation. *)
Ltac enter_tmp Hdur :=
  enter_oversize; rewrite Hdur;
  (eapply run_spec_bind; [rewrite Htmp; apply run_spec_lift|]);
  (eapply run_spec_bind; [apply run_spec_path_exists|]);
  (eapply run_spec_bind with (fs1 := delete tmp_file (st_fs st));
     [destruct (st_fs st !! tmp_file) eqn:Estale;
        [apply run_spec_unlink; left; rewrite Estale; eauto
        |rewrite delete_id by exact Estale; apply run_spec_ret]|]).

(** The bitrate computation raises [ValueError]: the error is logged and
    the part is kept as it is. *)
Lemma reencode_part_bitrate_value_error (msg : string) :
  F64.leb (md_duration meta) F64.zero = false ->
  _calculate_bitrate (md_duration meta) max_gb = Raise (ValueError msg) ->
  run_spec (st_fs st) (st_progress st)
    (reencode_part w max_gb max_bytes ffmpeg_path ce (Some QueueProgress)
       total index file_path final_files)
    (Ok (final_files ++ [file_path]))
    (delete tmp_file (st_fs st)) (st_progress st ++ [(index, total)]).
Proof.
  intros Hdur Hbr. enter_tmp Hdur. rewrite Hbr.
  eapply run_spec_bind; [apply run_spec_log|].
  apply run_spec_keep.
Qed.

(** The bitrate-targeted encode leaves a file within the limit: it
    replaces the part. *)
Lemma reencode_part_bitrate_accepted (target_bitrate : Z) (cmd : list string)
    (g : file) :
  F64.leb (md_duration meta) F64.zero = false ->
  _calculate_bitrate (md_duration meta) max_gb = Ok target_bitrate ->
  bitrate_args ffmpeg_path file_path tmp_file target_bitrate = Ok cmd ->
  p_returncode (w_popen w cmd (delete tmp_file (st_fs st))) = 0 ->
  p_file (w_popen w cmd (delete tmp_file (st_fs st))) = Some g ->
  f_size g <= max_bytes ->
  run_spec (st_fs st) (st_progress st)
    (reencode_part w max_gb max_bytes ffmpeg_path ce (Some QueueProgress)
       total index file_path final_files)
    (Ok (final_files ++ [file_path]))
    (<[file_path := g]> (delete tmp_file (st_fs st)))
    (st_progress st ++ [(index, total)]).
Proof.
  intros Hdur Hbr Hcmd Hrc Hg Hsize. enter_tmp Hdur. rewrite Hbr.
  assert (Habsent : delete tmp_file (st_fs st) !! tmp_file = None)
    by apply lookup_delete_eq.
  eapply run_spec_bind.
  { apply run_spec_try_ok.
    pose proof (run_spec_encode_bitrate w ffmpeg_path file_path tmp_file ce Hnever
                  (delete tmp_file (st_fs st)) (st_progress st) target_bitrate cmd Hcmd)
      as Henc.
    rewrite Hrc in Henc. cbn [Z.eqb] in Henc. exact Henc. }
  rewrite Hg.
  eapply run_spec_bind; [apply run_spec_path_exists|].
  rewrite lookup_insert_eq. cbn [negb].
  eapply run_spec_bind; [apply run_spec_stat_size; apply lookup_insert_eq|].
  destruct (Z.ltb_spec max_bytes (f_size g)) as [?|_]; [lia|].
  eapply run_spec_bind; [apply run_spec_ret|].
  eapply run_spec_bind; [apply run_spec_path_exists|].
  rewrite lookup_insert_eq.
  eapply run_spec_bind with (fs1 := <[file_path := g]> (delete tmp_file (st_fs st))).
  { eapply run_spec_bind; [apply run_spec_replace; apply lookup_insert_eq|].
    rewrite delete_insert_id by exact Habsent.
    eapply run_spec_bind; [apply run_spec_stat_size; apply lookup_insert_eq|].
    apply run_spec_log. }
  apply run_spec_keep.
Qed.

End OversizeMore.

(* --------------------------------------------------------------------- *)
(** ** The enforcer: what every run keeps *)
(* --------------------------------------------------------------------- *)

(** X1.  Whatever the binaries do and whenever a cancellation arrives, the
    enforcer, when it returns, returns exactly the paths it was given, in
    their order, and has reported each part once, in order: the events
    [(1, N), ..., (N, N)] when there is a callback, none otherwise.  When it
    raises, the events it has emitted are those of the first [k] parts for
    some [k] below the number of parts ([k = 0] on no parts). *)
Theorem reencode_oversize_returns_input (w : world) (files : list path) (max_gb : float)
    (ffmpeg_path : path) (ce : option Event) (cb : option ProgressCallback) (st : state) :
  match reencode_oversize w files max_gb ffmpeg_path ce cb st with
  | (Ok l, st') =>
      l = files
      /\ st_progress st'
         = st_progress st ++ progress_events cb (Z.of_nat (length files)) 1 (length files)
  | (Raise _, st') =>
      exists k : nat,
        (k <= Nat.pred (length files))%nat
        /\ st_progress st'
           = st_progress st ++ progress_events cb (Z.of_nat (length files)) 1 k
  end.
Proof.
  pose proof (reencode_oversize_triple w max_gb ffmpeg_path ce cb (fun _ => True) files
                (st_progress st) (fun _ _ _ _ _ _ _ _ _ => I) st (conj I eq_refl)) as H.
  destruct (reencode_oversize w files max_gb ffmpeg_path ce cb st) as [[l|e] st'].
  - destruct H as (Hl & Hpr & _). split; assumption.
  - destruct H as [Hk _]. exact Hk.
Qed.

(** X2.  When no part is named like the temporary file of a part, the
    enforcer loses no part, however it ends (return, failure of a binary,
    cancellation): every part that existed when it started holds afterwards
    either the very file it held or a file within the byte limit. *)
Theorem reencode_oversize_keeps_parts (w : world) (files : list path) (max_gb : float)
    (ffmpeg_path : path) (ce : option Event) (cb : option ProgressCallback) (st : state)
    (p : path) (f : file) :
  (forall a b, a ∈ files -> b ∈ files -> with_suffix b ".tmp.mp4" <> Ok a) ->
  p ∈ files ->
  st_fs st !! p = Some f ->
  exists f' : file,
    st_fs (snd (reencode_oversize w files max_gb ffmpeg_path ce cb st)) !! p = Some f'
    /\ (f' = f
        \/ exists max_bytes : Z, gb_to_bytes max_gb = Ok max_bytes /\ f_size f' <= max_bytes).
Proof.
  intros Hdisj Hp Hf.
  exact (proj1 (reencode_oversize_kept max_gb files (st_fs st) Hdisj w ffmpeg_path ce cb st
                  eq_refl) p f Hp Hf).
Qed.

(** Two parts of 2 GiB under a limit of 1 GB; every encode leaves 1.5 GiB. *)
Lemma reencode_oversize_keeps_parts_witness :
  exists f' : file,
    st_fs (snd (reencode_oversize (encoder_world 0 (Some encoded)) [part0; part1]
                  (F64.of_Z 1) "ffmpeg" (Some (MkEvent None)) (Some QueueProgress)
                  parts_state)) !! part1 = Some f'
    /\ (f' = original1
        \/ exists max_bytes : Z,
             gb_to_bytes (F64.of_Z 1) = Ok max_bytes /\ f_size f' <= max_bytes).
Proof.
  apply (reencode_oversize_keeps_parts (encoder_world 0 (Some encoded)) [part0; part1]
           (F64.of_Z 1) "ffmpeg" (Some (MkEvent None)) (Some QueueProgress) parts_state
           part1 original1).
  - intros a b Ha Hb.
    apply elem_of_cons in Ha as [->|Ha]; [|apply list_elem_of_singleton in Ha as ->];
      (apply elem_of_cons in Hb as [->|Hb]; [|apply list_elem_of_singleton in Hb as ->]);
      vm_compute; discriminate.
  - apply elem_of_cons; right. apply elem_of_cons; left. reflexivity.
  - reflexivity.
Defined.

(** X3.  The enforcer touches nothing but the parts and their temporary
    files: a path that is neither a part nor [part.with_suffix(".tmp.mp4")]
    for a part holds afterwards what it held before (or is still absent),
    however the run ends. *)
Theorem reencode_oversize_frame (w : world) (files : list path) (max_gb : float)
    (ffmpeg_path : path) (ce : option Event) (cb : option ProgressCallback) (st : state)
    (q : path) :
  q ∉ files ->
  (forall p, p ∈ files -> with_suffix p ".tmp.mp4" <> Ok q) ->
  st_fs (snd (reencode_oversize w files max_gb ffmpeg_path ce cb st)) !! q = st_fs st !! q.
Proof.
  intros Hq Htmp.
  pose proof (reencode_oversize_triple w max_gb ffmpeg_path ce cb
                (fun fs => fs !! q = st_fs st !! q) files (st_progress st)) as H.
  assert (Hstep : forall (mb : Z) (file_path : path) (fs0 fs : fsys),
             gb_to_bytes max_gb = Ok mb ->
             file_path ∈ files -> fs0 !! q = st_fs st !! q ->
             (forall f, fs0 !! file_path = Some f -> part_kept mb file_path f fs) ->
             (forall q', q' <> file_path -> with_suffix file_path ".tmp.mp4" <> Ok q' ->
                         fs !! q' = fs0 !! q') ->
             fs !! q = st_fs st !! q).
  { intros mb file_path fs0 fs _ Hin H0 _ Hframe.
    rewrite Hframe; [exact H0| |apply Htmp, Hin].
    intros ->. contradiction. }
  specialize (H Hstep st (conj eq_refl eq_refl)).
  destruct (reencode_oversize w files max_gb ffmpeg_path ce cb st) as [[l|e] st'];
    cbn [snd]; apply H.
Qed.

(** The source that was split sits beside the parts and is left alone. *)
Lemma reencode_oversize_frame_witness :
  st_fs (snd (reencode_oversize (encoder_world 0 (Some encoded)) [part0; part1]
                (F64.of_Z 1) "ffmpeg" (Some (MkEvent None)) (Some QueueProgress)
                parts_state)) !! "out/v.mp4"%string
  = st_fs parts_state !! "out/v.mp4"%string.
Proof.
  apply (reencode_oversize_frame (encoder_world 0 (Some encoded)) [part0; part1]
           (F64.of_Z 1) "ffmpeg" (Some (MkEvent None)) (Some QueueProgress) parts_state
           "out/v.mp4"%string).
  - intros Hin.
    apply elem_of_cons in Hin as [Hin|Hin]; [discriminate Hin|].
    apply list_elem_of_singleton in Hin. discriminate Hin.
  - intros p Hin.
    apply elem_of_cons in Hin as [->|Hin]; [|apply list_elem_of_singleton in Hin as ->];
      vm_compute; discriminate.
Defined.

Section CancelBetweenParts.

Variables (w : world) (max_gb : float) (max_bytes : Z) (ffmpeg_path : path)
          (ev : Event) (t : nat) (total : Z).

Hypothesis Ht : set_at ev = Some t.

(** The head of an iteration once the signal is visible. *)
Lemma check_cancel_observed (st : state) :
  (t <= st_polls st)%nat ->
  _check_cancel (Some ev) st
  = (Raise (OperationCancelled "Operation cancelled."),
     State (st_fs st) (st_log st) (st_progress st) (S (st_polls st)) (st_procs st)).
Proof.
  intros H. unfold _check_cancel, bind, cancel_requested, is_set. rewrite Ht.
  destruct (Nat.leb_spec t (st_polls st)); [reflexivity|lia].
Qed.

(** Parts within the limit, passed while the signal is still clear. *)
Lemma reencode_loop_compliant_prefix (pre tail : list path) :
  forall (index : Z) (final_files : list path) (st : state),
    Forall (fun p => exists f, st_fs st !! p = Some f /\ f_size f <= max_bytes) pre ->
    (length pre <= t - st_polls st)%nat ->
    reencode_loop w max_gb max_bytes ffmpeg_path (Some ev) (Some QueueProgress)
      total index (pre ++ tail) final_files st
    = reencode_loop w max_gb max_bytes ffmpeg_path (Some ev) (Some QueueProgress)
        total (index + Z.of_nat (length pre)) tail (final_files ++ pre)
        (State (st_fs st)
               (st_log st
                  ++ List.map (fun _ => LogMsg INFO "Part %s within limits (%s).") pre)
               (st_progress st
                  ++ List.map (fun i => (i, total)) (seqZ index (Z.of_nat (length pre))))
               (st_polls st + length pre)
               (st_procs st)).
Proof.
  induction pre as [|file_path pre IH]; intros index final_files st Hall Hlen.
  - cbn [app length List.map Z.of_nat]. change (seqZ index 0) with (@nil Z).
    cbn [List.map]. rewrite !app_nil_r, Z.add_0_r, Nat.add_0_r, state_eta.
    reflexivity.
  - apply Forall_cons in Hall as [(f & Hf & Hsz) Hall]. cbn [length] in Hlen.
    cbn [app reencode_loop].
    rewrite (bind_ok _ _ _ _ _
               (reencode_part_compliant w max_gb max_bytes ffmpeg_path (Some ev) total
                  index file_path f final_files st
                  ltac:(cbn; rewrite Ht; lia) Hf Hsz)).
    rewrite IH by (cbn [st_fs st_polls polls_made]; first [assumption|lia]).
    cbn [st_fs st_log st_progress st_polls st_procs length polls_made].
    rewrite (seqZ_cons index) by lia.
    replace (Z.pred (Z.of_nat (S (length pre)))) with (Z.of_nat (length pre)) by lia.
    replace (Z.succ index) with (index + 1) by lia.
    cbn [List.map]. rewrite <- !app_assoc. cbn [app].
    f_equal; [lia|]. f_equal. lia.
Qed.

End CancelBetweenParts.

(** X4.  A cancellation that becomes visible once [k] parts, all within the
    limit, have been passed is honoured at the head of the next iteration:
    the enforcer raises [OperationCancelled("Operation cancelled.")], with
    the [k] progress events of the parts passed and nothing else done: no
    file is touched, no process is started, and the part at hand is not even
    looked up.  The signal is visible from poll [t] on, so that [k] is the
    number of polls left before it, [t - st_polls st]; [k = 0] is a signal
    that is already set when the enforcer starts. *)
Theorem reencode_oversize_cancel_between_parts (w : world) (pre : list path) (p : path)
    (rest : list path) (max_gb : float) (ffmpeg_path : path) (ev : Event) (t : nat)
    (st : state) (max_bytes : Z) :
  gb_to_bytes max_gb = Ok max_bytes ->
  Forall (fun q => exists f, st_fs st !! q = Some f /\ f_size f <= max_bytes) pre ->
  set_at ev = Some t ->
  (t - st_polls st)%nat = length pre ->
  reencode_oversize w (pre ++ p :: rest) max_gb ffmpeg_path (Some ev)
    (Some QueueProgress) st
  = (Raise (OperationCancelled "Operation cancelled."),
     State (st_fs st)
           (st_log st ++ List.map (fun _ => LogMsg INFO "Part %s within limits (%s).") pre)
           (st_progress st
              ++ List.map (fun i => (i, Z.of_nat (length (pre ++ p :: rest))))
                   (seqZ 1 (Z.of_nat (length pre))))
           (st_polls st + S (length pre))
           (st_procs st)).
Proof.
  intros Hmax Hall Ht Hk.
  unfold reencode_oversize. unfold bind at 1. unfold lift. rewrite Hmax.
  rewrite (reencode_loop_compliant_prefix w max_gb max_bytes ffmpeg_path ev t _ Ht
             pre (p :: rest) 1 [] st Hall) by lia.
  cbn [reencode_loop]. unfold reencode_part.
  unfold bind at 1. unfold bind at 1.
  rewrite (check_cancel_observed ev t Ht) by (cbn [st_polls]; lia).
  cbn [st_fs st_log st_progress st_polls st_procs].
  f_equal. f_equal. lia.
Qed.

(** Two parts within a limit of 4 GB; the signal is set while the first is
    looked at. *)
Lemma reencode_oversize_cancel_between_parts_witness :
  reencode_oversize (encoder_world 0 None) ([part0] ++ part1 :: []) (F64.of_Z 4) "ffmpeg"
    (Some (MkEvent (Some 1%nat))) (Some QueueProgress) parts_state
  = (Raise (OperationCancelled "Operation cancelled."),
     State (st_fs parts_state)
           (st_log parts_state
              ++ List.map (fun _ => LogMsg INFO "Part %s within limits (%s).") [part0])
           (st_progress parts_state
              ++ List.map (fun i => (i, Z.of_nat (length ([part0] ++ part1 :: []))))
                   (seqZ 1 (Z.of_nat (length [part0]))))
           (st_polls parts_state + S (length [part0]))
           (st_procs parts_state)).
Proof.
  apply (reencode_oversize_cancel_between_parts (encoder_world 0 None) [part0] part1 []
           (F64.of_Z 4) "ffmpeg" (MkEvent (Some 1%nat)) 1%nat parts_state (4 * GiB)).
  - reflexivity.
  - repeat constructor. exists original0. split; [reflexivity|]. vm_compute. discriminate.
  - reflexivity.
  - reflexivity.
Defined.

(* --------------------------------------------------------------------- *)
(** ** The enforcer: temporary files *)
(* --------------------------------------------------------------------- *)

Section Tidy.

Implicit Types (R : fsys -> list (Z * Z) -> Prop).

Lemma triple_top {A : Type} R (m : M A) :
  triple R m (fun _ _ _ => True) (fun _ _ _ => True).
Proof. intros st _. destruct (m st) as [[a|e] st1]; exact I. Qed.

(** Two views of one computation hold together. *)
Lemma triple_both {A : Type} R1 R2 (m : M A)
    (Q1 Q2 : A -> fsys -> list (Z * Z) -> Prop)
    (E1 E2 : exn -> fsys -> list (Z * Z) -> Prop) :
  triple R1 m Q1 E1 -> triple R2 m Q2 E2 ->
  triple (fun fs pr => R1 fs pr /\ R2 fs pr) m
    (fun a fs pr => Q1 a fs pr /\ Q2 a fs pr)
    (fun e fs pr => E1 e fs pr /\ E2 e fs pr).
Proof.
  intros H1 H2 st [HR1 HR2]. specialize (H1 st HR1). specialize (H2 st HR2).
  destruct (m st) as [[a|e] st1]; auto.
Qed.

Variables (w : world) (max_gb : float) (max_bytes : Z) (ffmpeg_path : path)
          (ce : option Event) (cb : option ProgressCallback).

(** No file sits at the temporary path of [file_path]. *)
Let clean (file_path : path) (fs : fsys) : Prop :=
  forall tmp, with_suffix file_path ".tmp.mp4" = Ok tmp -> fs !! tmp = None.

(** One part that ends well leaves no temporary file where there was none. *)
Lemma reencode_part_tidy (total index : Z) (file_path : path)
    (final_files : list path) :
  triple (fun fs _ => clean file_path fs)
    (reencode_part w max_gb max_bytes ffmpeg_path ce cb total index file_path
       final_files)
    (fun _ fs _ => clean file_path fs) (fun _ _ _ => True).
Proof.
  set (R0 := fun (fs : fsys) (_ : list (Z * Z)) => clean file_path fs).
  set (Q0 := fun (_ : list path) (fs : fsys) (_ : list (Z * Z)) => clean file_path fs).
  set (E0 := fun (_ : exn) (_ : fsys) (_ : list (Z * Z)) => True).
  assert (Hkeep0 : triple R0 (keep_part cb index total file_path final_files) Q0 E0).
  { apply step_keep. intros fs pr H. exact H. }
  unfold reencode_part.
  eapply triple_bind;
    [apply step_unchanged; [apply unchanged_check_cancel|intros; exact I]|].
  intros ?.
  eapply triple_bind with (R1 := fun _ => R0).
  { eapply triple_conseq;
      [apply step_stat_size with (E := E0); intros; exact I
      |intros fs pr H; exact H|intros n fs pr [H _]; exact H|intros e fs pr H; exact H]. }
  intros size.
  destruct (size <=? max_bytes).
  { eapply triple_bind; [apply triple_log|]. intros ?. exact Hkeep0. }
  eapply triple_bind; [apply triple_log|]. intros ?.
  eapply triple_bind;
    [apply step_unchanged; [apply unchanged_probe|intros; exact I]|].
  intros meta. cbn zeta.
  destruct (F64.leb (md_duration meta) F64.zero).
  { eapply triple_bind; [apply triple_log|]. intros ?. exact Hkeep0. }
  eapply triple_bind with
    (R1 := fun tmp fs pr => R0 fs pr /\ with_suffix file_path ".tmp.mp4" = Ok tmp).
  { apply step_lift. intros; exact I. }
  intros tmp. apply triple_pre_pure. intros Htmp.
  pose proof (with_suffix_tmp_neq _ _ Htmp) as Hne.
  set (A := fun (fs : fsys) (_ : list (Z * Z)) => fs !! tmp = None).
  assert (HA : forall fs pr, A fs pr -> clean file_path fs).
  { intros fs pr H tmp' Htmp'. rewrite Htmp in Htmp'. injection Htmp' as <-. exact H. }
  assert (Hkeep : triple A (keep_part cb index total file_path final_files) Q0 E0).
  { apply step_keep. intros fs pr H. apply (HA fs pr H). }
  eapply triple_bind; [apply triple_path_exists|]. intros stale.
  eapply triple_bind with (R1 := fun _ => A).
  { destruct stale.
    - eapply triple_conseq;
        [apply step_unlink with (E := E0); intros; exact I
        |intros fs pr H; exact H| |intros e fs pr H; exact H].
      intros ? fs pr (fs1 & _ & ->). apply lookup_delete_eq.
    - apply triple_ret. intros fs pr [H _]. apply H, Htmp. }
  intros ?.
  destruct (_calculate_bitrate (md_duration meta) max_gb) as [target_bitrate|e].
  2: { destruct e; try (apply triple_raise; intros; exact I).
       eapply triple_bind; [apply triple_log|]. intros ?. exact Hkeep. }
  eapply triple_bind; [apply triple_top|]. intros ?.
  eapply triple_bind; [apply triple_path_exists|]. intros found.
  destruct found; cbn [negb].
  2: { eapply triple_bind; [apply triple_log|]. intros ?.
       eapply triple_conseq; [exact Hkeep| |auto|auto].
       intros fs pr [_ H]. unfold A. destruct (fs !! tmp); [discriminate|reflexivity]. }
  eapply triple_bind; [apply triple_top|]. intros new_size.
  eapply triple_bind; [apply triple_top|]. intros ?.
  eapply triple_bind; [apply triple_path_exists|]. intros found.
  eapply triple_bind with (R1 := fun _ => A).
  { destruct found.
    - eapply triple_bind with (R1 := fun _ => A).
      { eapply triple_conseq;
          [apply step_replace with (E := E0); intros; exact I
          |intros fs pr H; exact H| |intros e fs pr H; exact H].
        intros ? fs pr (fs1 & g & _ & _ & ->). unfold A.
        rewrite lookup_insert_ne by (intros Heq; apply Hne; symmetry; exact Heq).
        apply lookup_delete_eq. }
      intros ?.
      eapply triple_bind with (R1 := fun _ => A).
      { eapply triple_conseq;
          [apply step_stat_size with (E := E0); intros; exact I
          |intros fs pr H; exact H|intros n fs pr [H _]; exact H
          |intros e fs pr H; exact H]. }
      intros ?. apply triple_log.
    - eapply triple_conseq;
        [apply triple_log with (E := E0)
        |intros fs pr H; exact H| |intros e fs pr H; exact H].
      intros ? fs pr [_ H]. unfold A. destruct (fs !! tmp); [discriminate|reflexivity]. }
  intros ?. exact Hkeep.
Qed.

(** The loop keeps what every part that ends well keeps. *)
Lemma reencode_loop_returns (K : fsys -> Prop) (total : Z) (files : list path) :
  (forall (file_path : path) (index : Z) (final_files : list path),
     file_path ∈ files ->
     triple (fun fs _ => K fs)
       (reencode_part w max_gb max_bytes ffmpeg_path ce cb total index file_path
          final_files)
       (fun _ fs _ => K fs) (fun _ _ _ => True)) ->
  forall (index : Z) (final_files : list path),
    triple (fun fs _ => K fs)
      (reencode_loop w max_gb max_bytes ffmpeg_path ce cb total index files final_files)
      (fun _ fs _ => K fs) (fun _ _ _ => True).
Proof.
  induction files as [|file_path rest IH]; intros Hstep index final_files;
    cbn [reencode_loop].
  - apply triple_ret. auto.
  - eapply triple_bind; [apply Hstep; left|].
    intros l. apply IH. intros p i ff Hp. apply Hstep. right. exact Hp.
Qed.

End Tidy.

(** X5.  A run of the enforcer that returns leaves no temporary file
    behind.  When no part is named like the temporary file of a part and no
    part's temporary path ([part.with_suffix(".tmp.mp4")]) holds a file at
    the start, none holds a file when the enforcer returns: every encode
    that was written there has been moved over its part or deleted. *)
Theorem reencode_oversize_leaves_no_temporary (w : world) (files : list path)
    (max_gb : float) (ffmpeg_path : path) (ce : option Event)
    (cb : option ProgressCallback) (st : state) (l : list path) (p tmp : path) :
  (forall a b, a ∈ files -> b ∈ files -> with_suffix b ".tmp.mp4" <> Ok a) ->
  (forall a t, a ∈ files -> with_suffix a ".tmp.mp4" = Ok t -> st_fs st !! t = None) ->
  fst (reencode_oversize w files max_gb ffmpeg_path ce cb st) = Ok l ->
  p ∈ files ->
  with_suffix p ".tmp.mp4" = Ok tmp ->
  st_fs (snd (reencode_oversize w files max_gb ffmpeg_path ce cb st)) !! tmp = None.
Proof.
  intros Hdisj Hclean Hok Hp Htmp.
  set (K := fun fs : fsys =>
              forall a t, a ∈ files -> with_suffix a ".tmp.mp4" = Ok t -> fs !! t = None).
  assert (Hrun : triple (fun fs _ => K fs)
                   (reencode_oversize w files max_gb ffmpeg_path ce cb)
                   (fun _ fs _ => K fs) (fun _ _ _ => True)).
  { unfold reencode_oversize.
    eapply triple_bind with (R1 := fun _ fs _ => K fs).
    { apply triple_lift; [intros; assumption|intros; exact I]. }
    intros max_bytes. cbn zeta.
    apply reencode_loop_returns. intros file_path index final_files Hin st0 Hk.
    pose proof (reencode_part_triple w max_gb max_bytes ffmpeg_path ce cb
                  (Z.of_nat (length files)) index file_path final_files
                  (st_fs st0) (st_progress st0) st0 (conj eq_refl eq_refl)) as Hs.
    pose proof (reencode_part_tidy w max_gb max_bytes ffmpeg_path ce cb
                  (Z.of_nat (length files)) index file_path final_files st0
                  (fun t Ht => Hk file_path t Hin Ht)) as Ht.
    destruct (reencode_part w max_gb max_bytes ffmpeg_path ce cb
                (Z.of_nat (length files)) index file_path final_files st0)
      as [[l'|e] st1]; [|exact I].
    destruct Hs as (_ & _ & _ & Hframe).
    intros a t Ha Hat.
    destruct (with_suffix file_path ".tmp.mp4") as [t'|e] eqn:Et.
    - destruct (decide (t' = t)) as [->|Hne]; [apply Ht; reflexivity|].
      rewrite Hframe; [apply (Hk a t Ha Hat)| |congruence].
      intros ->. apply (Hdisj file_path a Hin Ha Hat).
    - rewrite Hframe; [apply (Hk a t Ha Hat)| |discriminate].
      intros ->. apply (Hdisj file_path a Hin Ha Hat). }
  specialize (Hrun st Hclean).
  destruct (reencode_oversize w files max_gb ffmpeg_path ce cb st) as [[l'|e] st'];
    [|discriminate].
  cbn [snd]. apply (Hrun p tmp Hp Htmp).
Qed.

(** Two parts of 2 GiB under a limit of 1 GB; every encode leaves 1.5 GiB,
    so that each part goes through the whole ladder. *)
Lemma reencode_oversize_leaves_no_temporary_witness :
  st_fs (snd (reencode_oversize (encoder_world 0 (Some encoded)) [part0; part1]
                (F64.of_Z 1) "ffmpeg" None (Some QueueProgress) parts_state)) !! tmp0
  = None.
Proof.
  apply (reencode_oversize_leaves_no_temporary (encoder_world 0 (Some encoded))
           [part0; part1] (F64.of_Z 1) "ffmpeg" None (Some QueueProgress) parts_state
           [part0; part1] part0 tmp0).
  - intros a b Ha Hb.
    apply elem_of_cons in Ha as [->|Ha]; [|apply list_elem_of_singleton in Ha as ->];
      (apply elem_of_cons in Hb as [->|Hb]; [|apply list_elem_of_singleton in Hb as ->]);
      vm_compute; discriminate.
  - intros a t Ha.
    apply elem_of_cons in Ha as [->|Ha]; [|apply list_elem_of_singleton in Ha as ->];
      vm_compute; intros [= <-]; reflexivity.
  - vm_compute. reflexivity.
  - apply elem_of_cons; left. reflexivity.
  - reflexivity.
Defined.

(* --------------------------------------------------------------------- *)
(** ** The runner in captured mode and the prober *)
(* --------------------------------------------------------------------- *)

Section CapturedRun.

Variable w : world.

(** Captured mode, step by step, once stdout is decoded. *)
Lemma run_command_captured_state (args : list string) (ce : option Event)
    (lvl : level) (enc : option codec) (st : state) (out : text) :
  match enc with
  | Some e => decode_strict e (c_stdout (w_run w args (st_fs st))) = Some out
  | None => out = decode_replace (w_locale w) (c_stdout (w_run w args (st_fs st)))
  end ->
  run_command w args true ce lvl enc st
  = ((if c_returncode (w_run w args (st_fs st)) =? 0 then Ok (Some out)
      else Raise (CalledProcessError (c_returncode (w_run w args (st_fs st))) args)),
     State (st_fs st)
           (st_log st ++ [LogMsg DEBUG "Running command: %s"]
              ++ List.map (LogLine lvl) (splitlines out)
              ++ List.map (LogLine ERROR)
                   (splitlines (decode_replace (default (w_locale w) enc)
                                  (c_stderr (w_run w args (st_fs st))))))
           (st_progress st) (st_polls st) (st_procs st ++ [PRun args])).
Proof.
  intros Hout. unfold run_command.
  unfold bind at 1. cbn [log]. cbn match.
  unfold bind at 1. cbn [get_fs st_fs].
  unfold bind at 1. cbn [proc].
  unfold bind at 1. cbn [st_fs].
  assert (E : forall s : state,
             match enc with
             | Some enc0 =>
                 match decode_strict enc0 (c_stdout (w_run w args (st_fs st))) with
                 | Some t => ret t
                 | None =>
                     raise (RuntimeError ("Failed to decode stdout from command: "
                                          +:+ format_command args))
                 end
             | None => ret (decode_replace (w_locale w) (c_stdout (w_run w args (st_fs st))))
             end s = (Ok out, s)).
  { intros s. destruct enc as [e|]; [rewrite Hout|subst out]; reflexivity. }
  rewrite E.
  unfold bind at 1. rewrite for_each_log.
  unfold bind at 1. rewrite for_each_log.
  cbn [st_fs st_log st_progress st_polls st_procs].
  destruct (c_returncode _ =? 0); cbn [negb]; unfold ret, raise;
    rewrite <- !app_assoc; reflexivity.
Qed.

(** [probe], step by step. *)
Lemma probe_eval (input_path : path) (st : state) :
  probe w input_path st
  = match st_fs st !! input_path with
    | None => (Raise (FileNotFoundError ("Input file not found: " +:+ input_path)), st)
    | Some _ =>
        match w_ffmpeg_paths w with
        | Raise e => (Raise e, st)
        | Ok paths =>
            let cmd := probe_cmd (snd paths) input_path in
            let c := w_run w cmd (st_fs st) in
            if c_returncode c =? 0 then
              match w_json_loads w (decode_replace (w_locale w) (c_stdout c)) with
              | None => (Raise (RuntimeError "ffprobe returned invalid JSON."),
                         probed w cmd st)
              | Some info =>
                  match probe_extract w info with
                  | Raise e => (Raise e, probed w cmd st)
                  | Ok meta =>
                      (Ok meta,
                       State (st_fs st)
                             (st_log (probed w cmd st)
                                ++ [LogMsg DEBUG "ffprobe metadata: duration=%.3fs, size=%d bytes, bitrate=%d bps"])
                             (st_progress st) (st_polls st)
                             (st_procs st ++ [PRun cmd]))
                  end
              end
            else (Raise (CalledProcessError (c_returncode c) cmd), probed w cmd st)
        end
    end.
Proof.
  unfold probe. unfold bind at 1. unfold path_exists, bind at 1, get_fs, ret.
  destruct (st_fs st !! input_path) as [f|]; cbn [negb]; [|reflexivity].
  unfold bind at 1. unfold lift at 1.
  destruct (w_ffmpeg_paths w) as [paths|e]; [|reflexivity].
  cbn zeta. fold (probe_cmd (snd paths) input_path).
  unfold bind at 1.
  rewrite (run_command_captured_state (probe_cmd (snd paths) input_path) None DEBUG None st
             _ eq_refl).
  fold (probed w (probe_cmd (snd paths) input_path) st).
  destruct (c_returncode _ =? 0); [|reflexivity].
  destruct (w_json_loads w _) as [info|]; [|reflexivity].
  unfold bind at 1. unfold lift at 1.
  destruct (probe_extract w info) as [meta|e]; reflexivity.
Qed.

End CapturedRun.

(** X6.  In captured mode, once standard output is decoded, the runner logs
    every line of standard output at the stream level and then every line of
    standard error at ERROR, whatever the exit status; only then does a
    non-zero status raise [CalledProcessError], and otherwise the decoded
    standard output is returned.  The child is run once, to its end: the
    cancellation event is never polled, and no file or progress event is
    touched. *)
Theorem run_command_captured_effect (w : world) (args : list string) (ce : option Event)
    (lvl : level) (enc : option codec) (st : state) (out : text) :
  match enc with
  | Some e => decode_strict e (c_stdout (w_run w args (st_fs st))) = Some out
  | None => out = decode_replace (w_locale w) (c_stdout (w_run w args (st_fs st)))
  end ->
  run_command w args true ce lvl enc st
  = ((if c_returncode (w_run w args (st_fs st)) =? 0 then Ok (Some out)
      else Raise (CalledProcessError (c_returncode (w_run w args (st_fs st))) args)),
     State (st_fs st)
           (st_log st ++ [LogMsg DEBUG "Running command: %s"]
              ++ List.map (LogLine lvl) (splitlines out)
              ++ List.map (LogLine ERROR)
                   (splitlines (decode_replace (default (w_locale w) enc)
                                  (c_stderr (w_run w args (st_fs st))))))
           (st_progress st) (st_polls st) (st_procs st ++ [PRun args])).
Proof. apply run_command_captured_state. Qed.

(** The prober prints one byte the locale cannot decode; the signal is set
    from the start and plays no part. *)
Lemma run_command_captured_effect_witness :
  run_command undecodable_world ["ffprobe"; "in.mp4"]%string true
    (Some (MkEvent (Some 0%nat))) DEBUG None empty_state
  = ((if c_returncode (w_run undecodable_world ["ffprobe"; "in.mp4"]%string
                         (st_fs empty_state)) =? 0
      then Ok (Some [REPLACEMENT])
      else Raise (CalledProcessError
                    (c_returncode (w_run undecodable_world ["ffprobe"; "in.mp4"]%string
                                     (st_fs empty_state)))
                    ["ffprobe"; "in.mp4"]%string)),
     State (st_fs empty_state)
           (st_log empty_state ++ [LogMsg DEBUG "Running command: %s"]
              ++ List.map (LogLine DEBUG) (splitlines [REPLACEMENT])
              ++ List.map (LogLine ERROR)
                   (splitlines (decode_replace (default (w_locale undecodable_world) None)
                                  (c_stderr (w_run undecodable_world
                                               ["ffprobe"; "in.mp4"]%string
                                               (st_fs empty_state))))))
           (st_progress empty_state) (st_polls empty_state)
           (st_procs empty_state ++ [PRun ["ffprobe"; "in.mp4"]%string])).
Proof.
  apply (run_command_captured_effect undecodable_world ["ffprobe"; "in.mp4"]%string
           (Some (MkEvent (Some 0%nat))) DEBUG None empty_state [REPLACEMENT]).
  reflexivity.
Defined.

(** X7.  [probe] returns metadata exactly when the input exists, the
    binaries are located, the prober exits with status 0, its standard
    output, decoded in the locale's encoding with replacement, parses as
    JSON, and the extraction from that JSON succeeds; the metadata is the
    one extracted. *)
Theorem probe_returns (w : world) (input_path : path) (st : state) (meta : metadata) :
  fst (probe w input_path st) = Ok meta
  <-> exists (f : file) (paths : path * path) (info : pyval),
        st_fs st !! input_path = Some f
        /\ w_ffmpeg_paths w = Ok paths
        /\ c_returncode (w_run w (probe_cmd (snd paths) input_path) (st_fs st)) = 0
        /\ w_json_loads w
             (decode_replace (w_locale w)
                (c_stdout (w_run w (probe_cmd (snd paths) input_path) (st_fs st))))
           = Some info
        /\ probe_extract w info = Ok meta.
Proof.
  rewrite probe_eval. split.
  - destruct (st_fs st !! input_path) as [f|]; [|discriminate].
    destruct (w_ffmpeg_paths w) as [paths|e]; [|discriminate].
    cbn zeta.
    destruct (Z.eqb_spec (c_returncode (w_run w (probe_cmd (snd paths) input_path) (st_fs st))) 0)
      as [Hrc|Hrc]; [|discriminate].
    destruct (w_json_loads w _) as [info|] eqn:Ej; [|discriminate].
    destruct (probe_extract w info) as [m|e] eqn:Ex; [|discriminate].
    cbn [fst]. intros [= <-]. exists f, paths, info. auto.
  - intros (f & paths & info & -> & -> & Hrc & Hj & Hx).
    cbn zeta. rewrite Hrc, Hj, Hx. reflexivity.
Qed.

(** X8.  The failures of [probe] come in a fixed order.  A missing input
    raises [FileNotFoundError], with the message [Input file not found: ]
    followed by the path, before the binaries are looked for: nothing is run
    or logged.  A failure to locate the binaries is passed on, again with
    nothing run.  A non-zero exit status of the prober raises
    [CalledProcessError] without the output being parsed; output that is no
    JSON raises [RuntimeError]; an exception of the extraction is passed on.
    In these three cases the prober has been run exactly once, and in no
    case is a file, the progress or the cancellation event touched. *)
Theorem probe_failure_order (w : world) (input_path : path) (st : state) :
  (st_fs st !! input_path = None ->
   probe w input_path st
   = (Raise (FileNotFoundError ("Input file not found: " +:+ input_path)), st))
  /\ (forall (f : file) (e : exn),
        st_fs st !! input_path = Some f ->
        w_ffmpeg_paths w = Raise e ->
        probe w input_path st = (Raise e, st))
  /\ (forall (f : file) (paths : path * path),
        st_fs st !! input_path = Some f ->
        w_ffmpeg_paths w = Ok paths ->
        (c_returncode (w_run w (probe_cmd (snd paths) input_path) (st_fs st)) <> 0 ->
         probe w input_path st
         = (Raise (CalledProcessError
                     (c_returncode (w_run w (probe_cmd (snd paths) input_path) (st_fs st)))
                     (probe_cmd (snd paths) input_path)),
            probed w (probe_cmd (snd paths) input_path) st))
        /\ (c_returncode (w_run w (probe_cmd (snd paths) input_path) (st_fs st)) = 0 ->
            w_json_loads w
              (decode_replace (w_locale w)
                 (c_stdout (w_run w (probe_cmd (snd paths) input_path) (st_fs st))))
            = None ->
            probe w input_path st
            = (Raise (RuntimeError "ffprobe returned invalid JSON."),
               probed w (probe_cmd (snd paths) input_path) st))
        /\ (forall (info : pyval) (e : exn),
              c_returncode (w_run w (probe_cmd (snd paths) input_path) (st_fs st)) = 0 ->
              w_json_loads w
                (decode_replace (w_locale w)
                   (c_stdout (w_run w (probe_cmd (snd paths) input_path) (st_fs st))))
              = Some info ->
              probe_extract w info = Raise e ->
              probe w input_path st
              = (Raise e, probed w (probe_cmd (snd paths) input_path) st))).
Proof.
  split; [|split].
  - intros H. rewrite probe_eval, H. reflexivity.
  - intros f e Hf He. rewrite probe_eval, Hf, He. reflexivity.
  - intros f paths Hf Hp. split; [|split].
    + intros Hrc. rewrite probe_eval, Hf, Hp. cbn zeta.
      destruct (Z.eqb_spec (c_returncode (w_run w (probe_cmd (snd paths) input_path) (st_fs st))) 0);
        [contradiction|reflexivity].
    + intros Hrc Hj. rewrite probe_eval, Hf, Hp. cbn zeta. rewrite Hrc, Hj. reflexivity.
    + intros info e Hrc Hj Hx. rewrite probe_eval, Hf, Hp. cbn zeta.
      rewrite Hrc, Hj, Hx. reflexivity.
Qed.

(** X9.  Of the exceptions of [float()] and [int()], the two parsers let
    only [OverflowError] through: [_parse_float] for an int beyond the range
    of a float, [_parse_int] for that and for an infinite value.  A value
    that reads as NaN makes [_parse_int] return its default, 0. *)
Theorem parse_overflow_escapes (w : world) (value : pyval) :
  (forall e : exn,
     _parse_float w value = Raise e
     <-> e = OverflowError /\ py_float w value = Raise OverflowError)
  /\ (forall e : exn,
        _parse_int w value = Raise e
        <-> e = OverflowError
            /\ (py_float w value = Raise OverflowError
                \/ exists s : bool, py_float w value = Ok (S754_infinity s)))
  /\ (py_float w value = Ok S754_nan -> _parse_int w value = Ok 0).
Proof.
  assert (Hf : forall e, py_float w value = Raise e ->
                 e = TypeError \/ (exists msg, e = ValueError msg) \/ e = OverflowError).
  { intros e. destruct value as [| |z| |s| |]; cbn [py_float];
      try discriminate; try (intros [= <-]; auto).
    - unfold py_float_of_int. destruct (F64.of_Z z); try discriminate.
      intros [= <-]; auto.
    - destruct (w_float_of_str w s); [discriminate|]. intros [= <-]; eauto. }
  split; [|split].
  - intros e. unfold _parse_float.
    destruct (py_float w value) as [f|e0] eqn:E.
    + split; [discriminate|]. intros [_ H]. discriminate.
    + destruct (Hf e0 eq_refl) as [->|[(msg & ->)| ->]]; cbn [is_type_or_value_error].
      * split; [discriminate|]. intros [_ H]. discriminate.
      * split; [discriminate|]. intros [_ H]. discriminate.
      * split; [intros [= <-]; auto|]. intros [-> _]. reflexivity.
  - intros e. unfold _parse_int.
    destruct (py_float w value) as [f|e0] eqn:E; cbn [rbind].
    + destruct f as [s|s| |s m x]; cbn [py_int_of_float is_type_or_value_error].
      * split; [discriminate|]. intros [_ [H|(s' & H)]]; discriminate.
      * split; [intros [= <-]; eauto|]. intros [-> _]. reflexivity.
      * split; [discriminate|]. intros [_ [H|(s' & H)]]; discriminate.
      * destruct s; (split; [discriminate|]); intros [_ [H|(s' & H)]]; discriminate.
    + destruct (Hf e0 eq_refl) as [->|[(msg & ->)| ->]]; cbn [is_type_or_value_error].
      * split; [discriminate|]. intros [_ [H|(s' & H)]]; discriminate.
      * split; [discriminate|]. intros [_ [H|(s' & H)]]; discriminate.
      * split; [intros [= <-]; auto|]. intros [-> _]. reflexivity.
  - intros H. unfold _parse_int. rewrite H. reflexivity.
Qed.

Section StreamScan.

Variable w : world.

(** A scan that meets no positive duration ends on the last stream. *)
Lemma scan_streams_none_positive (l : list pyval) (s : pyval) (ds : float) :
  Forall (fun x => exists dx, field_float w x "duration" = Ok dx
                              /\ F64.gtb dx F64.zero = false) l ->
  field_float w s "duration" = Ok ds ->
  F64.gtb ds F64.zero = false ->
  forall d0, scan_streams w d0 (l ++ [s]) = Ok ds.
Proof.
  intros Hl Hs Hds. induction Hl as [|x l (dx & Hx & Hdx) _ IH]; intros d0.
  - cbn [app scan_streams]. unfold field_float in Hs.
    destruct (py_get s "duration" PNone) as [v|]; [|discriminate].
    cbn [rbind] in *. rewrite Hs. cbn [rbind]. rewrite Hds. reflexivity.
  - cbn [app scan_streams]. unfold field_float in Hx.
    destruct (py_get x "duration" PNone) as [v|]; [|discriminate].
    cbn [rbind] in *. rewrite Hx. cbn [rbind]. rewrite Hdx. apply IH.
Qed.

(** [probe_extract] once the three fields of the format record are read. *)
Lemma probe_extract_fields (info fmt streams : pyval) (d0 : float) (sz br0 : Z) :
  py_get info "format" (PDict []) = Ok fmt ->
  py_get info "streams" (PList []) = Ok streams ->
  field_float w fmt "duration" = Ok d0 ->
  field_int w fmt "size" = Ok sz ->
  field_int w fmt "bit_rate" = Ok br0 ->
  probe_extract w info
  = (let! bit_rate :=
       (if (br0 <=? 0) && F64.gtb d0 F64.zero && (0 <? sz) then
          let! n := py_float_of_int (sz * 8) in
          py_int_of_float (F64.div n d0)
        else Ok br0) in
     let! duration :=
       (if F64.leb d0 F64.zero then
          let! l := py_iter streams in scan_streams w d0 l
        else Ok d0) in
     Ok (Metadata duration sz bit_rate fmt streams)).
Proof.
  intros Hf Hs Hd Hsz Hbr.
  unfold field_float, field_int in Hd, Hsz, Hbr.
  destruct (py_get fmt "duration" PNone) as [vd|] eqn:Evd; [|discriminate].
  destruct (py_get fmt "size" PNone) as [vs|] eqn:Evs; [|discriminate].
  destruct (py_get fmt "bit_rate" PNone) as [vb|] eqn:Evb; [|discriminate].
  cbn [rbind] in Hd, Hsz, Hbr.
  unfold probe_extract. rewrite Hf, Hs. cbn [rbind].
  rewrite Evd. cbn [rbind]. rewrite Hd. cbn [rbind].
  rewrite Evs. cbn [rbind]. rewrite Hsz. cbn [rbind].
  rewrite Evb. cbn [rbind]. rewrite Hbr. cbn [rbind]. reflexivity.
Qed.

End StreamScan.

(** X10.  When the format record gives no positive duration and no stream
    gives one either, the duration [probe] reports is the one read from the
    last stream, whatever the format record said: the loop over the streams
    overwrites the duration at every turn.  With no stream at all the
    format's value is kept.  In both cases the bit-rate is the one read from
    the format record: the fallback needs a positive duration. *)
Theorem probe_extract_no_positive_duration (w : world) (info fmt : pyval)
    (d0 : float) (sz br0 : Z) :
  py_get info "format" (PDict []) = Ok fmt ->
  field_float w fmt "duration" = Ok d0 ->
  field_int w fmt "size" = Ok sz ->
  field_int w fmt "bit_rate" = Ok br0 ->
  F64.leb d0 F64.zero = true ->
  (forall (l : list pyval) (s : pyval) (ds : float),
     py_get info "streams" (PList []) = Ok (PList (l ++ [s])) ->
     Forall (fun x => exists dx, field_float w x "duration" = Ok dx
                                 /\ F64.gtb dx F64.zero = false) l ->
     field_float w s "duration" = Ok ds ->
     F64.gtb ds F64.zero = false ->
     probe_extract w info = Ok (Metadata ds sz br0 fmt (PList (l ++ [s]))))
  /\ (py_get info "streams" (PList []) = Ok (PList []) ->
      probe_extract w info = Ok (Metadata d0 sz br0 fmt (PList []))).
Proof.
  intros Hf Hd Hsz Hbr Hle.
  assert (Hgt : F64.gtb d0 F64.zero = false) by (apply leb_zero_gtb; exact Hle).
  split.
  - intros l s ds Hs Hl Hsd Hds.
    rewrite (probe_extract_fields w info fmt _ d0 sz br0 Hf Hs Hd Hsz Hbr).
    rewrite Hgt, Hle, andb_false_r. cbn [andb rbind py_iter].
    rewrite (scan_streams_none_positive w l s ds Hl Hsd Hds). reflexivity.
  - intros Hs.
    rewrite (probe_extract_fields w info fmt _ d0 sz br0 Hf Hs Hd Hsz Hbr).
    rewrite Hgt, Hle, andb_false_r. reflexivity.
Qed.

Lemma probe_extract_no_positive_duration_witness :
  probe_extract (json_world info_negative_stream) info_negative_stream
  = Ok (Metadata (SFopp F64.one) 1000000 64000
          (PDict [(lit "duration", PFloat F64.zero);
                  (lit "size", PInt 1000000);
                  (lit "bit_rate", PInt 64000)])
          (PList ([PDict [(lit "codec_type", PStr (lit "data"))]]
                  ++ [PDict [(lit "duration", PFloat (SFopp F64.one))]]))).
Proof.
  refine (proj1 (probe_extract_no_positive_duration (json_world info_negative_stream)
                   info_negative_stream
                   (PDict [(lit "duration", PFloat F64.zero);
                           (lit "size", PInt 1000000);
                           (lit "bit_rate", PInt 64000)])
                   F64.zero 1000000 64000 eq_refl eq_refl eq_refl eq_refl eq_refl)
                [PDict [(lit "codec_type", PStr (lit "data"))]]
                (PDict [(lit "duration", PFloat (SFopp F64.one))])
                (SFopp F64.one) eq_refl _ eq_refl eq_refl).
  repeat constructor. exists F64.zero. split; reflexivity.
Defined.

(* --------------------------------------------------------------------- *)
(** ** Rules for runs with a poll count *)
(* --------------------------------------------------------------------- *)

Section RunAt.

Context {A B : Type}.

Lemma run_at_ret (fs : fsys) (pr : list (Z * Z)) (n : nat) (a : A) :
  run_at fs pr n (ret a) (Ok a) fs pr n.
Proof. intros st Hfs Hpr Hn. exists st. auto. Qed.

Lemma run_at_raise (fs : fsys) (pr : list (Z * Z)) (n : nat) (e : exn) :
  run_at fs pr n (raise e : M A) (Raise e) fs pr n.
Proof. intros st Hfs Hpr Hn. exists st. auto. Qed.

Lemma run_at_lift (fs : fsys) (pr : list (Z * Z)) (n : nat) (r : result A) :
  run_at fs pr n (lift r) r fs pr n.
Proof. intros st Hfs Hpr Hn. exists st. auto. Qed.

Lemma run_at_bind (fs fs1 fs2 : fsys) (pr pr1 pr2 : list (Z * Z)) (n n1 n2 : nat)
    (m : M A) (k : A -> M B) (a : A) (r : result B) :
  run_at fs pr n m (Ok a) fs1 pr1 n1 ->
  run_at fs1 pr1 n1 (k a) r fs2 pr2 n2 ->
  run_at fs pr n (bind m k) r fs2 pr2 n2.
Proof.
  intros Hm Hk st Hfs Hpr Hn.
  destruct (Hm st Hfs Hpr Hn) as (st1 & E1 & Hfs1 & Hpr1 & Hn1).
  destruct (Hk st1 Hfs1 Hpr1 Hn1) as (st2 & E2 & H2).
  exists st2. unfold bind. rewrite E1. auto.
Qed.

Lemma run_at_bind_raise (fs fs1 : fsys) (pr pr1 : list (Z * Z)) (n n1 : nat)
    (m : M A) (k : A -> M B) (e : exn) :
  run_at fs pr n m (Raise e) fs1 pr1 n1 ->
  run_at fs pr n (bind m k) (Raise e) fs1 pr1 n1.
Proof.
  intros Hm st Hfs Hpr Hn.
  destruct (Hm st Hfs Hpr Hn) as (st1 & E1 & H1).
  exists st1. unfold bind. rewrite E1. auto.
Qed.

Lemma run_at_try_ok (fs fs1 : fsys) (pr pr1 : list (Z * Z)) (n n1 : nat)
    (m : M A) (h : exn -> option (M A)) (a : A) :
  run_at fs pr n m (Ok a) fs1 pr1 n1 ->
  run_at fs pr n (try_except m h) (Ok a) fs1 pr1 n1.
Proof.
  intros Hm st Hfs Hpr Hn.
  destruct (Hm st Hfs Hpr Hn) as (st1 & E1 & H1).
  exists st1. unfold try_except. rewrite E1. auto.
Qed.

(** An exception a handler selects: the handler runs where the body
    stopped. *)
Lemma run_at_try_caught (fs fs1 fs2 : fsys) (pr pr1 pr2 : list (Z * Z))
    (n n1 n2 : nat) (m : M A) (h : exn -> option (M A)) (e : exn)
    (handler : M A) (r : result A) :
  h e = Some handler ->
  run_at fs pr n m (Raise e) fs1 pr1 n1 ->
  run_at fs1 pr1 n1 handler r fs2 pr2 n2 ->
  run_at fs pr n (try_except m h) r fs2 pr2 n2.
Proof.
  intros He Hm Hh st Hfs Hpr Hn.
  destruct (Hm st Hfs Hpr Hn) as (st1 & E1 & Hfs1 & Hpr1 & Hn1).
  destruct (Hh st1 Hfs1 Hpr1 Hn1) as (st2 & E2 & H2).
  exists st2. unfold try_except. rewrite E1, He. auto.
Qed.

End RunAt.

Section RunAtOps.

Variables (fs : fsys) (pr : list (Z * Z)) (n : nat).

Lemma run_at_log (r : log_record) : run_at fs pr n (log r) (Ok tt) fs pr n.
Proof. intros st Hfs Hpr Hn. eexists. split; [reflexivity|]. auto. Qed.

Lemma run_at_get_fs : run_at fs pr n get_fs (Ok fs) fs pr n.
Proof. intros st Hfs Hpr Hn. exists st. unfold get_fs. rewrite Hfs. auto. Qed.

Lemma run_at_set_fs (fs' : fsys) : run_at fs pr n (set_fs fs') (Ok tt) fs' pr n.
Proof. intros st Hfs Hpr Hn. eexists. split; [reflexivity|]. auto. Qed.

Lemma run_at_path_exists (p : path) :
  run_at fs pr n (path_exists p)
    (Ok (match fs !! p with Some _ => true | None => false end)) fs pr n.
Proof. eapply run_at_bind; [apply run_at_get_fs|]. apply run_at_ret. Qed.

Lemma run_at_stat_size (p : path) (f : file) :
  fs !! p = Some f -> run_at fs pr n (stat_size p) (Ok (f_size f)) fs pr n.
Proof.
  intros H. eapply run_at_bind; [apply run_at_get_fs|].
  cbn beta. rewrite H. apply run_at_ret.
Qed.

Lemma run_at_unlink (p : path) (missing_ok : bool) :
  is_Some (fs !! p) \/ missing_ok = true ->
  run_at fs pr n (path_unlink p missing_ok) (Ok tt) (delete p fs) pr n.
Proof.
  intros H. eapply run_at_bind; [apply run_at_get_fs|]. cbn beta.
  destruct (fs !! p) as [f|] eqn:E.
  - apply run_at_set_fs.
  - destruct H as [[f Hf]| ->]; [discriminate|].
    rewrite delete_id by exact E. apply run_at_ret.
Qed.

(** [if p.exists(): p.unlink()]. *)
Lemma run_at_remove_if_present (p : path) :
  run_at fs pr n
    (let* found := path_exists p in if found then path_unlink p false else ret tt)
    (Ok tt) (delete p fs) pr n.
Proof.
  eapply run_at_bind; [apply run_at_path_exists|].
  destruct (fs !! p) as [f|] eqn:E.
  - apply run_at_unlink. left. rewrite E. eauto.
  - rewrite delete_id by exact E. apply run_at_ret.
Qed.

(** A check of the signal that sees it clear. *)
Lemma run_at_check_cancel (ce : option Event) :
  unobserved ce n 1 ->
  run_at fs pr n (_check_cancel ce) (Ok tt) fs pr (n + polls_made ce 1).
Proof.
  intros H st Hfs Hpr Hn. subst n.
  rewrite (check_cancel_unobserved ce st H).
  eexists. split; [reflexivity|]. auto.
Qed.

(** The prober polls nothing, and its outcome is a function of the
    files. *)
Lemma run_at_probe (w : world) (input_path : path) (st0 : state) :
  st_fs st0 = fs ->
  run_at fs pr n (probe w input_path) (fst (probe w input_path st0)) fs pr n.
Proof.
  intros H0 st Hfs Hpr Hn. rewrite !probe_eval, H0, Hfs.
  destruct (fs !! input_path) as [f|]; [|eexists; split; [reflexivity|]; auto].
  destruct (w_ffmpeg_paths w) as [paths|e]; [|eexists; split; [reflexivity|]; auto].
  cbn zeta.
  destruct (c_returncode _ =? 0); [|eexists; split; [reflexivity|]; cbn; auto].
  destruct (w_json_loads w _) as [info|]; [|eexists; split; [reflexivity|]; cbn; auto].
  destruct (probe_extract w info) as [meta|e]; eexists; (split; [reflexivity|]); cbn; auto.
Qed.

(** A streamed child that runs to its end before the signal is seen. *)
Lemma run_at_stream (w : world) (args : list string) (ce : option Event)
    (lvl : level) (enc : option codec) :
  unobserved ce n (length (streamed_lines w args enc fs)) ->
  run_at fs pr n (run_command w args false ce lvl enc)
    (if p_returncode (w_popen w args fs) =? 0 then Ok None
     else Raise (CalledProcessError (p_returncode (w_popen w args fs)) args))
    (file_left args (p_file (w_popen w args fs)) fs) pr
    (n + polls_made ce (length (streamed_lines w args enc fs))).
Proof.
  intros H st Hfs Hpr Hn. subst fs n.
  rewrite (run_command_stream_unobserved w args ce lvl enc st H).
  eexists. split; [reflexivity|]. auto.
Qed.

(** A streamed child during which the signal is seen. *)
Lemma run_at_stream_cancelled (w : world) (args : list string) (ev : Event) (t : nat)
    (lvl : level) (enc : option codec) :
  set_at ev = Some t ->
  (t - n < length (streamed_lines w args enc fs))%nat ->
  run_at fs pr n (run_command w args false (Some ev) lvl enc)
    (Raise (OperationCancelled "Process was cancelled by user."))
    (file_left args (p_file_killed (w_popen w args fs) (S (t - n))) fs) pr
    (n + S (t - n)).
Proof.
  intros Ht H st Hfs Hpr Hn. subst fs n.
  rewrite (run_command_stream_observed w args ev t lvl enc st Ht H).
  eexists. split; [reflexivity|]. auto.
Qed.

End RunAtOps.

(* --------------------------------------------------------------------- *)
(** ** The enforcer under cancellation *)
(* --------------------------------------------------------------------- *)

Section CancelledPart.

Variables (w : world) (max_gb : float) (max_bytes : Z) (ffmpeg_path : path)
          (ev : Event) (t : nat) (cb : option ProgressCallback) (total index : Z)
          (file_path tmp_file : path) (final_files : list path) (st : state)
          (f : file) (meta : metadata) (target_bitrate : Z) (cmd : list string).

Hypothesis Ht : set_at ev = Some t.
Hypothesis Hhead : (st_polls st + 1 <= t)%nat.
Hypothesis Hfile : st_fs st !! file_path = Some f.
Hypothesis Hbig : max_bytes < f_size f.
Hypothesis Hprobe : fst (probe w file_path st) = Ok meta.
Hypothesis Hdur : F64.leb (md_duration meta) F64.zero = false.
Hypothesis Htmp : with_suffix file_path ".tmp.mp4" = Ok tmp_file.
Hypothesis Hbr : _calculate_bitrate (md_duration meta) max_gb = Ok target_bitrate.
Hypothesis Hcmd : bitrate_args ffmpeg_path file_path tmp_file target_bitrate = Ok cmd.

(** From the head of the loop body to the bitrate-targeted encode. *)
Ltac enter_encode :=
  unfold reencode_part;
  (eapply run_at_bind; [apply run_at_check_cancel; cbn; rewrite Ht; exact Hhead|]);
  cbn [polls_made];
  (eapply run_at_bind; [apply run_at_stat_size; exact Hfile|]);
  destruct (Z.leb_spec (f_size f) max_bytes) as [?|_]; [lia|];
  (eapply run_at_bind; [apply run_at_log|]);
  (eapply run_at_bind;
     [pose proof (run_at_probe (st_fs st) (st_progress st) (st_polls st + 1)
                    w file_path st eq_refl) as Hp;
      rewrite Hprobe in Hp; exact Hp|]);
  cbn zeta; rewrite Hdur;
  (eapply run_at_bind; [rewrite Htmp; apply run_at_lift|]);
  (eapply run_at_bind; [apply run_at_path_exists|]);
  (eapply run_at_bind with (fs1 := delete tmp_file (st_fs st));
     [destruct (st_fs st !! tmp_file) eqn:Estale;
        [apply run_at_unlink; left; rewrite Estale; eauto
        |rewrite delete_id by exact Estale; apply run_at_ret]|]);
  rewrite Hbr.

Lemma delete_wrote_tmp (x : option file) (fs : fsys) :
  delete tmp_file (file_left cmd x (delete tmp_file fs)) = delete tmp_file fs.
Proof.
  rewrite (file_left_operand tmp_file cmd x _
             (bitrate_args_operand ffmpeg_path file_path tmp_file _ _ Hcmd)).
  destruct x as [g|].
  - apply delete_insert_id, lookup_delete_eq.
  - apply delete_id, lookup_delete_eq.
Qed.

(** The signal is seen while the bitrate-targeted encode runs: what the
    encoder left is removed and the cancellation is passed on. *)
Lemma reencode_part_cancelled_encode :
  (t - (st_polls st + 1)
   < length (streamed_lines w cmd None (delete tmp_file (st_fs st))))%nat ->
  run_at (st_fs st) (st_progress st) (st_polls st)
    (reencode_part w max_gb max_bytes ffmpeg_path (Some ev) cb
       total index file_path final_files)
    (Raise (OperationCancelled "Process was cancelled by user."))
    (delete tmp_file (st_fs st)) (st_progress st)
    (st_polls st + 1 + S (t - (st_polls st + 1))).
Proof.
  intros Hseen.
  rewrite <- (delete_wrote_tmp
                (p_file_killed (w_popen w cmd (delete tmp_file (st_fs st)))
                   (S (t - (st_polls st + 1)))) (st_fs st)) at 1.
  enter_encode.
  eapply run_at_bind_raise.
  eapply run_at_try_caught
    with (e := OperationCancelled "Process was cancelled by user."); [reflexivity| |].
  - unfold _encode_with_target_bitrate.
    eapply run_at_bind; [rewrite Hcmd; apply run_at_lift|].
    eapply run_at_bind_raise.
    apply run_at_stream_cancelled; [exact Ht|exact Hseen].
  - eapply run_at_bind; [apply run_at_path_exists|].
    eapply run_at_bind; [|apply run_at_raise].
    match goal with |- context [file_left ?c ?x ?s] => set (fs1 := file_left c x s) end.
    destruct (fs1 !! tmp_file) as [g|] eqn:E.
    + apply run_at_unlink. left. rewrite E. eauto.
    + rewrite delete_id by exact E. apply run_at_ret.
Qed.

Variable f0 : file.

Hypothesis Hquiet :
  (st_polls st + 1 + length (streamed_lines w cmd None (delete tmp_file (st_fs st)))
   + 1 <= t)%nat.
Hypothesis Hrc : p_returncode (w_popen w cmd (delete tmp_file (st_fs st))) = 0.
Hypothesis Hf0 : p_file (w_popen w cmd (delete tmp_file (st_fs st))) = Some f0.
Hypothesis Hlarge : max_bytes < f_size f0.

(** The signal is seen while the first rung of the ladder runs: the
    cancellation is passed on with what the encoder left still in place. *)
Lemma reencode_part_cancelled_rung :
  (t - (st_polls st + 1
        + length (streamed_lines w cmd None (delete tmp_file (st_fs st))) + 1)
   < length (streamed_lines w (crf_args ffmpeg_path file_path tmp_file 23) None
               (delete tmp_file (st_fs st))))%nat ->
  run_at (st_fs st) (st_progress st) (st_polls st)
    (reencode_part w max_gb max_bytes ffmpeg_path (Some ev) cb
       total index file_path final_files)
    (Raise (OperationCancelled "Process was cancelled by user."))
    (wrote tmp_file
       (p_file_killed (w_popen w (crf_args ffmpeg_path file_path tmp_file 23)
                         (delete tmp_file (st_fs st)))
          (S (t - (st_polls st + 1
                   + length (streamed_lines w cmd None (delete tmp_file (st_fs st)))
                   + 1))))
       (delete tmp_file (st_fs st)))
    (st_progress st)
    (st_polls st + 1
     + length (streamed_lines w cmd None (delete tmp_file (st_fs st))) + 1
     + S (t - (st_polls st + 1
               + length (streamed_lines w cmd None (delete tmp_file (st_fs st)))
               + 1))).
Proof.
  intros Hseen.
  set (L1 := length (streamed_lines w cmd None (delete tmp_file (st_fs st)))) in *.
  enter_encode.
  assert (Habsent : delete tmp_file (st_fs st) !! tmp_file = None)
    by apply lookup_delete_eq.
  eapply run_at_bind.
  { apply run_at_try_ok. unfold _encode_with_target_bitrate.
    eapply run_at_bind; [rewrite Hcmd; apply run_at_lift|].
    eapply run_at_bind; [|apply run_at_ret].
    pose proof (run_at_stream (delete tmp_file (st_fs st)) (st_progress st)
                  (st_polls st + 1) w cmd (Some ev) INFO None) as H.
    rewrite Hrc, Hf0 in H. cbn [Z.eqb polls_made] in H. fold L1 in H.
    rewrite (file_left_operand tmp_file cmd _ _
               (bitrate_args_operand ffmpeg_path file_path tmp_file _ _ Hcmd)) in H.
    apply H. cbn. rewrite Ht. lia. }
  eapply run_at_bind; [apply run_at_path_exists|].
  rewrite lookup_insert_eq. cbn [negb].
  eapply run_at_bind; [apply run_at_stat_size; apply lookup_insert_eq|].
  destruct (Z.ltb_spec max_bytes (f_size f0)) as [_|?]; [|lia].
  eapply run_at_bind_raise.
  eapply run_at_bind; [apply run_at_log|].
  eapply run_at_bind with (fs1 := delete tmp_file (st_fs st)).
  { rewrite <- (delete_insert_id (delete tmp_file (st_fs st)) tmp_file f0 Habsent) at 2.
    apply run_at_unlink. right. reflexivity. }
  cbn [crf_ladder CRF_RUNGS].
  eapply run_at_bind; [apply run_at_check_cancel; cbn; rewrite Ht; lia|].
  cbn [polls_made].
  eapply run_at_bind_raise. unfold _encode_with_crf.
  eapply run_at_bind_raise.
  pose proof (run_at_stream_cancelled (delete tmp_file (st_fs st)) (st_progress st)
                (st_polls st + 1 + L1 + 1) w
                (crf_args ffmpeg_path file_path tmp_file 23) ev t INFO None Ht Hseen)
    as H.
  rewrite (file_left_operand tmp_file _ _ _
             (crf_args_operand ffmpeg_path file_path tmp_file 23)) in H.
  exact H.
Qed.

End CancelledPart.

(* --------------------------------------------------------------------- *)
(** ** The enforcer: branches and cancellations *)
(* --------------------------------------------------------------------- *)

(** What a run of the loop body that raises means for the loop. *)
Lemma reencode_loop_raise_at (w : world) (max_gb : float) (max_bytes : Z)
    (ffmpeg_path : path) (ce : option Event) (cb : option ProgressCallback)
    (total index : Z) (file_path : path) (rest final_files : list path) (st : state)
    (e : exn) (fs' : fsys) (pr' : list (Z * Z)) (n' : nat) :
  run_at (st_fs st) (st_progress st) (st_polls st)
    (reencode_part w max_gb max_bytes ffmpeg_path ce cb total index file_path final_files)
    (Raise e) fs' pr' n' ->
  exists st' : state,
    reencode_loop w max_gb max_bytes ffmpeg_path ce cb total index (file_path :: rest)
      final_files st
    = (Raise e, st')
    /\ st_fs st' = fs' /\ st_progress st' = pr' /\ st_polls st' = n'.
Proof.
  intros H. destruct (H st eq_refl eq_refl eq_refl) as (st' & E & H').
  exists st'. cbn [reencode_loop]. unfold bind at 1. rewrite E. auto.
Qed.

(** X11.  An oversize part for which the prober reports no positive duration
    (zero, negative, or none at all) is skipped: nothing is encoded, no file
    is touched, not even a stale temporary file, and the part is reported
    and returned like any other. *)
Theorem reencode_loop_unknown_duration (w : world) (max_gb : float) (max_bytes : Z)
    (ffmpeg_path : path) (ce : option Event) (total index : Z)
    (file_path : path) (rest final_files : list path) (st : state)
    (f : file) (meta : metadata) :
  never_set ce ->
  st_fs st !! file_path = Some f ->
  max_bytes < f_size f ->
  fst (probe w file_path st) = Ok meta ->
  F64.leb (md_duration meta) F64.zero = true ->
  exists st' : state,
    reencode_loop w max_gb max_bytes ffmpeg_path ce (Some QueueProgress)
      total index (file_path :: rest) final_files st
    = reencode_loop w max_gb max_bytes ffmpeg_path ce (Some QueueProgress)
        total (index + 1) rest (final_files ++ [file_path]) st'
    /\ st_fs st' = st_fs st
    /\ st_progress st' = st_progress st ++ [(index, total)].
Proof.
  intros Hnever Hfile Hbig Hprobe Hdur.
  exact (reencode_loop_step w max_gb max_bytes ffmpeg_path ce total index
           file_path final_files st rest _ _ _
           (reencode_part_no_duration w max_gb max_bytes ffmpeg_path ce total index
              file_path final_files st f meta Hnever Hfile Hbig Hprobe Hdur)).
Qed.

(** The prober prints an empty JSON object for the first of two parts of
    2 GiB under a limit of 1 GB. *)
Lemma reencode_loop_unknown_duration_witness :
  exists st' : state,
    reencode_loop (json_world info_empty) (F64.of_Z 1) GiB "ffmpeg" None
      (Some QueueProgress) 2 1 [part0; part1] [] parts_state
    = reencode_loop (json_world info_empty) (F64.of_Z 1) GiB "ffmpeg" None
        (Some QueueProgress) 2 (1 + 1) [part1] ([] ++ [part0]) st'
    /\ st_fs st' = st_fs parts_state
    /\ st_progress st' = st_progress parts_state ++ [(1, 2)].
Proof.
  refine (reencode_loop_unknown_duration (json_world info_empty) (F64.of_Z 1) GiB
            "ffmpeg" None 2 1 part0 [part1] [] parts_state original0 _ I eq_refl _ _ _).
  - vm_compute. reflexivity.
  - vm_compute. reflexivity.
  - reflexivity.
Defined.

(** X12.  An oversize part whose duration reads as NaN passes the test
    [duration <= 0]; the bitrate computation then fails on [int(nan)] with a
    [ValueError], which the enforcer catches: a stale temporary file is
    removed, nothing is encoded, and the part is kept as it is, reported and
    returned. *)
Theorem reencode_loop_nan_duration (w : world) (max_gb : float) (max_bytes : Z)
    (ffmpeg_path : path) (ce : option Event) (total index : Z)
    (file_path tmp_file : path) (rest final_files : list path) (st : state)
    (f : file) (meta : metadata) :
  never_set ce ->
  gb_to_bytes max_gb = Ok max_bytes ->
  st_fs st !! file_path = Some f ->
  max_bytes < f_size f ->
  fst (probe w file_path st) = Ok meta ->
  md_duration meta = S754_nan ->
  with_suffix file_path ".tmp.mp4" = Ok tmp_file ->
  exists st' : state,
    reencode_loop w max_gb max_bytes ffmpeg_path ce (Some QueueProgress)
      total index (file_path :: rest) final_files st
    = reencode_loop w max_gb max_bytes ffmpeg_path ce (Some QueueProgress)
        total (index + 1) rest (final_files ++ [file_path]) st'
    /\ st_fs st' = delete tmp_file (st_fs st)
    /\ st_fs st' !! file_path = Some f
    /\ st_progress st' = st_progress st ++ [(index, total)].
Proof.
  intros Hnever Hmax Hfile Hbig Hprobe Hnan Htmp.
  assert (Hdur : F64.leb (md_duration meta) F64.zero = false)
    by (rewrite Hnan; reflexivity).
  assert (Hbr : _calculate_bitrate (md_duration meta) max_gb
                = Raise (ValueError "cannot convert float NaN to integer"))
    by (rewrite Hnan; apply (calculate_bitrate_nan max_gb max_bytes Hmax)).
  destruct (reencode_loop_step w max_gb max_bytes ffmpeg_path ce total index
              file_path final_files st rest _ _ _
              (reencode_part_bitrate_value_error w max_gb max_bytes ffmpeg_path ce
                 total index file_path final_files st f meta Hnever Hfile Hbig Hprobe
                 tmp_file Htmp _ Hdur Hbr))
    as (st' & E & Hfs & Hpr).
  exists st'. split; [exact E|]. split; [exact Hfs|]. split; [|exact Hpr].
  rewrite Hfs, lookup_delete_ne; [exact Hfile|]. apply (with_suffix_tmp_neq _ _ Htmp).
Qed.

(** The prober reports a duration of NaN for the first of two parts. *)
Lemma reencode_loop_nan_duration_witness :
  exists st' : state,
    reencode_loop (json_world info_nan) (F64.of_Z 1) GiB "ffmpeg" None
      (Some QueueProgress) 2 1 [part0; part1] [] parts_state
    = reencode_loop (json_world info_nan) (F64.of_Z 1) GiB "ffmpeg" None
        (Some QueueProgress) 2 (1 + 1) [part1] ([] ++ [part0]) st'
    /\ st_fs st' = delete tmp0 (st_fs parts_state)
    /\ st_fs st' !! part0 = Some original0
    /\ st_progress st' = st_progress parts_state ++ [(1, 2)].
Proof.
  refine (reencode_loop_nan_duration (json_world info_nan) (F64.of_Z 1) GiB
            "ffmpeg" None 2 1 part0 tmp0 [part1] [] parts_state original0 _
            I _ eq_refl _ _ _ _).
  - reflexivity.
  - vm_compute. reflexivity.
  - vm_compute. reflexivity.
  - reflexivity.
  - reflexivity.
Defined.

(** X13.  The normal case: the bitrate-targeted encode of an oversize part
    ends with status 0 and leaves a file within the limit.  That file
    replaces the part, no temporary file remains, the ladder is not entered,
    and the part is reported and returned. *)
Theorem reencode_loop_bitrate_accepted (w : world) (max_gb : float) (max_bytes : Z)
    (ffmpeg_path : path) (ce : option Event) (total index : Z)
    (file_path tmp_file : path) (rest final_files : list path) (st : state)
    (f g : file) (meta : metadata) (target_bitrate : Z) (cmd : list string) :
  never_set ce ->
  st_fs st !! file_path = Some f ->
  max_bytes < f_size f ->
  fst (probe w file_path st) = Ok meta ->
  F64.leb (md_duration meta) F64.zero = false ->
  with_suffix file_path ".tmp.mp4" = Ok tmp_file ->
  _calculate_bitrate (md_duration meta) max_gb = Ok target_bitrate ->
  bitrate_args ffmpeg_path file_path tmp_file target_bitrate = Ok cmd ->
  p_returncode (w_popen w cmd (delete tmp_file (st_fs st))) = 0 ->
  p_file (w_popen w cmd (delete tmp_file (st_fs st))) = Some g ->
  f_size g <= max_bytes ->
  exists st' : state,
    reencode_loop w max_gb max_bytes ffmpeg_path ce (Some QueueProgress)
      total index (file_path :: rest) final_files st
    = reencode_loop w max_gb max_bytes ffmpeg_path ce (Some QueueProgress)
        total (index + 1) rest (final_files ++ [file_path]) st'
    /\ st_fs st' = <[file_path := g]> (delete tmp_file (st_fs st))
    /\ st_fs st' !! file_path = Some g
    /\ st_fs st' !! tmp_file = None
    /\ st_progress st' = st_progress st ++ [(index, total)].
Proof.
  intros Hnever Hfile Hbig Hprobe Hdur Htmp Hbr Hcmd Hrc Hg Hsize.
  destruct (reencode_loop_step w max_gb max_bytes ffmpeg_path ce total index
              file_path final_files st rest _ _ _
              (reencode_part_bitrate_accepted w max_gb max_bytes ffmpeg_path ce
                 total index file_path final_files st f meta Hnever Hfile Hbig Hprobe
                 tmp_file Htmp target_bitrate cmd g Hdur Hbr Hcmd Hrc Hg Hsize))
    as (st' & E & Hfs & Hpr).
  exists st'. split; [exact E|]. split; [exact Hfs|].
  rewrite Hfs. split; [apply lookup_insert_eq|]. split; [|exact Hpr].
  rewrite lookup_insert_ne
    by (intros Heq; apply (with_suffix_tmp_neq _ _ Htmp); symmetry; exact Heq).
  apply lookup_delete_eq.
Qed.

(** Every encode leaves half a GiB under a limit of 1 GB. *)
Lemma reencode_loop_bitrate_accepted_witness :
  exists st' : state,
    reencode_loop (encoder_world 0 (Some compact)) (F64.of_Z 1) GiB "ffmpeg" None
      (Some QueueProgress) 2 1 [part0; part1] [] parts_state
    = reencode_loop (encoder_world 0 (Some compact)) (F64.of_Z 1) GiB "ffmpeg" None
        (Some QueueProgress) 2 (1 + 1) [part1] ([] ++ [part0]) st'
    /\ st_fs st' = <[part0 := compact]> (delete tmp0 (st_fs parts_state))
    /\ st_fs st' !! part0 = Some compact
    /\ st_fs st' !! tmp0 = None
    /\ st_progress st' = st_progress parts_state ++ [(1, 2)].
Proof.
  refine (reencode_loop_bitrate_accepted (encoder_world 0 (Some compact)) (F64.of_Z 1)
            GiB "ffmpeg" None 2 1 part0 tmp0 [part1] [] parts_state original0 compact
            _ _ _ I eq_refl _ _ _ _ _ _ _ _ _).
  - reflexivity.
  - vm_compute. reflexivity.
  - reflexivity.
  - reflexivity.
  - vm_compute. reflexivity.
  - vm_compute. reflexivity.
  - reflexivity.
  - reflexivity.
  - vm_compute. discriminate.
Defined.

(** X14.  A cancellation seen while the bitrate-targeted encode of an
    oversize part runs is passed on as [OperationCancelled], after the
    enforcer has removed whatever the terminated encoder left at the
    temporary path: the part still holds its original file, no temporary
    file remains, no progress event is emitted for the part, and the
    remaining parts are not looked at. *)
Theorem reencode_loop_cancelled_encode (w : world) (max_gb : float) (max_bytes : Z)
    (ffmpeg_path : path) (ev : Event) (t : nat) (cb : option ProgressCallback)
    (total index : Z) (file_path tmp_file : path) (rest final_files : list path)
    (st : state) (f : file) (meta : metadata) (target_bitrate : Z) (cmd : list string) :
  set_at ev = Some t ->
  (st_polls st + 1 <= t)%nat ->
  st_fs st !! file_path = Some f ->
  max_bytes < f_size f ->
  fst (probe w file_path st) = Ok meta ->
  F64.leb (md_duration meta) F64.zero = false ->
  with_suffix file_path ".tmp.mp4" = Ok tmp_file ->
  _calculate_bitrate (md_duration meta) max_gb = Ok target_bitrate ->
  bitrate_args ffmpeg_path file_path tmp_file target_bitrate = Ok cmd ->
  (t - (st_polls st + 1)
   < length (streamed_lines w cmd None (delete tmp_file (st_fs st))))%nat ->
  exists st' : state,
    reencode_loop w max_gb max_bytes ffmpeg_path (Some ev) cb
      total index (file_path :: rest) final_files st
    = (Raise (OperationCancelled "Process was cancelled by user."), st')
    /\ st_fs st' = delete tmp_file (st_fs st)
    /\ st_fs st' !! file_path = Some f
    /\ st_fs st' !! tmp_file = None
    /\ st_progress st' = st_progress st.
Proof.
  intros Ht Hhead Hfile Hbig Hprobe Hdur Htmp Hbr Hcmd Hseen.
  destruct (reencode_loop_raise_at w max_gb max_bytes ffmpeg_path (Some ev) cb total
              index file_path rest final_files st _ _ _ _
              (reencode_part_cancelled_encode w max_gb max_bytes ffmpeg_path ev t cb
                 total index file_path tmp_file final_files st f meta target_bitrate
                 cmd Ht Hhead Hfile Hbig Hprobe Hdur Htmp Hbr Hcmd Hseen))
    as (st' & E & Hfs & Hpr & _).
  exists st'. split; [exact E|]. split; [exact Hfs|].
  rewrite Hfs. split; [|split; [apply lookup_delete_eq|exact Hpr]].
  rewrite lookup_delete_ne; [exact Hfile|]. apply (with_suffix_tmp_neq _ _ Htmp).
Qed.

(** The signal is set while the second of the three lines of the first
    encode is read. *)
Lemma reencode_loop_cancelled_encode_witness :
  exists st' : state,
    reencode_loop slow_encoder_world (F64.of_Z 1) GiB "ffmpeg"
      (Some (MkEvent (Some 2%nat))) (Some QueueProgress) 2 1 [part0; part1] []
      parts_state
    = (Raise (OperationCancelled "Process was cancelled by user."), st')
    /\ st_fs st' = delete tmp0 (st_fs parts_state)
    /\ st_fs st' !! part0 = Some original0
    /\ st_fs st' !! tmp0 = None
    /\ st_progress st' = st_progress parts_state.
Proof.
  refine (reencode_loop_cancelled_encode slow_encoder_world (F64.of_Z 1) GiB "ffmpeg"
            (MkEvent (Some 2%nat)) 2%nat (Some QueueProgress) 2 1 part0 tmp0 [part1] []
            parts_state original0 _ _ _ eq_refl _ eq_refl _ _ _ _ _ _ _).
  - vm_compute. lia.
  - vm_compute. reflexivity.
  - reflexivity.
  - reflexivity.
  - reflexivity.
  - vm_compute. reflexivity.
  - reflexivity.
  - vm_compute. lia.
Defined.

(** X15.  The ladder has no such cleanup.  When the bitrate-targeted encode
    has run to its end and left a file above the limit, and the cancellation
    is then seen while the first rung (CRF 23) runs, [OperationCancelled] is
    passed on with whatever the terminated encoder left still at the
    temporary path; the part holds its original file and no progress event
    is emitted for it. *)
Theorem reencode_loop_cancelled_rung (w : world) (max_gb : float) (max_bytes : Z)
    (ffmpeg_path : path) (ev : Event) (t : nat) (cb : option ProgressCallback)
    (total index : Z) (file_path tmp_file : path) (rest final_files : list path)
    (st : state) (f f0 : file) (meta : metadata) (target_bitrate : Z)
    (cmd : list string) :
  set_at ev = Some t ->
  st_fs st !! file_path = Some f ->
  max_bytes < f_size f ->
  fst (probe w file_path st) = Ok meta ->
  F64.leb (md_duration meta) F64.zero = false ->
  with_suffix file_path ".tmp.mp4" = Ok tmp_file ->
  _calculate_bitrate (md_duration meta) max_gb = Ok target_bitrate ->
  bitrate_args ffmpeg_path file_path tmp_file target_bitrate = Ok cmd ->
  (st_polls st + 1 + length (streamed_lines w cmd None (delete tmp_file (st_fs st)))
   + 1 <= t)%nat ->
  p_returncode (w_popen w cmd (delete tmp_file (st_fs st))) = 0 ->
  p_file (w_popen w cmd (delete tmp_file (st_fs st))) = Some f0 ->
  max_bytes < f_size f0 ->
  (t - (st_polls st + 1
        + length (streamed_lines w cmd None (delete tmp_file (st_fs st))) + 1)
   < length (streamed_lines w (crf_args ffmpeg_path file_path tmp_file 23) None
               (delete tmp_file (st_fs st))))%nat ->
  exists st' : state,
    reencode_loop w max_gb max_bytes ffmpeg_path (Some ev) cb
      total index (file_path :: rest) final_files st
    = (Raise (OperationCancelled "Process was cancelled by user."), st')
    /\ st_fs st' !! tmp_file
       = p_file_killed (w_popen w (crf_args ffmpeg_path file_path tmp_file 23)
                          (delete tmp_file (st_fs st)))
           (S (t - (st_polls st + 1
                    + length (streamed_lines w cmd None (delete tmp_file (st_fs st)))
                    + 1)))
    /\ st_fs st' !! file_path = Some f
    /\ st_progress st' = st_progress st.
Proof.
  intros Ht Hfile Hbig Hprobe Hdur Htmp Hbr Hcmd Hquiet Hrc Hf0 Hlarge Hseen.
  assert (Hhead : (st_polls st + 1 <= t)%nat) by lia.
  destruct (reencode_loop_raise_at w max_gb max_bytes ffmpeg_path (Some ev) cb total
              index file_path rest final_files st _ _ _ _
              (reencode_part_cancelled_rung w max_gb max_bytes ffmpeg_path ev t cb
                 total index file_path tmp_file final_files st f meta target_bitrate
                 cmd Ht Hhead Hfile Hbig Hprobe Hdur Htmp Hbr Hcmd f0 Hquiet Hrc Hf0
                 Hlarge Hseen))
    as (st' & E & Hfs & Hpr & _).
  pose proof (with_suffix_tmp_neq _ _ Htmp) as Hne.
  exists st'. split; [exact E|]. rewrite Hfs. unfold wrote.
  destruct (p_file_killed _ _) as [g|].
  - split; [apply lookup_insert_eq|]. split; [|exact Hpr].
    rewrite lookup_insert_ne by exact Hne.
    rewrite lookup_delete_ne; [exact Hfile|exact Hne].
  - split; [apply lookup_delete_eq|]. split; [|exact Hpr].
    rewrite lookup_delete_ne; [exact Hfile|exact Hne].
Qed.

(** The first encode prints its three lines and leaves 1.5 GiB; the signal
    is set while the first line of the CRF 23 encode is read, and the
    terminated encoder leaves a truncated file. *)
Lemma reencode_loop_cancelled_rung_witness :
  exists st' : state,
    reencode_loop slow_encoder_world (F64.of_Z 1) GiB "ffmpeg"
      (Some (MkEvent (Some 5%nat))) (Some QueueProgress) 2 1 [part0; part1] []
      parts_state
    = (Raise (OperationCancelled "Process was cancelled by user."), st')
    /\ st_fs st' !! tmp0 = Some truncated
    /\ st_fs st' !! part0 = Some original0
    /\ st_progress st' = st_progress parts_state.
Proof.
  refine (reencode_loop_cancelled_rung slow_encoder_world (F64.of_Z 1) GiB "ffmpeg"
            (MkEvent (Some 5%nat)) 5%nat (Some QueueProgress) 2 1 part0 tmp0 [part1] []
            parts_state original0 encoded _ _ _ eq_refl eq_refl _ _ _ _ _ _ _ _ _ _ _).
  - vm_compute. reflexivity.
  - vm_compute. reflexivity.
  - reflexivity.
  - reflexivity.
  - vm_compute. reflexivity.
  - reflexivity.
  - vm_compute. lia.
  - reflexivity.
  - reflexivity.
  - vm_compute. reflexivity.
  - vm_compute. lia.
Defined.

(* --------------------------------------------------------------------- *)
(** ** The locator *)
(* --------------------------------------------------------------------- *)

Section Locator.

Variable env : locator_env.

(** The loop stops at the first directory that holds both binaries; when
    there is none, it has collected the pair tried in every directory. *)
Lemma search_candidates_spec (dirs : list path) :
  forall candidates : list (path * path),
    match search_candidates env dirs candidates with
    | inl found =>
        exists (pre : list path) (d : path) (post : list path),
          dirs = pre ++ d :: post
          /\ Forall (fun c => bundled env c = false) pre
          /\ bundled env d = true
          /\ found = (le_resolve env (le_join env d "ffmpeg.exe"),
                      le_resolve env (le_join env d "ffprobe.exe"))
    | inr tried_all =>
        Forall (fun c => bundled env c = false) dirs
        /\ tried_all = candidates ++ List.map (tried env) dirs
    end.
Proof.
  induction dirs as [|d rest IH]; intros candidates; cbn [search_candidates].
  - split; [constructor|]. cbn [List.map]. rewrite app_nil_r. reflexivity.
  - fold (bundled env d). destruct (bundled env d) eqn:Ed.
    + exists [], d, rest. repeat split; [constructor|exact Ed].
    + specialize (IH (candidates ++ [(le_join env d "ffmpeg.exe",
                                      le_join env d "ffprobe.exe")])).
      destruct (search_candidates env rest _) as [found|tried_all].
      * destruct IH as (pre & d' & post & -> & Hpre & Hd' & ->).
        exists (d :: pre), d', post. repeat split; [constructor; assumption|exact Hd'].
      * destruct IH as [Hrest ->]. split; [constructor; assumption|].
        rewrite <- app_assoc. reflexivity.
Qed.

(** The lines of the message name the parent of each [ffmpeg.exe] tried. *)
Lemma search_details_tried (dirs : list path) :
  search_details env (List.map (tried env) dirs)
  = String.concat (String NEWLINE EmptyString)
      (List.map (fun d => "- " +:+ le_parent env (le_join env d "ffmpeg.exe")) dirs).
Proof. unfold search_details. rewrite List.map_map. reflexivity. Qed.

End Locator.

(** X16.  [get_ffmpeg_paths] returns both binaries from one place, never one
    from a directory and the other from [PATH].  Either they are the
    resolved [ffmpeg.exe] and [ffprobe.exe] of the first candidate directory
    that holds both, a directory that holds only one of them being passed
    over; or no candidate holds both and [shutil.which] found both on
    [PATH].  It raises [FileNotFoundError] exactly in the remaining case: no
    candidate holds both, and [PATH] lacks at least one.  The message is the
    fixed text that ends in [Searched:] and a newline, followed by one line
    per candidate directory, in order: a dash, a space and the parent of the
    [ffmpeg.exe] tried there. *)
Theorem get_ffmpeg_paths_outcome (env : locator_env) :
  match get_ffmpeg_paths env with
  | Ok (a, b) =>
      (exists (pre : list path) (d : path) (post : list path),
         _candidate_directories env = pre ++ d :: post
         /\ Forall (fun c => bundled env c = false) pre
         /\ bundled env d = true
         /\ a = le_resolve env (le_join env d "ffmpeg.exe")
         /\ b = le_resolve env (le_join env d "ffprobe.exe"))
      \/ (Forall (fun c => bundled env c = false) (_candidate_directories env)
          /\ exists a' b' : string,
               le_which env "ffmpeg" = Some a' /\ le_which env "ffprobe" = Some b'
               /\ a' <> EmptyString /\ b' <> EmptyString
               /\ a = le_resolve env a' /\ b = le_resolve env b')
  | Raise e =>
      e = FileNotFoundError
            (NOT_LOCATED
             +:+ String.concat (String NEWLINE EmptyString)
                   (List.map
                      (fun d => "- " +:+ le_parent env (le_join env d "ffmpeg.exe"))
                      (_candidate_directories env)))
      /\ Forall (fun c => bundled env c = false) (_candidate_directories env)
      /\ (found_on_path (le_which env "ffmpeg") = false
          \/ found_on_path (le_which env "ffprobe") = false)
  end.
Proof.
  unfold get_ffmpeg_paths.
  pose proof (search_candidates_spec env (_candidate_directories env) []) as H.
  destruct (search_candidates env (_candidate_directories env) [])
    as [[a b]|tried_all].
  - destruct H as (pre & d & post & E & Hpre & Hd & [= -> ->]).
    left. exists pre, d, post. auto.
  - destruct H as [Hnone ->]. cbn zeta. cbn [app].
    rewrite search_details_tried.
    destruct (found_on_path (le_which env "ffmpeg")) eqn:Ea;
      destruct (found_on_path (le_which env "ffprobe")) eqn:Eb; cbn [andb]; auto.
    right. split; [exact Hnone|].
    destruct (le_which env "ffmpeg") as [a'|]; [|discriminate].
    destruct (le_which env "ffprobe") as [b'|]; [|discriminate].
    exists a', b'. cbn [default].
    repeat split; try reflexivity.
    + intros ->. discriminate.
    + intros ->. discriminate.
Qed.

(** The checkout: the module root holds neither binary and the working
    directory only [ffmpeg.exe]; the vendored pair is returned although
    [PATH] has both. *)
Example get_ffmpeg_paths_checkout :
  get_ffmpeg_paths checkout_env
  = Ok ("C:/src/VideoSplitter/third_party/ffmpeg/win-x64/ffmpeg.exe"%string,
        "C:/src/VideoSplitter/third_party/ffmpeg/win-x64/ffprobe.exe"%string).
Proof. vm_compute. reflexivity. Qed.

(** With no binary anywhere the message lists the three directories
    searched. *)
Example get_ffmpeg_paths_nowhere :
  get_ffmpeg_paths bare_env
  = Raise (FileNotFoundError
             (NOT_LOCATED
              +:+ "- C:/src/VideoSplitter" +:+ String NEWLINE EmptyString
              +:+ "- C:/work" +:+ String NEWLINE EmptyString
              +:+ "- C:/src/VideoSplitter/third_party/ffmpeg/win-x64")).
Proof. vm_compute. reflexivity. Qed.

(* --------------------------------------------------------------------- *)
(** ** Audio extraction *)
(* --------------------------------------------------------------------- *)

Section ExtractAudio.

(** The temporary file of an output is never the output itself. *)
Lemma with_suffix_tmp_mp3_neq (p q : path) :
  with_suffix p ".tmp.mp3" = Ok q -> q <> p.
Proof.
  pose proof (path_parent_name p) as Hp. unfold with_suffix.
  set (par := path_parent p) in *. set (nm := path_name p) in *.
  clearbody par nm. subst p.
  destruct (is_empty nm); [discriminate|].
  intros [= <-] H. apply append_inv_head in H.
  destruct (name_stem_spec nm) as [E|(a & E & Ha)].
  - rewrite E in H. apply (f_equal String.length) in H.
    rewrite append_length in H. cbn in H. lia.
  - rewrite E in H at 2. apply append_inv_head in H.
    injection H as <-. cbn in Ha. discriminate.
Qed.

Variables (mkdir : path -> result unit) (w : world)
          (input_path output_path ffmpeg_path : path) (audio_bitrate : string)
          (ce : option Event) (fs0 : fsys) (pr0 : list (Z * Z)).

(** Only the temporary file may differ from the start. *)
Let aside (tmp : path) (fs : fsys) (pr : list (Z * Z)) : Prop :=
  (forall q, q <> tmp -> fs !! q = fs0 !! q) /\ pr = pr0.

Let Qfin (p : path) (fs : fsys) (pr : list (Z * Z)) : Prop :=
  p = output_path
  /\ (exists g, fs !! output_path = Some g)
  /\ (forall tmp, with_suffix output_path ".tmp.mp3" = Ok tmp -> fs !! tmp = None)
  /\ (forall q, q <> output_path -> with_suffix output_path ".tmp.mp3" <> Ok q ->
                fs !! q = fs0 !! q)
  /\ pr = pr0.

Let Efin (_ : exn) (fs : fsys) (pr : list (Z * Z)) : Prop :=
  (forall q, with_suffix output_path ".tmp.mp3" <> Ok q -> fs !! q = fs0 !! q)
  /\ pr = pr0.

Lemma aside_Efin (tmp : path) (e : exn) (fs : fsys) (pr : list (Z * Z)) :
  with_suffix output_path ".tmp.mp3" = Ok tmp -> aside tmp fs pr -> Efin e fs pr.
Proof.
  intros Htmp [H ->]. split; [|reflexivity].
  intros q Hq. apply H. intros ->. contradiction.
Qed.

Lemma aside_wrote (tmp : path) (x : option file) (fs : fsys) (pr : list (Z * Z)) :
  aside tmp fs pr -> aside tmp (wrote tmp x fs) pr.
Proof.
  intros [H ->]. split; [|reflexivity]. intros q Hq. unfold wrote.
  destruct x as [g|]; [rewrite lookup_insert_ne by congruence|]; auto.
Qed.

Lemma extract_audio_triple :
  triple (fun fs pr => fs = fs0 /\ pr = pr0)
    (extract_audio mkdir w input_path output_path ffmpeg_path audio_bitrate ce)
    Qfin Efin.
Proof.
  unfold extract_audio.
  eapply triple_bind with (R1 := fun _ fs pr => fs = fs0 /\ pr = pr0).
  { apply step_unchanged; [apply unchanged_check_cancel|].
    intros e fs pr [-> ->]. split; auto. }
  intros _.
  eapply triple_bind with (R1 := fun _ fs pr => fs = fs0 /\ pr = pr0).
  { apply triple_lift; [intros; assumption|].
    intros e fs pr _ [-> ->]. split; auto. }
  intros _.
  eapply triple_bind with
    (R1 := fun tmp fs pr => (fs = fs0 /\ pr = pr0)
                            /\ with_suffix output_path ".tmp.mp3" = Ok tmp).
  { apply step_lift. intros e fs pr _ [-> ->]. split; auto. }
  intros tmp. apply triple_pre_pure. intros Htmp.
  pose proof (with_suffix_tmp_mp3_neq _ _ Htmp) as Hne.
  eapply triple_bind with (R1 := fun _ => aside tmp).
  { eapply triple_conseq;
      [apply (step_unlink (fun fs pr => fs = fs0 /\ pr = pr0) tmp true Efin);
       intros e fs pr [-> ->]; split; auto
      |auto| |auto].
    intros _ fs pr (fs1 & [-> ->] & ->). split; [|reflexivity].
    intros q Hq. apply lookup_delete_ne. congruence. }
  intros _.
  eapply triple_bind with (R1 := fun _ => aside tmp).
  { eapply triple_conseq; [apply (triple_stream w ce (aside tmp))|auto|..].
    - intros a fs pr (fs1 & x & HR & ->).
      change (file_left _ x fs1) with (wrote tmp x fs1) in *.
      apply aside_wrote, HR.
    - intros e fs pr (fs1 & x & HR & ->).
      change (file_left _ x fs1) with (wrote tmp x fs1) in *.
      apply (aside_Efin tmp e _ _ Htmp), aside_wrote, HR. }
  intros _.
  eapply triple_bind with
    (R1 := fun b fs pr => aside tmp fs pr
                          /\ b = match fs !! tmp with Some _ => true | None => false end).
  { apply triple_path_exists. }
  intros [|]; cbn [negb].
  2: { apply triple_raise. intros fs pr [HR _].
       apply (aside_Efin tmp _ _ _ Htmp HR). }
  eapply triple_bind with (R1 := fun _ => Qfin output_path).
  { eapply triple_conseq;
      [apply (step_replace
                (fun fs pr => aside tmp fs pr
                              /\ true = match fs !! tmp with Some _ => true | None => false end)
                tmp output_path Efin);
       intros e fs pr [HR _]; apply (aside_Efin tmp _ _ _ Htmp HR)
      |auto| |auto].
    intros _ fs pr (fs1 & g & [[HR ->] _] & Hg & ->).
    split; [reflexivity|]. split; [exists g; apply lookup_insert_eq|].
    split; [|split; [|reflexivity]].
    - intros tmp' Htmp'. rewrite Htmp in Htmp'. injection Htmp' as <-.
      rewrite lookup_insert_ne by congruence. apply lookup_delete_eq.
    - intros q Hq Hq'.
      rewrite lookup_insert_ne by congruence.
      rewrite lookup_delete_ne by (intros <-; contradiction).
      apply HR. intros ->. contradiction. }
  intros _.
  eapply triple_bind with (R1 := fun _ => Qfin output_path);
    [apply triple_log|].
  intros _. apply triple_ret. auto.
Qed.

End ExtractAudio.

(** X17.  [extract_audio] replaces the output only by a completed encode.
    When it returns, it returns the output path, the output exists, and no
    temporary file is left.  When it raises, for whatever reason
    (cancellation before or during the encode, a failure to create the
    directory, a non-zero exit status, no file produced), the output path
    holds what it held before.  In both cases every path other than the
    output and its temporary file holds what it held before, and no progress
    event is emitted. *)
Theorem extract_audio_replaces_on_success (mkdir : path -> result unit) (w : world)
    (input_path output_path ffmpeg_path : path) (audio_bitrate : string)
    (ce : option Event) (st : state) :
  match extract_audio mkdir w input_path output_path ffmpeg_path audio_bitrate ce st with
  | (Ok p, st') =>
      p = output_path
      /\ (exists g : file, st_fs st' !! output_path = Some g)
      /\ (forall tmp, with_suffix output_path ".tmp.mp3" = Ok tmp ->
                      st_fs st' !! tmp = None)
      /\ (forall q, q <> output_path -> with_suffix output_path ".tmp.mp3" <> Ok q ->
                    st_fs st' !! q = st_fs st !! q)
      /\ st_progress st' = st_progress st
  | (Raise _, st') =>
      st_fs st' !! output_path = st_fs st !! output_path
      /\ (forall q, with_suffix output_path ".tmp.mp3" <> Ok q ->
                    st_fs st' !! q = st_fs st !! q)
      /\ st_progress st' = st_progress st
  end.
Proof.
  pose proof (extract_audio_triple mkdir w input_path output_path ffmpeg_path
                audio_bitrate ce (st_fs st) (st_progress st) st (conj eq_refl eq_refl))
    as H.
  destruct (extract_audio mkdir w input_path output_path ffmpeg_path audio_bitrate ce st)
    as [[p|e] st'].
  - exact H.
  - destruct H as [Hfs Hpr]. split; [|split; assumption].
    apply Hfs. intros Heq. apply (with_suffix_tmp_mp3_neq _ _ Heq). reflexivity.
Qed.

(* --------------------------------------------------------------------- *)
(** ** Gigabytes to bytes *)
(* --------------------------------------------------------------------- *)

(** X18.  [gb_to_bytes] loses nothing to rounding: multiplying a binary64 by
    [2^30] only moves its exponent.  For a finite [value = +/- m * 2^e] the
    result is the integer part of [m * 2^(e + 30)] with the sign of [value],
    computed exactly ([Z.shiftl] floors a non-negative number), as long as
    the product stays below [2^1024]; beyond that, and for an infinite
    value, [int()] raises [OverflowError]; NaN raises [ValueError]; a zero of
    either sign gives 0. *)
Theorem gb_to_bytes_exact (value : float) :
  F64.valid value = true ->
  gb_to_bytes value
  = match value with
    | S754_zero _ => Ok 0
    | S754_infinity _ => Raise OverflowError
    | S754_nan => Raise (ValueError "cannot convert float NaN to integer")
    | S754_finite s m e =>
        if Z.pos (digits2_pos m) + e + 30 <=? 1024 then
          Ok (if s then - Z.shiftl (Z.pos m) (e + 30) else Z.shiftl (Z.pos m) (e + 30))
        else Raise OverflowError
    end.
Proof.
  intros Hv. unfold gb_to_bytes.
  change (py_float_of_int GB_IN_BYTES)
    with (Ok (S754_finite false 4503599627370496 (-22)) : result float).
  cbn [rbind].
  destruct value as [s|s| |s m e]; try reflexivity.
  pose proof (mul_GB_exact s m e Hv) as H.
  destruct (Z.pos (digits2_pos m) + e + 30 <=? 1024).
  - destruct H as (q & e' & -> & Hq). cbn [py_int_of_float].
    unfold F64.floor_scaled. rewrite Hq. destruct s; reflexivity.
  - rewrite H. reflexivity.
Qed.

(** A limit of 1.5 GB is 1610612736 bytes. *)
Lemma gb_to_bytes_exact_witness :
  gb_to_bytes (F64.div (F64.of_Z 3) (F64.of_Z 2)) = Ok 1610612736.
Proof.
  rewrite (gb_to_bytes_exact (F64.div (F64.of_Z 3) (F64.of_Z 2)) eq_refl).
  vm_compute. reflexivity.
Defined.
